(** * mindful_client: the streaming decoder, the per-turn history logic and
      the history persistence of [MindfulClient], embedded and verified.

    Source: [src/mindful_client/__init__.py].  Python values are modelled as
    follows.
    - [str] is a sequence of Unicode code points ([list N]); [bytes] is a
      list of [Byte.byte]; [chunk.decode('utf-8')] is the strict decoder
      [utf8_decode], whose [None] is [UnicodeDecodeError].
    - An exception is [None] in an [option] result.
    - A message dict is the record [message]; its [content] is text, a list
      of parts or Python's [None].
    - List objects live in a store ([gmap loc (list message)]), because
      [get_completions] appends to the list it was handed.
    - The disk is a finite map from paths to files.

    - The echo of the decoded characters is the record [console]: whether
      it is on, and whether printing a character and sleeping return or
      raise.

    Left out, as they decide none of the values returned or stored: the
    logger, the clock and the text that reaches the console.  Library
    functions ([json.loads], [str.format]) and the preset table are
    parameters; the servers, the generated identifier and the writability
    of the disk are the fields of [world]. *)

From Stdlib Require Import NArith Strings.Ascii Strings.String Strings.Byte.
From stdpp Require Import base option list gmap.

Local Open Scope N_scope.

(** ** Text *)

Module Text.

Abbreviation str := (list N) (only parsing).
Abbreviation bytes := (list byte) (only parsing).

(** A Python literal, as code points. *)
Definition lit (s : string) : str :=
  List.map N_of_ascii (list_ascii_of_string s).

Definition NL : N := 10.
Definition QUOTE : N := 34.

(** Truth value of a [str]: non-empty. *)
Definition truthy (s : str) : bool :=
  match s with [] => false | _ => true end.

Definition str_eqb (a b : str) : bool := bool_decide (a = b).

(** [s.startswith(p)] *)
Fixpoint startswith (p s : str) : bool :=
  match p, s with
  | [], _ => true
  | _ :: _, [] => false
  | a :: p', b :: s' => (a =? b) && startswith p' s'
  end.

(** [p in s] for two strings: substring test. *)
Fixpoint contains (p s : str) : bool :=
  startswith p s || match s with [] => false | _ :: s' => contains p s' end.

(** [str.isspace] on one code point (the characters [str.strip()] removes). *)
Definition isspace (c : N) : bool :=
  ((9 <=? c) && (c <=? 13)) || ((28 <=? c) && (c <=? 32))
  || (c =? 133) || (c =? 160) || (c =? 5760)
  || ((8192 <=? c) && (c <=? 8202))
  || (c =? 8232) || (c =? 8233) || (c =? 8239) || (c =? 8287) || (c =? 12288).

Fixpoint lstrip (p : N -> bool) (s : str) : str :=
  match s with
  | [] => []
  | c :: s' => if p c then lstrip p s' else s
  end.

Definition rstrip (p : N -> bool) (s : str) : str :=
  reverse (lstrip p (reverse s)).

(** [s.strip(chars)]: every leading and every trailing character that
    satisfies [p] is removed. *)
Definition strip (p : N -> bool) (s : str) : str := rstrip p (lstrip p s).

(** [s.strip()] *)
Definition strip_ws (s : str) : str := strip isspace s.

(** [s.strip(q)] where [q] is the one-character string holding a double
    quote. *)
Definition strip_quotes (s : str) : str := strip (N.eqb QUOTE) s.

(** [s.split(sep)] for a one-character separator: never the empty list. *)
Fixpoint split (sep : N) (s : str) : list str :=
  match s with
  | [] => [[]]
  | c :: s' =>
      if c =? sep then [] :: split sep s'
      else match split sep s' with
           | [] => [[c]]
           | l :: ls => (c :: l) :: ls
           end
  end.

(** [sep.join(parts)] *)
Fixpoint join (sep : str) (parts : list str) : str :=
  match parts with
  | [] => []
  | [p] => p
  | p :: ps => p ++ sep ++ join sep ps
  end.

(** [l[:-1]] and [l[-1]] *)
Definition py_init {A} (l : list A) : list A := take (length l - 1)%nat l.
Definition py_last {A} (l : list A) : option A := last l.

(** *** [bytes.decode('utf-8')], strict *)

Definition is_cont (b : byte) : bool :=
  let n := Byte.to_N b in (128 <=? n) && (n <? 192).

Definition cont_bits (b : byte) : N := Byte.to_N b - 128.

Definition is_surrogate (c : N) : bool := (55296 <=? c) && (c <? 57344).

Fixpoint utf8_decode (bs : bytes) : option str :=
  match bs with
  | [] => Some []
  | b0 :: r =>
      let n0 := Byte.to_N b0 in
      if n0 <? 128 then cons n0 <$> utf8_decode r
      else if (192 <=? n0) && (n0 <? 224) then
        match r with
        | b1 :: r1 =>
            let c := (n0 - 192) * 64 + cont_bits b1 in
            if is_cont b1 && (128 <=? c) then cons c <$> utf8_decode r1
            else None
        | _ => None
        end
      else if (224 <=? n0) && (n0 <? 240) then
        match r with
        | b1 :: b2 :: r2 =>
            let c := (n0 - 224) * 4096 + cont_bits b1 * 64 + cont_bits b2 in
            if is_cont b1 && is_cont b2 && (2048 <=? c)
               && negb (is_surrogate c)
            then cons c <$> utf8_decode r2
            else None
        | _ => None
        end
      else if (240 <=? n0) && (n0 <? 248) then
        match r with
        | b1 :: b2 :: b3 :: r3 =>
            let c := (n0 - 240) * 262144 + cont_bits b1 * 4096
                     + cont_bits b2 * 64 + cont_bits b3 in
            if is_cont b1 && is_cont b2 && is_cont b3
               && (65536 <=? c) && (c <=? 1114111)
            then cons c <$> utf8_decode r3
            else None
        | _ => None
        end
      else None
  end.

End Text.

(** ** JSON values and [json.loads] *)

Module Json.
Import Text.

(** What [json.loads] returns.  A number keeps its lexeme; an object keeps
    its members in document order, and a lookup takes the last member with
    the key, as the [dict] built by the library does. *)
#[warning="-register-all"]
Inductive json : Type :=
| JNull
| JBool (b : bool)
| JNumber (lexeme : str)
| JString (s : str)
| JArray (items : list json)
| JObject (members : list (str * json)).

Fixpoint dict_get (k : str) (members : list (str * json)) : option json :=
  match members with
  | [] => None
  | (k', v) :: rest =>
      match dict_get k rest with
      | Some v' => Some v'
      | None => if str_eqb k k' then Some v else None
      end
  end.

(** [key in data]; [None] is the [TypeError] of a value that is no
    container. *)
Definition py_in (key : str) (data : json) : option bool :=
  match data with
  | JObject ms => Some (bool_decide (is_Some (dict_get key ms)))
  | JString s => Some (contains key s)
  | JArray items =>
      Some (existsb (fun j => match j with
                              | JString s => str_eqb s key
                              | _ => false
                              end) items)
  | _ => None
  end.

(** [data[key]] for a string key: only a [dict] can be indexed by it. *)
Definition py_getitem (key : str) (data : json) : option json :=
  match data with
  | JObject ms => dict_get key ms
  | _ => None
  end.

(** *** A model of the library parser.

    The decoder below takes the parser as a parameter; [loads] is the
    instance used on concrete streams.  It follows the grammar the library
    accepts: the four whitespace characters between tokens, the literals,
    numbers, strings with escapes (a surrogate pair of [\u] escapes is one
    character) and no raw control character, arrays and objects. *)

Definition is_ws (c : N) : bool :=
  (c =? 32) || (c =? 9) || (c =? 10) || (c =? 13).

Definition skip_ws (s : str) : str := lstrip is_ws s.

Definition is_digit (c : N) : bool := (48 <=? c) && (c <=? 57).

Definition hex_val (c : N) : option N :=
  if is_digit c then Some (c - 48)
  else if (97 <=? c) && (c <=? 102) then Some (c - 87)
  else if (65 <=? c) && (c <=? 70) then Some (c - 55)
  else None.

Definition hex4 (s : str) : option (N * str) :=
  match s with
  | a :: b :: c :: d :: r =>
      va ← hex_val a; vb ← hex_val b; vc ← hex_val c; vd ← hex_val d;
      Some (va * 4096 + vb * 256 + vc * 16 + vd, r)
  | _ => None
  end.

(** After [\u]: one escape, or two when they form a surrogate pair. *)
Definition unicode_escape (s : str) : option (N * str) :=
  '(u, r) ← hex4 s;
  if (55296 <=? u) && (u <=? 56319) && startswith (lit "\u") r then
    '(u2, r2) ← hex4 (drop 2 r);
    if (56320 <=? u2) && (u2 <=? 57343)
    then Some (65536 + (u - 55296) * 1024 + (u2 - 56320), r2)
    else Some (u, r)
  else Some (u, r).

Definition simple_escape (e : N) : option N :=
  if e =? 34 then Some 34 else if e =? 92 then Some 92
  else if e =? 47 then Some 47 else if e =? 98 then Some 8
  else if e =? 102 then Some 12 else if e =? 110 then Some 10
  else if e =? 114 then Some 13 else if e =? 116 then Some 9
  else None.

(** The characters after an opening quote, up to the closing one. *)
Fixpoint scan_string (fuel : nat) (s acc : str) : option (str * str) :=
  match fuel with
  | O => None
  | S fuel' =>
      match s with
      | [] => None
      | c :: r =>
          if c =? 34 then Some (reverse acc, r)
          else if c =? 92 then
            match r with
            | [] => None
            | e :: r' =>
                if e =? 117 then
                  '(u, r'') ← unicode_escape r';
                  scan_string fuel' r'' (u :: acc)
                else
                  ch ← simple_escape e;
                  scan_string fuel' r' (ch :: acc)
            end
          else if c <? 32 then None
          else scan_string fuel' r (c :: acc)
      end
  end.

Fixpoint span_digits (s : str) : str * str :=
  match s with
  | c :: r =>
      if is_digit c then let '(d, r') := span_digits r in (c :: d, r')
      else ([], s)
  | [] => ([], [])
  end.

(** A number: an optional minus, then zero or a non-zero digit and more
    digits, then an optional fraction (a dot and digits) and an optional
    exponent (e or E, an optional sign, digits). *)
Definition scan_number (s : str) : option (str * str) :=
  let '(sign, s1) :=
    match s with
    | c :: r => if c =? 45 then ([c], r) else ([], s)
    | [] => ([], s)
    end in
  '(int, s2) ←
    match s1 with
    | c :: r =>
        if c =? 48 then Some ([c], r)
        else if is_digit c then Some (span_digits s1)
        else None
    | [] => None
    end;
  let '(frac, s3) :=
    match s2 with
    | c :: r =>
        if c =? 46 then
          match span_digits r with
          | ([], _) => ([], s2)
          | (d, r') => (c :: d, r')
          end
        else ([], s2)
    | [] => ([], s2)
    end in
  let '(ex, s4) :=
    match s3 with
    | c :: r =>
        if (c =? 101) || (c =? 69) then
          let '(sg, r1) :=
            match r with
            | g :: r' => if (g =? 43) || (g =? 45) then ([g], r') else ([], r)
            | [] => ([], r)
            end in
          match span_digits r1 with
          | ([], _) => ([], s3)
          | (d, r') => (c :: sg ++ d, r')
          end
        else ([], s3)
    | [] => ([], s3)
    end in
  Some (sign ++ int ++ frac ++ ex, s4).

Definition literals : list (string * json) :=
  [("null", JNull); ("true", JBool true); ("false", JBool false);
   ("NaN", JNumber (lit "NaN")); ("Infinity", JNumber (lit "Infinity"));
   ("-Infinity", JNumber (lit "-Infinity"))]%string.

Fixpoint scan_literal (ls : list (string * json)) (s : str)
  : option (json * str) :=
  match ls with
  | [] => None
  | (w, v) :: ls' =>
      if startswith (lit w) s then Some (v, drop (String.length w) s)
      else scan_literal ls' s
  end.

Section Containers.
Variable value : str -> option (json * str).

(** After a value inside [[ ... ]]: a comma and the next value, or the
    closing bracket. *)
Fixpoint scan_items (fuel : nat) (s : str) (acc : list json)
  : option (list json * str) :=
  match fuel with
  | O => None
  | S fuel' =>
      '(v, r) ← value s;
      match skip_ws r with
      | c :: r' =>
          if c =? 44 then scan_items fuel' (skip_ws r') (v :: acc)
          else if c =? 93 then Some (reverse (v :: acc), r')
          else None
      | [] => None
      end
  end.

(** Inside an object, at a member: a quoted key, a colon, a value, then a
    comma and the next member, or the closing brace. *)
Fixpoint scan_members (fuel : nat) (s : str) (acc : list (str * json))
  : option (list (str * json) * str) :=
  match fuel with
  | O => None
  | S fuel' =>
      match s with
      | q :: r0 =>
          if q =? 34 then
            '(k, r1) ← scan_string (length r0) r0 [];
            match skip_ws r1 with
            | c :: r2 =>
                if c =? 58 then
                  '(v, r3) ← value (skip_ws r2);
                  match skip_ws r3 with
                  | d :: r4 =>
                      if d =? 44
                      then scan_members fuel' (skip_ws r4) ((k, v) :: acc)
                      else if d =? 125
                      then Some (reverse ((k, v) :: acc), r4)
                      else None
                  | [] => None
                  end
                else None
            | [] => None
            end
          else None
      | [] => None
      end
  end.
End Containers.

Fixpoint scan_value (fuel : nat) (s : str) : option (json * str) :=
  match fuel with
  | O => None
  | S fuel' =>
      match s with
      | [] => None
      | c :: r =>
          if c =? 34 then
            '(t, r') ← scan_string (length r) r []; Some (JString t, r')
          else if c =? 123 then
            match skip_ws r with
            | d :: r' =>
                if d =? 125 then Some (JObject [], r')
                else '(ms, r'') ← scan_members (scan_value fuel') fuel'
                                     (skip_ws r) [];
                     Some (JObject ms, r'')
            | [] => None
            end
          else if c =? 91 then
            match skip_ws r with
            | d :: r' =>
                if d =? 93 then Some (JArray [], r')
                else '(vs, r'') ← scan_items (scan_value fuel') fuel'
                                     (skip_ws r) [];
                     Some (JArray vs, r'')
            | [] => None
            end
          else
            match scan_literal literals s with
            | Some res => Some res
            | None => '(n, r') ← scan_number s; Some (JNumber n, r')
            end
      end
  end.

(** [json.loads(s)]; [None] is [JSONDecodeError].  The limits of the
    library beyond the grammar (the digits of an integer, the depth of
    nesting) are not modelled. *)
Definition loads (s : str) : option json :=
  '(v, r) ← scan_value (S (length s)) (skip_ws s);
  match skip_ws r with
  | [] => Some v
  | _ => None
  end.

End Json.

(** ** The streaming response decoder ([__stream_response]) *)

Module Decoder.
Import Text Json.

(** What [response.iter_content] yields: the chunks, and whether the
    iterator raises after the last of them (a transport error in the middle
    of the body). *)
Record response : Type := Response {
  chunks : list bytes;
  broken : bool
}.

Definition DATA_PREFIX : str := Eval cbv in lit "data: ".
Definition CONTENT : str := Eval cbv in lit "content".

(** A loop whose body may raise. *)
Fixpoint foldM {A B} (f : A -> B -> option A) (a : A) (l : list B)
  : option A :=
  match l with
  | [] => Some a
  | x :: l' => a' ← f a x; foldM f a' l'
  end.

(** The echo of the decoded text on the console: the setting
    [self.stream_output], and whether the three calls of the echo return or
    raise: [print(char, end, flush)] for a character (it raises on a
    character the encoding of the console does not have),
    [time.sleep(self.stream_delay)] (it raises on a negative delay) and the
    closing [print()].  The text that reaches the console is not
    recorded. *)
Record console : Type := Console {
  stream_output : bool;
  prints : N -> bool;
  sleeps : bool;
  ends_line : bool
}.

Section Decoder.
(** [json.loads]: [None] is [JSONDecodeError]. *)
Variable json_loads : str -> option json.
Variable con : console.

(** One round of the echo loop (source lines 351-352). *)
Definition echo_char (_ : unit) (char : N) : option unit :=
  if prints con char then (if sleeps con then Some () else None) else None.

(** The echo of one content (source lines 349-352, again 366-369). *)
Definition echo (new_content : str) : option unit :=
  if stream_output con then foldM echo_char () new_content else Some ().

(** The closing line break (source lines 373-374). *)
Definition end_echo : option unit :=
  if stream_output con
  then (if ends_line con then Some () else None)
  else Some ().

(** The body run on one line (source lines 343-355, and again on the last
    buffer, lines 360-371).  A [JSONDecodeError] is logged and the line
    skipped; any other exception, those of the echo included, leaves the
    function. *)
Definition handle_line (stream_text line : str) : option str :=
  if truthy (strip_ws line) && startswith DATA_PREFIX line then
    match json_loads (drop 6 line) with
    | None => Some stream_text
    | Some data =>
        has ← py_in CONTENT data;
        if has : bool then
          new_content ← py_getitem CONTENT data;
          match new_content with
          | JString s =>
              let stream_text := stream_text ++ s in
              echo s;; Some stream_text
          | _ => None
          end
        else Some stream_text
    end
  else Some stream_text.

(** One iteration of the loop over the chunks, on the pair of [buffer] and
    [stream_text]. *)
Definition feed (st : str * str) (chunk : bytes) : option (str * str) :=
  let '(buffer, stream_text) := st in
  match chunk with
  | [] => Some st
  | _ =>
      text ← utf8_decode chunk;
      let buffer := buffer ++ text in
      let lines := split NL buffer in
      stream_text ← foldM handle_line stream_text (py_init lines);
      buffer ← py_last lines;
      Some (buffer, stream_text)
  end.

(** What an iteration does with the buffer once the chunk is added: the
    complete lines are handled, the fragment after the last line break is
    kept. *)
Definition pending (buffer stream_text : str) : option (str * str) :=
  let lines := split NL buffer in
  foldM handle_line stream_text (py_init lines) ≫= fun stream_text =>
  py_last lines ≫= fun buffer => Some (buffer, stream_text).

(** [stream_text] as it stands before the final [strip]. *)
Definition accumulate (resp : response) (stream_text : str) : option str :=
  '(buffer, stream_text) ← foldM feed ([], stream_text) (chunks resp);
  if broken resp then None else handle_line stream_text buffer.

(** The value returned; [None] is the [None] of the [except] branch. *)
Definition stream_response (resp : response) (stream_text : str)
  : option str :=
  stream_text ← accumulate resp stream_text;
  end_echo;;
  Some (strip_quotes stream_text).

(** The echo of [s] raises nothing. *)
Definition echoes (s : str) : Prop := echo s = Some ().

(** A line as the server writes it: the prefix and a JSON object without a
    line break whose [content] is the string [s]. *)
Definition content_line (line s : str) : Prop :=
  exists payload members,
    line = DATA_PREFIX ++ payload /\ (NL ∉ payload) /\
    json_loads payload = Some (JObject members) /\
    dict_get CONTENT members = Some (JString s).

(** A line with the prefix whose remainder the parser rejects. *)
Definition malformed_line (line : str) : Prop :=
  exists payload,
    line = DATA_PREFIX ++ payload /\ (NL ∉ payload) /\
    json_loads payload = None.

(** What a line of the stream adds to the result: its content, or nothing
    when the parser rejects it. *)
Inductive yields : str -> option str -> Prop :=
| yields_content line s : content_line line s -> yields line (Some s)
| yields_nothing line : malformed_line line -> yields line None.
End Decoder.

(** The text of a stream of lines, each followed by a line break except
    possibly the last. *)
Definition stream_of (lines : list str) (last_terminated : bool) : str :=
  join [NL] lines ++ (if last_terminated then [NL] else []).

(** The final stripping as the specification words it, to compare with
    [strip_quotes]: one quote at most is taken from each end. *)
Definition strip_one_quote (s : str) : str :=
  let s1 := match s with
            | c :: r => if c =? QUOTE then r else s
            | [] => []
            end in
  match last s1 with
  | Some c => if c =? QUOTE then py_init s1 else s1
  | None => s1
  end.

(** The chunks are pieces of text: each decodes on its own. *)
Definition decodes_to (chunks : list bytes) (texts : list str) : Prop :=
  Forall2 (fun c t => utf8_decode c = Some t) chunks texts.

End Decoder.

(** ** Messages, the client and its surroundings *)

Module Model.
Import Text Json Decoder.

(** One element of a user message's content list:
    [{type: text, text: prompt}] or
    [{type: image_url, file_url: {url: image_url}}]. *)
Inductive part : Type :=
| TextPart (text : str)
| ImagePart (url : str).

(** The [content] of a message: a string, a list of parts, or [None] (the
    decoder's result after an exception). *)
Inductive content : Type :=
| Plain (text : str)
| Parts (parts : list part)
| Null.

Record message : Type := Message {
  msg_id : str;
  msg_role : str;
  msg_content : content;
  msg_model : str
}.

#[global] Instance part_eq_dec : EqDecision part.
Proof. solve_decision. Defined.
#[global] Instance content_eq_dec : EqDecision content.
Proof. solve_decision. Defined.
#[global] Instance message_eq_dec : EqDecision message.
Proof. solve_decision. Defined.

Definition SYSTEM : str := Eval cbv in lit "system".
Definition USER : str := Eval cbv in lit "user".
Definition ASSISTANT : str := Eval cbv in lit "assistant".
Definition CUSTOM : str := Eval cbv in lit "custom".
Definition JSON_FORMAT : str := Eval cbv in lit "json".
Definition TXT_FORMAT : str := Eval cbv in lit "txt".
Definition MD_FORMAT : str := Eval cbv in lit "md".

(** List objects: a reference is a location of the store. *)
Abbreviation loc := nat (only parsing).
Abbreviation store := (gmap nat (list message)) (only parsing).

(** The files of this development: one that [json.load] reads as a list of
    messages, one on which it raises [JSONDecodeError], and the text or
    markdown rendering of a history written by [__convert_chat] (on which
    it raises [JSONDecodeError] too).  A file that [json.load] reads as
    another value, or on which the read raises another exception (bytes
    that do not decode), is not among them: what is proved of a save is
    proved for these three kinds of file. *)
Inductive file : Type :=
| JsonFile (history : list message)
| CorruptFile
| ExportFile (format : str) (history : list message).

Abbreviation disk := (gmap (list N) file) (only parsing).

(** [json.load] on a file. *)
Definition json_load (f : file) : option (list message) :=
  match f with
  | JsonFile h => Some h
  | _ => None
  end.

(** The fields of [self] the modelled methods read. *)
Record client : Type := Client {
  agents : gmap (list N) (list N);   (* self.__preset[agent] *)
  model : str;                       (* self.__model *)
  save_to : option str;
  save_as : option str
}.

(** The body of the request sent ([json.dumps] of it). *)
Record request : Type := Request {
  req_id : str;
  req_messages : list message;
  req_model : str
}.

(** What lies outside the program during one call: the identifier
    [__get_task_id] generates, the upload endpoint (with [None] when
    [__upload_image] raises), the chat endpoint (with [None] when
    [requests.post] or [raise_for_status] raises) and whether files can be
    written. *)
Record world : Type := World {
  get_task_id : str;
  upload_image : str -> option str;
  post : request -> option response;
  writable : bool
}.

(** The argument [image_path]: [None], a string or a list. *)
Inductive image_arg : Type :=
| NoImage
| OnePath (path : str)
| PathList (paths : list str).

(** The paths the upload loop visits ([if image_path:] skips an empty
    string and an empty list). *)
Definition image_paths (image_path : image_arg) : list str :=
  match image_path with
  | NoImage => []
  | OnePath p => if truthy p then [p] else []
  | PathList ps => ps
  end.

(** Truth value of an optional string ([None] and the empty string are
    false). *)
Definition truthy_opt (o : option str) : bool :=
  match o with
  | Some s => truthy s
  | None => false
  end.

(** *** Paths ([posixpath]) *)

Definition SLASH : N := 47.
Definition DOT : N := 46.

Definition endswith_char (c : N) (s : str) : bool :=
  match last s with
  | Some d => d =? c
  | None => false
  end.

(** [os.path.join(a, b)] *)
Definition path_join (a b : str) : str :=
  if startswith [SLASH] b then b
  else if negb (truthy a) || endswith_char SLASH a then a ++ b
  else a ++ [SLASH] ++ b.

(** [s.rfind(c)], with [-1] when [c] does not occur. *)
Fixpoint rfind_from (c : N) (s : str) (i : Z) (found : Z) : Z :=
  match s with
  | [] => found
  | d :: s' => rfind_from c s' (i + 1)%Z (if d =? c then i else found)
  end.

Definition rfind (c : N) (s : str) : Z := rfind_from c s 0%Z (-1)%Z.

(** [os.path.splitext(p)[0]]: the extension starts at the last dot of the
    last component, unless only dots precede it there. *)
Definition splitext_root (p : str) : str :=
  let sepIndex := rfind SLASH p in
  let dotIndex := rfind DOT p in
  if (sepIndex <? dotIndex)%Z then
    let name_start := Z.to_nat (sepIndex + 1) in
    let stem := take (Z.to_nat dotIndex - name_start)%nat (drop name_start p) in
    if forallb (N.eqb DOT) stem then p else take (Z.to_nat dotIndex) p
  else p.

End Model.

(** ** [get_completions] and [__save_history] *)

Module Session.
Import Text Json Decoder Model.

(** The state a call runs in: the local variable [history] ([None] or a
    reference to a list object), the list objects and the files. *)
Record state : Type := State {
  history_var : option nat;
  heap : gmap nat (list message);
  files : gmap (list N) file
}.

(** A computation that may raise; the state reached when it raises is kept,
    as the [except] branch of [get_completions] sees it. *)
Definition M (A : Type) : Type := state -> option A * state.

Definition ret {A} (a : A) : M A := fun s => (Some a, s).

Definition bind {A B} (m : M A) (k : A -> M B) : M B :=
  fun s =>
    match m s with
    | (Some a, s') => k a s'
    | (None, s') => (None, s')
    end.

(** A pure step that may raise. *)
Definition lift {A} (o : option A) : M A := fun s => (o, s).

#[global] Instance M_ret : MRet M := @ret.
#[global] Instance M_bind : MBind M := fun A B k m => bind m k.

(** The value of [history]: [None], or the list it refers to. *)
Definition read_history : M (option (list message)) :=
  fun s =>
    match history_var s with
    | None => (Some None, s)
    | Some l => (Some <$> heap s !! l, s)
    end.

(** The list [history] refers to, once it is known to be one. *)
Definition the_history : M (list message) :=
  fun s => (history_var s ≫= (heap s !!.), s).

(** [history = new_history] for a list just built: a new object. *)
Definition rebind (new_history : list message) : M unit :=
  fun s =>
    let l := fresh (dom (heap s)) in
    (Some (), State (Some l) (<[l := new_history]> (heap s)) (files s)).

(** [history.append(m)]: the object is changed in place. *)
Definition append (m : message) : M unit :=
  fun s =>
    match history_var s with
    | Some l =>
        match heap s !! l with
        | Some v =>
            (Some (), State (Some l) (<[l := v ++ [m]]> (heap s)) (files s))
        | None => (None, s)
        end
    | None => (None, s)
    end.

Definition read_files : M (gmap (list N) file) :=
  fun s => (Some (files s), s).

Definition truthy_history (h : option (list message)) : bool :=
  match h with
  | Some (_ :: _) => true
  | _ => false
  end.

(** A message the agent switch carries over:
    [msg[role] in (user, assistant)]. *)
Definition carried (m : message) : Prop :=
  msg_role m = USER \/ msg_role m = ASSISTANT.

#[global] Instance carried_dec m : Decision (carried m).
Proof. unfold carried. apply _. Defined.

Section Client.
(** [json.loads] and [str.format] (with its one argument
    [system_prompt]); [None] is an exception. *)
Variable json_loads : str -> option json.
Variable con : console.
Variable str_format : str -> str -> option str.
Variable self : client.
Variable w : world.

(** [open(path, w)] and the write: [writable w] says that every file the
    call opens for writing can be written. *)
Definition write_file (path : str) (f : file) : M unit :=
  fun s =>
    if writable w
    then (Some (), State (history_var s) (heap s) (<[path := f]> (files s)))
    else (None, s).

(** [__get_agent] *)
Definition get_agent (agent : str) (instruction : option str)
  : option str :=
  agent_template ← agents self !! agent;
  if str_eqb agent CUSTOM && truthy_opt instruction
  then str_format agent_template (default [] instruction)
  else Some agent_template.

(** [__convert_chat]: the rendering itself is kept symbolic
    ([ExportFile]); the file it goes to is computed as in the source. *)
Definition convert_chat (history : list message) (file_path format : str)
  : M unit :=
  let base_path := splitext_root file_path in
  lift (head history);;
  if str_eqb format TXT_FORMAT then
    write_file (base_path ++ lit ".txt") (ExportFile format history)
  else if str_eqb format MD_FORMAT then
    write_file (base_path ++ lit ".md") (ExportFile format history)
  else ret ().

(** The path of the JSON file of a conversation (source lines 258-264). *)
Definition history_path (root task_id : str) : str :=
  let date_part := List.hd [] (split 95 task_id) in
  let formatted_date :=
    take 4 date_part ++ lit "-" ++ take 2 (drop 4 date_part) ++ lit "-"
    ++ take 2 (drop 6 date_part) in
  let chat_dir := path_join root formatted_date in
  path_join chat_dir (task_id ++ lit ".json").

(** What is written, given what the file holds (source lines 267-283). *)
Definition merge_history (existing : option file) (history : list message)
  : list message :=
  match existing with
  | Some f =>
      match json_load f with
      | Some existing_history =>
          let existing_len := length existing_history in
          let new_messages := drop existing_len history in
          match new_messages with
          | [] => history
          | _ => existing_history ++ new_messages
          end
      | None => history
      end
  | None => history
  end.

(** [__save_history] *)
Definition save_history (history : list message) : M unit :=
  match save_to self with
  | None => ret ()
  | Some root =>
      first ← lift (head history);
      let task_id := msg_id first in
      let file_path := history_path root task_id in
      disk ← read_files;
      let history := merge_history (disk !! file_path) history in
      write_file file_path (JsonFile history);;
      match save_as self with
      | Some format =>
          if str_eqb format JSON_FORMAT then ret ()
          else convert_chat history file_path format
      | None => convert_chat history file_path []
      end
  end.

(** The system prompt computed for the requested agent and instruction
    (source lines 430-433 and 439, again 449). *)
Definition requested_prompt (agent : str) (instruction : option str)
  : option str :=
  let agent := if truthy_opt instruction then CUSTOM else agent in
  let instruction := if str_eqb agent CUSTOM then instruction else None in
  get_agent agent instruction.

(** The system message of a new list, and the state after [history] is
    bound to a new list [h]. *)
Definition system_first (task_id prompt : str) : message :=
  Message task_id SYSTEM (Plain prompt) (model self).

Definition fresh_state (s : state) (h : list message) : state :=
  State (Some (fresh (dom (heap s))))
        (<[fresh (dom (heap s)) := h]> (heap s)) (files s).

(** [get_completions], source lines 429-465: which list the turn works
    on. *)
Definition prepare_history (agent : str) (instruction : option str)
  : M unit :=
  let agent := if truthy_opt instruction then CUSTOM else agent in
  let instruction := if str_eqb agent CUSTOM then instruction else None in
  history ← read_history;
  agent_changed ←
    match history with
    | Some (first :: _) =>
        new_system ← lift (get_agent agent instruction);
        ret (negb (bool_decide (msg_content first = Plain new_system)))
    | _ => ret false
    end;
  if agent_changed || negb (truthy_history history) then
    system_prompt ← lift (get_agent agent instruction);
    let new_history :=
      Message (match history with
               | Some (first :: _) => msg_id first
               | _ => get_task_id w
               end) SYSTEM (Plain system_prompt) (model self)
      :: match history with
         | Some (_ :: rest) => filter carried rest
         | _ => []
         end in
    rebind new_history
  else ret ().

(** The content list of the user message (source lines 467-488): the text
    part if the prompt is not empty, then one image part per upload. *)
Definition message_content (prompt : str) (image_urls : list str)
  : list part :=
  (if truthy prompt then [TextPart prompt] else [])
  ++ (ImagePart <$> image_urls).

(** The two messages a turn appends (source lines 491-496 and 516-521). *)
Definition user_turn (task_id prompt : str) (image_urls : list str)
  : message :=
  Message task_id USER (Parts (message_content prompt image_urls))
          (model self).

Definition assistant_turn (task_id : str) (response_text : option str)
  : message :=
  Message task_id ASSISTANT
          (match response_text with
           | Some t => Plain t
           | None => Null
           end) (model self).

(** The [try] block of [get_completions]. *)
Definition get_completions_try (prompt : str) (image_path : image_arg)
    (agent : str) (instruction : option str) : M (option str) :=
  prepare_history agent instruction;;
  history ← the_history;
  first ← lift (head history);
  let task_id := msg_id first in
  image_urls ← lift (mapM (upload_image w) (image_paths image_path));
  append (user_turn task_id prompt image_urls);;
  history ← the_history;
  response ← lift (post w (Request task_id history (model self)));
  let response_text := stream_response json_loads con response [] in
  append (assistant_turn task_id response_text);;
  history ← the_history;
  save_history history;;
  ret response_text.

(** [get_completions]: the pair returned is the first component and the
    [history_var] of the state; the [except] branch returns [None] with
    [history] as it then is. *)
Definition get_completions (prompt : str) (image_path : image_arg)
    (agent : str) (instruction : option str) (s : state)
  : option str * state :=
  match get_completions_try prompt image_path agent instruction s with
  | (Some response_text, s') => (response_text, s')
  | (None, s') => (None, s')
  end.

(** The list returned with the response, as a value. *)
Definition returned_history (out : option str * state)
  : option (list message) :=
  history_var (snd out) ≫= (heap (snd out) !!.).

(** The messages a turn on the prepared list [history] appends to it
    (source lines 467-521): none when an upload raises, the user message
    when the request raises, else the user message and the assistant
    message with the decoder's result. *)
Definition turn_messages (history : list message) (prompt : str)
    (image_path : image_arg) : list message :=
  match history with
  | [] => []
  | first :: _ =>
      let task_id := msg_id first in
      match mapM (upload_image w) (image_paths image_path) with
      | None => []
      | Some image_urls =>
          let user := user_turn task_id prompt image_urls in
          match post w (Request task_id (history ++ [user]) (model self)) with
          | None => [user]
          | Some response =>
              [user;
               assistant_turn task_id
                 (stream_response json_loads con response [])]
          end
      end
  end.
End Client.

(** The History invariant: a system message first, and one identifier
    throughout. *)
Definition well_formed (h : list message) : Prop :=
  match h with
  | [] => False
  | first :: rest =>
      msg_role first = SYSTEM /\
      Forall (fun m => msg_id m = msg_id first) rest
  end.

End Session.

(** ** Concrete data: a parser instance, streams, a client and servers *)

Module Sample.
Import Text Json Decoder Model Session.

Definition quoted (s : str) : str := QUOTE :: s ++ [QUOTE].

(** The JSON object with the one member [content], whose value is written
    [escaped] between quotes. *)
Definition content_payload (escaped : str) : str :=
  lit "{" ++ quoted CONTENT ++ lit ": " ++ quoted escaped ++ lit "}".

Definition data_line (payload : str) : str := DATA_PREFIX ++ payload.

Definition byte_of (n : N) : byte := default x00 (Byte.of_N n).

(** UTF-8 of a text. *)
Definition utf8_encode_char (c : N) : bytes :=
  if c <? 128 then [byte_of c]
  else if c <? 2048 then [byte_of (192 + c / 64); byte_of (128 + c mod 64)]
  else if c <? 65536 then
    [byte_of (224 + c / 4096); byte_of (128 + (c / 64) mod 64);
     byte_of (128 + c mod 64)]
  else
    [byte_of (240 + c / 262144); byte_of (128 + (c / 4096) mod 64);
     byte_of (128 + (c / 64) mod 64); byte_of (128 + c mod 64)].

Definition utf8_encode (s : str) : bytes := s ≫= utf8_encode_char.

(** A format that puts the instruction after the template. *)
Definition format_append (template instruction : str) : option str :=
  Some (template ++ instruction).

Definition DEFAULT : str := Eval cbv in lit "default".
Definition HELPFUL : str := Eval cbv in lit "You are a helpful assistant.".
Definition TASK : str := Eval cbv in lit "20250101_120000_ab12cd34".
Definition OMNI : str := Eval cbv in lit "omni-1".

Definition a_client : client :=
  Client (<[DEFAULT := HELPFUL]> (<[CUSTOM := lit "Custom: "]> ∅)) OMNI
         (Some (lit "out/mindful")) (Some JSON_FORMAT).

(** A server that answers every request with the one line carrying [reply]
    (written as JSON string contents), in one chunk. *)
Definition reply_with (reply : str) (_ : request) : option response :=
  Some (Response
          [utf8_encode (data_line (content_payload reply) ++ [NL])] false).

Definition no_upload (_ : str) : option str := None.
Definition upload_ok (p : str) : option str := Some (lit "https://img/" ++ p).

Definition system_message (task_id text : str) : message :=
  Message task_id SYSTEM (Plain text) OMNI.
Definition user_message (task_id text : str) : message :=
  Message task_id USER (Parts [TextPart text]) OMNI.
Definition assistant_message (task_id text : str) : message :=
  Message task_id ASSISTANT (Plain text) OMNI.

Definition empty_state : state := State None ∅ ∅.

(** Two consoles: one in UTF-8 with the echo on and a delay that is not
    negative (it prints every character but a surrogate), and one with the
    echo off. *)
Definition terminal : console :=
  Console true (fun c => negb (is_surrogate c)) true true.
Definition silent : console := Console false (fun _ => false) false false.

(** A conversation of one system message, held by the list at location 0,
    with the prompt of the default agent. *)
Definition opening : list message := [system_message TASK HELPFUL].
Definition opened_state : state := State (Some 0%nat) {[0%nat := opening]} ∅.

(** Five surroundings: all goes well and the server answers [hi]; the chat
    request fails; every upload fails; no file can be written; the body of
    the answer breaks off after its first chunk. *)
Definition world_ok : world :=
  World TASK upload_ok (reply_with (lit "hi")) true.
Definition world_no_post : world :=
  World TASK upload_ok (fun _ => None) true.
Definition world_no_upload : world :=
  World TASK no_upload (reply_with (lit "hi")) true.
Definition world_no_disk : world :=
  World TASK upload_ok (reply_with (lit "hi")) false.
Definition world_broken_body : world :=
  World TASK upload_ok
        (fun _ => Some (Response
                          [utf8_encode (data_line (content_payload (lit "hi"))
                                        ++ [NL])] true))
        true.

(** A saved conversation of three messages, and a shorter history in memory
    that differs from it. *)
Definition saved_history : list message :=
  [system_message TASK HELPFUL; user_message TASK (lit "a");
   assistant_message TASK (lit "b")].
Definition other_history : list message :=
  [system_message TASK HELPFUL; user_message TASK (lit "other")].
Definition longer_history : list message :=
  saved_history ++ [user_message TASK (lit "c");
                    assistant_message TASK (lit "d")].
Definition saved_path : str := history_path (lit "out/mindful") TASK.
Definition saved_state : state :=
  State None ∅ {[saved_path := JsonFile saved_history]}.

(** Two lines carrying [Hel] and [lo], and their bytes cut inside the first
    line and inside the second. *)
Definition hello_lines : list str :=
  [data_line (content_payload (lit "Hel"));
   data_line (content_payload (lit "lo"))].

Definition hello_chunks : list bytes :=
  let b := utf8_encode (stream_of hello_lines true) in
  [take 10 b; take 25 (drop 10 b); drop 35 b].

(** A line whose content is [hi] between two double quotes (escaped in the
    JSON text), and one whose content is [hi] between two pairs of them. *)
Definition quoted_hi_line : str :=
  data_line (content_payload ([92; 34] ++ lit "hi" ++ [92; 34])).

Definition twice_quoted_hi_line : str :=
  data_line (content_payload ([92; 34; 92; 34] ++ lit "hi"
                              ++ [92; 34; 92; 34])).

(** A line whose content is the one character U+00E9, and its bytes cut
    between the two bytes of that character. *)
Definition accent_line : str := data_line (content_payload [233]).

Definition accent_chunks : list bytes :=
  let b := utf8_encode (stream_of [accent_line] true) in
  [take 20 b; drop 20 b].

(** A line the parser rejects. *)
Definition broken_line : str := data_line (lit "{oops").

Definition mixed_chunks : list bytes :=
  let b := utf8_encode (stream_of [data_line (content_payload (lit "Hel"));
                                   broken_line;
                                   data_line (content_payload (lit "lo"))]
                                  true) in
  [take 30 b; drop 30 b].

(** A line whose content is [a], a lone surrogate (written as an escape)
    and [b]. *)
Definition surrogate_line : str :=
  data_line (content_payload (lit "a\ud800b")).

(** A rejected line followed by the line carrying U+00E9, cut between the
    two bytes of that character; a rejected line followed by the line
    carrying the surrogate; a rejected line, a line holding [null] and a
    content line. *)
Definition broken_accent_chunks : list bytes :=
  let b := utf8_encode (stream_of [broken_line; accent_line] true) in
  [take 32 b; drop 32 b].

Definition broken_surrogate_chunks : list bytes :=
  [utf8_encode (stream_of [broken_line; surrogate_line] true)].

Definition broken_null_lines : list str :=
  [broken_line; data_line (lit "null");
   data_line (content_payload (lit "lo"))].

End Sample.

(** ** More kinds of lines in a stream *)

Module Lines.
Import Text Json Decoder.

Section Lines.
Variable json_loads : str -> option json.

(** A line the loop passes over without a trace: one that does not start
    with the prefix (a blank line, a comment, another field), or one whose
    JSON is a container in which [content] is not found. *)
Definition ignored_line (line : str) : Prop :=
  startswith DATA_PREFIX line = false \/
  exists payload data,
    line = DATA_PREFIX ++ payload /\
    json_loads payload = Some data /\ py_in CONTENT data = Some false.

(** What a line of any of the kinds above adds to the result. *)
Inductive adds : str -> option str -> Prop :=
| adds_content line s : content_line json_loads line s -> adds line (Some s)
| adds_malformed line : malformed_line json_loads line -> adds line None
| adds_ignored line : NL ∉ line -> ignored_line line -> adds line None.

(** Parsed data on which the body of the loop raises a [TypeError]: a value
    that is no container, or one in which [content] is found but is not a
    key with a string behind it. *)
Definition ill_typed (data : json) : Prop :=
  py_in CONTENT data = None \/
  (py_in CONTENT data = Some true /\
   forall s, py_getitem CONTENT data <> Some (JString s)).
End Lines.

End Lines.

(** ** More concrete streams *)

Module StreamSamples.
Import Text Json Decoder Sample.




(** A content line, then a data line holding [null], then another content
    line. *)
Definition null_lines : list str :=
  [data_line (content_payload (lit "Hel")); data_line (lit "null");
   data_line (content_payload (lit "lo"))].

Definition null_chunks : list bytes :=
  [utf8_encode (stream_of null_lines true)].

End StreamSamples.

(** ** Setting up: identifiers and agents *)

Module Setup.
Import Text Json Decoder Model Session.

(** [__get_task_id], from what the clock ([strftime] with the format
    [%Y%m%d_%H%M%S]) and [str(uuid.uuid4())] give. *)
Definition generate_task_id (timestamp uuid : str) : str :=
  timestamp ++ lit "_" ++ take 8 uuid.

(** A directory prefix: empty, or ending in a slash. *)
Definition dir_prefix (x : str) : Prop := x = [] \/ last x = Some SLASH.

Section Setup.
Variable str_format : str -> str -> option str.
Variable self : client.

(** [__switch_agent]: the prompt stored in [self.__agent]; [None] when
    [__get_agent] raises. *)
Definition switch_agent (agent : str) (instruction : option str)
  : option str :=
  let agent := if truthy_opt instruction then CUSTOM else agent in
  get_agent str_format self agent instruction.
End Setup.

End Setup.

(** ** More concrete turns *)

Module TurnSamples.
Import Text Json Decoder Model Session Sample.

(** The answer of [world_ok], as a response. *)
Definition hi_response : response :=
  Response [utf8_encode (data_line (content_payload (lit "hi")) ++ [NL])]
           false.


Definition BRIEF : str := Eval cbv in lit "Be brief".
Definition CUSTOM_BRIEF : str := Eval cbv in lit "Custom: Be brief".

(** A conversation in memory (at location 0) that holds a second system
    message between its user and its assistant message. *)
Definition noted_history : list message :=
  [system_message TASK HELPFUL; user_message TASK (lit "a");
   system_message TASK (lit "note"); assistant_message TASK (lit "b")].
Definition noted_state : state :=
  State (Some 0%nat) {[0%nat := noted_history]} ∅.

End TurnSamples.

(** ** [load_history] *)

Module Loader.
Import Text Json Decoder Model Session.

Definition ID_KEY : str := Eval cbv in lit "id".
Definition ROLE_KEY : str := Eval cbv in lit "role".
Definition MODEL_KEY : str := Eval cbv in lit "model".
Definition TYPE_KEY : str := Eval cbv in lit "type".
Definition TEXT_KEY : str := Eval cbv in lit "text".
Definition FILE_URL_KEY : str := Eval cbv in lit "file_url".
Definition URL_KEY : str := Eval cbv in lit "url".
Definition IMAGE_URL : str := Eval cbv in lit "image_url".

Definition REQUIRED_FIELDS : list str := [ID_KEY; ROLE_KEY; CONTENT; MODEL_KEY].

(** [all(field in data for field in fields)]: it stops at the first field
    that is not found; [None] is the [TypeError] of [in]. *)
Fixpoint all_in (fields : list str) (data : json) : option bool :=
  match fields with
  | [] => Some true
  | field :: fields' =>
      found ← py_in field data;
      if found : bool then all_in fields' data else Some false
  end.

(** [load_history], from what [open] and [json.load] give ([None] when
    either raises).  The message logged before the return reads
    [first_msg[id]], which raises on anything but a [dict]. *)
Definition load_history (loaded : option json) : option (list json) :=
  history ← loaded;
  match history with
  | JArray (first_msg :: rest) =>
      complete ← all_in REQUIRED_FIELDS first_msg;
      if complete : bool then
        py_getitem ID_KEY first_msg;; Some (first_msg :: rest)
      else None
  | _ => None
  end.

(** The messages as JSON values: the dicts built at source lines 451-456,
    470-473, 485-488, 491-496 and 516-521, with their keys. *)
Definition part_json (p : part) : json :=
  match p with
  | TextPart text =>
      JObject [(TYPE_KEY, JString TEXT_KEY); (TEXT_KEY, JString text)]
  | ImagePart url =>
      JObject [(TYPE_KEY, JString IMAGE_URL);
               (FILE_URL_KEY, JObject [(URL_KEY, JString url)])]
  end.

(** The image part as the specification words it, to compare with
    [part_json]: the url beside the type. *)
Definition claimed_image_part (url : str) : json :=
  JObject [(TYPE_KEY, JString IMAGE_URL); (URL_KEY, JString url)].

Definition content_json (c : content) : json :=
  match c with
  | Plain text => JString text
  | Parts parts => JArray (part_json <$> parts)
  | Null => JNull
  end.

Definition message_json (m : message) : json :=
  JObject [(ID_KEY, JString (msg_id m)); (ROLE_KEY, JString (msg_role m));
           (CONTENT, content_json (msg_content m));
           (MODEL_KEY, JString (msg_model m))].

End Loader.

(** ** Writing JSON ([json.dump] with [indent=2]) *)

Module Dump.
Import Text Json Decoder Model Loader.

(** *** The text of a string: [encode_basestring_ascii].

    The quote, the backslash and five control characters have a short
    escape; the other printable ASCII characters stand for themselves;
    every other character is written as one escape of four lowercase
    hexadecimal digits, or as two (a surrogate pair) beyond U+FFFF. *)

Definition hex_digit (d : N) : N := if d <? 10 then 48 + d else 87 + d.

(** A backslash, [u] and four hexadecimal digits. *)
Definition u_escape (c : N) : str :=
  [92; 117; hex_digit (c / 4096); hex_digit ((c / 256) mod 16);
   hex_digit ((c / 16) mod 16); hex_digit (c mod 16)].

(** What the encoder writes for one character. *)
Definition escape_char (c : N) : str :=
  if c =? 34 then [92; 34]
  else if c =? 92 then [92; 92]
  else if c =? 10 then [92; 110]
  else if c =? 13 then [92; 114]
  else if c =? 9 then [92; 116]
  else if c =? 12 then [92; 102]
  else if c =? 8 then [92; 98]
  else if (32 <=? c) && (c <=? 126) then [c]
  else if c <? 65536 then u_escape c
  else u_escape (55296 + (c - 65536) / 1024)
       ++ u_escape (56320 + (c - 65536) mod 1024).

Definition dump_string (s : str) : str :=
  QUOTE :: (s ≫= escape_char) ++ [QUOTE].

(** A line break and the indentation of a nesting level, two blanks per
    level. *)
Definition newline_indent (level : nat) : str :=
  NL :: replicate (2 * level) 32.

(** The text of a value at a nesting level: an empty list or object on one
    line, else one item or member per line, a comma after each but the
    last, a colon and a blank after a key.  A number is written by its
    lexeme. *)
Fixpoint dumps (level : nat) (j : json) : str :=
  match j with
  | JNull => lit "null"
  | JBool b => if b then lit "true" else lit "false"
  | JNumber lexeme => lexeme
  | JString s => dump_string s
  | JArray [] => lit "[]"
  | JArray items =>
      lit "[" ++ newline_indent (S level)
      ++ join (lit "," ++ newline_indent (S level))
           (dumps (S level) <$> items)
      ++ newline_indent level ++ lit "]"
  | JObject [] => lit "{}"
  | JObject members =>
      lit "{" ++ newline_indent (S level)
      ++ join (lit "," ++ newline_indent (S level))
           ((fun '(k, v) => dump_string k ++ lit ": " ++ dumps (S level) v)
              <$> members)
      ++ newline_indent level ++ lit "}"
  end.

(** A code point of a character proper: in range and no surrogate.  A
    value is [plain] when its strings and keys hold such characters only
    and it holds no number. *)
Definition scalar (c : N) : bool := (c <=? 1114111) && negb (is_surrogate c).

Fixpoint plain (j : json) : bool :=
  match j with
  | JNull | JBool _ => true
  | JNumber _ => false
  | JString s => forallb scalar s
  | JArray items => forallb plain items
  | JObject members =>
      forallb (fun '(k, v) => forallb scalar k && plain v) members
  end.

(** Induction on a value together with the values it holds. *)
Section json_induction.
Variable P : json -> Prop.
Hypothesis Hnull : P JNull.
Hypothesis Hbool : forall b, P (JBool b).
Hypothesis Hnumber : forall lexeme, P (JNumber lexeme).
Hypothesis Hstring : forall s, P (JString s).
Hypothesis Harray : forall items, Forall P items -> P (JArray items).
Hypothesis Hobject :
  forall members, Forall (fun kv => P kv.2) members -> P (JObject members).

Fixpoint json_nested_ind (j : json) : P j :=
  match j with
  | JNull => Hnull
  | JBool b => Hbool b
  | JNumber lexeme => Hnumber lexeme
  | JString s => Hstring s
  | JArray items =>
      Harray items
        ((fix go (l : list json) : Forall P l :=
            match l with
            | [] => List.Forall_nil _
            | x :: l' => @List.Forall_cons _ P x l' (json_nested_ind x) (go l')
            end) items)
  | JObject members =>
      Hobject members
        ((fix go (l : list (str * json)) : Forall (fun kv => P kv.2) l :=
            match l with
            | [] => List.Forall_nil _
            | kv :: l' =>
                @List.Forall_cons _ (fun kv => P kv.2) kv l'
                  (json_nested_ind kv.2) (go l')
            end) members)
  end.
End json_induction.

(** A text that starts with a character that is neither blank nor a closing
    bracket. *)
Definition starts (t : str) : Prop :=
  exists c t', t = c :: t' /\ is_ws c = false /\ c <> 93.

(** The parser reads the text of [j] back, from any text that starts with
    it. *)
Definition reads_back (j : json) : Prop :=
  forall level fuel rest,
    (length (dumps level j) <= fuel)%nat ->
    scan_value fuel (dumps level j ++ rest) = Some (j, rest).

(** The text of one member of an object. *)
Definition member_text (level : nat) (kv : str * json) : str :=
  let '(k, v) := kv in dump_string k ++ lit ": " ++ dumps (S level) v.

(** *** The file of a conversation as text *)

(** What [json.dump(history, f, indent=2)] writes (source line 287). *)
Definition history_text (history : list message) : str :=
  dumps 0 (JArray (message_json <$> history)).

(** The text of a file, for a file written by a save. *)
Definition file_text (f : file) : option str :=
  match f with
  | JsonFile history => Some (history_text history)
  | _ => None
  end.

(** Messages whose strings hold code points below 0x110000 only, and no
    surrogate. *)
Definition plain_part (p : part) : bool :=
  match p with
  | TextPart text => forallb scalar text
  | ImagePart url => forallb scalar url
  end.

Definition plain_content (c : content) : bool :=
  match c with
  | Plain text => forallb scalar text
  | Parts parts => forallb plain_part parts
  | Null => true
  end.

Definition plain_message (m : message) : bool :=
  forallb scalar (msg_id m) && forallb scalar (msg_role m)
  && plain_content (msg_content m) && forallb scalar (msg_model m).

End Dump.

(** ** The helpers of the interactive loop ([start_chat]) *)

Module Commands.
Import Text Json Decoder Model.

(** The text before the first double quote, and the text after it. *)
Fixpoint cut_at_quote (s : str) : option (str * str) :=
  match s with
  | [] => None
  | c :: r =>
      if c =? QUOTE then Some ([], r)
      else '(before, after) ← cut_at_quote r; Some (c :: before, after)
  end.

(** [parse_quoted_content]: the group of the leftmost match of a quote, any
    characters but quotes, and a quote; [None] when nothing matches. *)
Definition parse_quoted_content (text : str) : option str :=
  '(_, after) ← cut_at_quote text;
  '(body, _) ← cut_at_quote after;
  Some body.

Definition DEFAULT_QUESTION : str :=
  Eval cbv in lit "Please analyze this image".

(** [s[i:j]] for indices within the string, [i <= j]. *)
Definition slice (i j : Z) (s : str) : str :=
  take (Z.to_nat j - Z.to_nat i) (drop (Z.to_nat i) s).

Section ImageCommand.
(** [ast.literal_eval], as far as the command looks at its result: the list
    when the text evaluates to a list of strings, [None] when it raises or
    gives anything else.  [os.path.exists]. *)
Variable literal_eval : str -> option (list str).
Variable path_exists : str -> bool.

(** The question and the part holding the paths (source lines 587-599). *)
Definition split_question (content : str) : option str * str :=
  if contains [QUOTE] content then
    let last_quote_pair := rfind QUOTE content in
    let second_last_quote :=
      rfind QUOTE (take (Z.to_nat last_quote_pair) content) in
    if (second_last_quote =? -1)%Z then (None, content)
    else (Some (strip_ws (slice (second_last_quote + 1) last_quote_pair
                            content)),
          strip_ws (take (Z.to_nat second_last_quote) content))
  else (None, content).

(** [question or default] *)
Definition question_or_default (question : option str) : str :=
  match question with
  | Some q => if truthy q then q else DEFAULT_QUESTION
  | None => DEFAULT_QUESTION
  end.

(** [parse_image_command]; [None] is the pair [(None, None)]. *)
Definition parse_image_command (text : str) : option (image_arg * str) :=
  let content := strip_ws text in
  let '(question, path_part) := split_question content in
  if startswith (lit "[") path_part then
    paths ← literal_eval path_part;
    Some (PathList paths, question_or_default question)
  else
    let path := strip_ws (strip_quotes path_part) in
    if truthy path && path_exists path
    then Some (OnePath path, question_or_default question)
    else None.
End ImageCommand.

End Commands.

(** ** [__init_checks] *)

Module Init.
Import Text Json Decoder Model Session.

(** The attributes [__init_checks] sets. *)
Record settings : Type := Settings {
  set_save_to : option str;
  set_save_as : option str;
  set_model : str;
  set_timeout : Z
}.

Definition FORMATS : list str := [JSON_FORMAT; TXT_FORMAT; MD_FORMAT].
Definition MINDFUL : str := Eval cbv in lit "mindful".

Section Init.
(** [str.lower], [tempfile.gettempdir()] and the model table of the
    preset. *)
Variable str_lower : str -> str.
Variable tempdir : str.
Variable models : gmap (list N) (list N).

(** [__init_checks]; [None] is the exception it logs and raises again. *)
Definition init_checks (save_to : option str) (save_as model_name : str)
    (timeout : Z) : option settings :=
  let '(dir, format) :=
    match save_to with
    | None => (None, None)
    | Some d =>
        (Some (path_join (if truthy d then d else tempdir) MINDFUL),
         Some (if bool_decide (str_lower save_as ∈ FORMATS)
               then str_lower save_as else JSON_FORMAT))
    end in
  model_id ← models !! model_name;
  if truthy model_id then Some (Settings dir format model_id timeout)
  else None.
End Init.

End Init.

(** * Properties *)

(** ** Splitting, stripping and decoding text *)

Module TextFacts.
Import Text.

Lemma py_init_snoc {A} (l : list A) (x : A) : py_init (l ++ [x]) = l.
Proof.
  unfold py_init. rewrite length_app. simpl.
  replace (length l + 1 - 1)%nat with (length l) by lia.
  by rewrite take_app_length.
Qed.

Lemma py_last_snoc {A} (l : list A) (x : A) : py_last (l ++ [x]) = Some x.
Proof. unfold py_last. by rewrite last_snoc. Qed.

(** [split] always ends with a fragment, and the fragment holds no
    separator. *)
Lemma split_snoc sep (s : str) :
  exists ls r, split sep s = ls ++ [r] /\ sep ∉ r.
Proof.
  induction s as [|c s IH]; simpl.
  - exists [], []. split; [done | apply not_elem_of_nil].
  - destruct IH as (ls & r & -> & Hr).
    destruct (N.eqb_spec c sep) as [->|Hne].
    + exists ([] :: ls), r. done.
    + destruct ls as [|l ls]; simpl.
      * exists [], (c :: r). split; [done |].
        rewrite not_elem_of_cons. split; [congruence | done].
      * exists ((c :: l) :: ls), r. done.
Qed.

(** Text that arrives later only extends the last fragment. *)
Lemma split_app sep (a b : str) ls r :
  split sep a = ls ++ [r] ->
  split sep (a ++ b) = ls ++ split sep (r ++ b).
Proof.
  revert ls r. induction a as [|c a IH]; intros ls r; simpl.
  - destruct ls as [|l [|l' ls]]; simpl; intros H; simplify_eq; done.
  - destruct (split_snoc sep a) as (ls' & r' & Ha & _).
    rewrite Ha, (IH _ _ Ha).
    destruct (N.eqb_spec c sep) as [->|Hne].
    + intros H. change ([] :: ls' ++ [r']) with (([] :: ls') ++ [r']) in H.
      apply app_inj_tail in H as [<- <-]. done.
    + destruct ls' as [|l ls']; simpl.
      * intros H. change [c :: r'] with ([] ++ [c :: r']) in H.
        apply app_inj_tail in H as [<- <-]. simpl.
        rewrite (proj2 (N.eqb_neq c sep) Hne). done.
      * intros H.
        change ((c :: l) :: ls' ++ [r']) with (((c :: l) :: ls') ++ [r']) in H.
        apply app_inj_tail in H as [<- <-]. done.
Qed.

Lemma split_no_sep sep (s : str) : sep ∉ s -> split sep s = [s].
Proof.
  induction s as [|c s IH]; simpl; [done |].
  rewrite not_elem_of_cons. intros [Hne Hs].
  rewrite (IH Hs). destruct (N.eqb_spec c sep); [congruence | done].
Qed.

Lemma split_line sep (l rest : str) :
  sep ∉ l -> split sep (l ++ sep :: rest) = l :: split sep rest.
Proof.
  intros Hl. rewrite (split_app sep l (sep :: rest) [] l).
  - simpl. induction l as [|c l IH]; simpl.
    + by rewrite N.eqb_refl.
    + apply not_elem_of_cons in Hl as [Hne Hl]. rewrite (IH Hl).
      destruct (N.eqb_spec c sep); [congruence | done].
  - by apply split_no_sep.
Qed.

(** *** [strip] *)

Lemma lstrip_spec p (s : str) :
  exists k, s = take k s ++ lstrip p s /\
            Forall (fun c => p c = true) (take k s) /\
            match lstrip p s with c :: _ => p c = false | [] => True end.
Proof.
  induction s as [|c s (k & Hk & Hall & Hhd)]; simpl.
  - exists 0%nat. done.
  - destruct (p c) eqn:Hc.
    + exists (S k). simpl. split; [by f_equal |]. split; [by constructor | done].
    + exists 0%nat. simpl. rewrite Hc. done.
Qed.

Lemma lstrip_keeps p (s : str) c :
  c ∈ s -> p c = false -> c ∈ lstrip p s.
Proof.
  induction s as [|d s IH]; simpl; [done |].
  intros Hin Hc. destruct (p d) eqn:Hd; [| done].
  apply elem_of_cons in Hin as [-> | Hin]; [congruence | by apply IH].
Qed.

Lemma strip_keeps p (s : str) c : c ∈ s -> p c = false -> c ∈ strip p s.
Proof.
  intros Hin Hc. unfold strip, rstrip.
  rewrite elem_of_reverse. apply lstrip_keeps; [| done].
  rewrite elem_of_reverse. by apply lstrip_keeps.
Qed.

Lemma truthy_elem (s : str) c : c ∈ s -> truthy s = true.
Proof. destruct s; [by intros ?%elem_of_nil | done]. Qed.

Lemma startswith_app (p s : str) : startswith p (p ++ s) = true.
Proof. induction p as [|c p IH]; simpl; [done |]. by rewrite N.eqb_refl. Qed.

(** What [strip] removes is a run of stripped characters at each end, and
    what it leaves neither starts nor ends with one. *)
Lemma strip_spec p (s : str) :
  exists a b,
    s = a ++ strip p s ++ b /\
    Forall (fun c => p c = true) a /\ Forall (fun c => p c = true) b /\
    (forall c, head (strip p s) = Some c -> p c = false) /\
    (forall c, last (strip p s) = Some c -> p c = false).
Proof.
  destruct (lstrip_spec p s) as (k & Hs & Ha & Hhd).
  destruct (lstrip_spec p (reverse (lstrip p s))) as (k' & Hr & Hb & Hlast).
  set (s1 := lstrip p s) in *.
  set (t := lstrip p (reverse s1)) in *.
  assert (Hs1 : s1 = reverse t ++ reverse (take k' (reverse s1))).
  { rewrite <- reverse_app, <- Hr. by rewrite reverse_involutive. }
  exists (take k s), (reverse (take k' (reverse s1))).
  unfold strip, rstrip. fold s1. fold t.
  split; [by rewrite <- Hs1 |].
  split; [done |].
  split; [by apply Forall_reverse |].
  split.
  - intros c Hc. destruct (reverse t) as [|d u] eqn:Hu; [done |].
    simpl in Hc. simplify_eq. rewrite Hs1 in Hhd. done.
  - intros c Hc. rewrite last_reverse in Hc.
    destruct t as [|d u]; [done |]. simpl in Hc. by simplify_eq.
Qed.

Lemma Forall_eqb_replicate q (a : str) :
  Forall (fun c => (q =? c) = true) a -> a = replicate (length a) q.
Proof.
  induction 1 as [|c a Hc _ IH]; simpl; [done |].
  apply N.eqb_eq in Hc. subst c. by f_equal.
Qed.

(** *** UTF-8 *)

Lemma fmap_cons_Some (c : N) (o : option (list N)) x :
  cons c <$> o = Some x -> exists x', o = Some x' /\ x = c :: x'.
Proof. destruct o; simpl; intros; simplify_eq; eauto. Qed.

Lemma utf8_decode_app_aux n : forall (a : list byte) x b,
  (length a <= n)%nat ->
  utf8_decode a = Some x ->
  utf8_decode (a ++ b) = (x ++.) <$> utf8_decode b.
Proof.
  induction n as [|n IH]; intros a x b Hlen.
  - destruct a; [| simpl in Hlen; lia]. simpl. intros [= <-].
    by destruct (utf8_decode b).
  - destruct a as [|b0 r].
    { simpl. intros [= <-]. by destruct (utf8_decode b). }
    simpl in Hlen. rewrite <- app_comm_cons. simpl.
    destruct (Byte.to_N b0 <? 128).
    { intros (x' & Hr & ->)%fmap_cons_Some.
      rewrite (IH r x' b) by (done || lia). by destruct (utf8_decode b). }
    destruct ((192 <=? Byte.to_N b0) && (Byte.to_N b0 <? 224)).
    { destruct r as [|b1 r1]; [done |]. simpl in *.
      destruct (is_cont b1 && _); [| done].
      intros (x' & Hr & ->)%fmap_cons_Some.
      rewrite (IH r1 x' b) by (done || lia). by destruct (utf8_decode b). }
    destruct ((224 <=? Byte.to_N b0) && (Byte.to_N b0 <? 240)).
    { destruct r as [|b1 [|b2 r2]]; [done | done |]. simpl in *.
      destruct (is_cont b1 && _ && _ && _); [| done].
      intros (x' & Hr & ->)%fmap_cons_Some.
      rewrite (IH r2 x' b) by (done || lia). by destruct (utf8_decode b). }
    destruct ((240 <=? Byte.to_N b0) && (Byte.to_N b0 <? 248)); [| done].
    destruct r as [|b1 [|b2 [|b3 r3]]]; [done | done | done |]. simpl in *.
    destruct (is_cont b1 && _ && _ && _ && _); [| done].
    intros (x' & Hr & ->)%fmap_cons_Some.
    rewrite (IH r3 x' b) by (done || lia). by destruct (utf8_decode b).
Qed.

(** Bytes that decode can be followed by any bytes: the text of the whole
    is the text of the first part, then the text of the rest. *)
Lemma utf8_decode_app (a b : list byte) x :
  utf8_decode a = Some x ->
  utf8_decode (a ++ b) = (x ++.) <$> utf8_decode b.
Proof. by apply (utf8_decode_app_aux (length a)). Qed.

(** Chunks that each decode are a cutting of the byte stream between
    characters: the stream decodes to the pieces put together. *)
Lemma utf8_decode_chunks (cs : list (list byte)) :
  Forall (fun c => is_Some (utf8_decode c)) cs ->
  exists ts, Forall2 (fun c t => utf8_decode c = Some t) cs ts /\
             utf8_decode (concat cs) = Some (concat ts).
Proof.
  induction 1 as [|c cs [t Ht] _ (ts & Hts & Hall)]; simpl.
  - exists []. split; [constructor | done].
  - exists (t :: ts). split; [by constructor |].
    rewrite (utf8_decode_app c (concat cs) t Ht), Hall. done.
Qed.

End TextFacts.

(** ** The decoder does not depend on where the chunks are cut *)

Module DecoderFacts.
Import Text Json Decoder TextFacts.

Lemma foldM_app {A B} (f : A -> B -> option A) (a : A) (l1 l2 : list B) :
  foldM f a (l1 ++ l2) = foldM f a l1 ≫= fun a' => foldM f a' l2.
Proof.
  revert a. induction l1 as [|x l1 IH]; intros a; simpl; [done |].
  destruct (f a x); simpl; [apply IH | done].
Qed.

Section Facts.
Variable json_loads : str -> option json.
Variable con : console.

Abbreviation handle_line := (handle_line json_loads con).
Abbreviation feed := (feed json_loads con).
Abbreviation pending := (pending json_loads con).

Lemma pending_split buffer stream_text ls r :
  split NL buffer = ls ++ [r] ->
  pending buffer stream_text =
    foldM handle_line stream_text ls ≫= fun t => Some (r, t).
Proof.
  intros H. unfold pending. rewrite H, py_init_snoc, py_last_snoc. done.
Qed.

Lemma pending_fragment buffer stream_text r t :
  pending buffer stream_text = Some (r, t) -> NL ∉ r.
Proof.
  destruct (split_snoc NL buffer) as (ls & r' & Hs & Hr').
  rewrite (pending_split _ _ _ _ Hs).
  destruct (foldM handle_line stream_text ls); simpl; [| done].
  by intros [= <- <-].
Qed.

Lemma pending_no_break buffer stream_text :
  NL ∉ buffer -> pending buffer stream_text = Some (buffer, stream_text).
Proof.
  intros H. rewrite (pending_split _ _ [] buffer); [done |].
  by apply split_no_sep.
Qed.

Lemma pending_app a b stream_text :
  pending (a ++ b) stream_text =
    pending a stream_text ≫= fun st => pending (st.1 ++ b) st.2.
Proof.
  destruct (split_snoc NL a) as (ls & r & Ha & _).
  destruct (split_snoc NL (r ++ b)) as (ls' & r' & Hb & _).
  rewrite (pending_split a _ _ _ Ha).
  rewrite (pending_split (a ++ b) _ (ls ++ ls') r').
  2: { rewrite (split_app _ _ _ _ _ Ha), Hb. by rewrite app_assoc. }
  rewrite foldM_app.
  destruct (foldM handle_line stream_text ls) as [t|]; simpl; [| done].
  by rewrite (pending_split (r ++ b) _ _ _ Hb).
Qed.

Lemma feed_pending buffer stream_text chunk text :
  utf8_decode chunk = Some text -> NL ∉ buffer ->
  feed (buffer, stream_text) chunk = pending (buffer ++ text) stream_text.
Proof.
  intros Hd Hb. unfold feed. destruct chunk as [|b0 chunk].
  - simpl in Hd. injection Hd as <-. rewrite app_nil_r.
    by rewrite pending_no_break.
  - rewrite Hd. done.
Qed.

Lemma feed_all chunks texts : forall buffer stream_text,
  decodes_to chunks texts -> NL ∉ buffer ->
  foldM feed (buffer, stream_text) chunks =
    pending (buffer ++ concat texts) stream_text.
Proof.
  intros buffer stream_text H. revert buffer stream_text.
  induction H as [|c t cs ts Hc _ IH]; intros buffer stream_text Hb;
    cbn [foldM concat].
  - rewrite app_nil_r. by rewrite pending_no_break.
  - rewrite (feed_pending _ _ _ _ Hc Hb), app_assoc.
    rewrite (pending_app (buffer ++ t) (concat ts)).
    destruct (pending (buffer ++ t) stream_text) as [[r t']|] eqn:Hp;
      simpl; [| done].
    apply IH. by apply pending_fragment in Hp.
Qed.

(** The accumulated text of a stream received whole is the lines of its
    text handled in order, wherever the chunks were cut between
    characters. *)
Lemma accumulate_lines chunks texts stream_text :
  decodes_to chunks texts ->
  accumulate json_loads con (Response chunks false) stream_text =
    foldM handle_line stream_text (split NL (concat texts)).
Proof.
  intros H. unfold accumulate. simpl.
  rewrite (feed_all _ _ _ _ H) by apply not_elem_of_nil. simpl.
  destruct (split_snoc NL (concat texts)) as (ls & r & Hs & _).
  rewrite (pending_split _ _ _ _ Hs), Hs, foldM_app.
  destruct (foldM handle_line stream_text ls) as [t|]; simpl; [| done].
  by destruct (handle_line t r).
Qed.

Lemma handle_line_empty stream_text :
  handle_line stream_text [] = Some stream_text.
Proof. done. Qed.

Lemma handle_line_prefix payload stream_text :
  handle_line stream_text (DATA_PREFIX ++ payload) =
    match json_loads payload with
    | None => Some stream_text
    | Some data =>
        py_in CONTENT data ≫= fun has : bool =>
        if has then
          py_getitem CONTENT data ≫= fun new_content =>
          match new_content with
          | JString s => echo con s;; Some (stream_text ++ s)
          | _ => None
          end
        else Some stream_text
    end.
Proof.
  unfold Decoder.handle_line.
  assert (truthy (strip_ws (DATA_PREFIX ++ payload)) = true) as ->.
  { apply (truthy_elem _ 100). apply strip_keeps; [| done].
    apply elem_of_app. left. apply list_elem_of_here. }
  rewrite startswith_app. done.
Qed.

Lemma handle_line_content line s stream_text :
  content_line json_loads line s -> echoes con s ->
  handle_line stream_text line = Some (stream_text ++ s).
Proof.
  intros (payload & members & -> & _ & Hj & Hd) He.
  rewrite handle_line_prefix, Hj. simpl. rewrite Hd. simpl.
  unfold echoes in He. by rewrite He.
Qed.

(** A content line whose echo raises ends the decoding. *)
Lemma handle_line_mute line s stream_text :
  content_line json_loads line s -> echo con s = None ->
  handle_line stream_text line = None.
Proof.
  intros (payload & members & -> & _ & Hj & Hd) He.
  rewrite handle_line_prefix, Hj. simpl. rewrite Hd. simpl. by rewrite He.
Qed.

Lemma handle_line_malformed line stream_text :
  malformed_line json_loads line ->
  handle_line stream_text line = Some stream_text.
Proof.
  intros (payload & -> & _ & Hj). by rewrite handle_line_prefix, Hj.
Qed.

Lemma prefix_no_break payload : NL ∉ payload -> NL ∉ DATA_PREFIX ++ payload.
Proof.
  intros H. rewrite not_elem_of_app. split; [| done].
  by apply (bool_decide_unpack _).
Qed.

Lemma yields_no_break line y : yields json_loads line y -> NL ∉ line.
Proof.
  intros [l s (payload & members & -> & H & _) | l (payload & -> & H & _)];
    by apply prefix_no_break.
Qed.

Lemma foldM_yields lines ys : forall stream_text,
  Forall2 (yields json_loads) lines ys ->
  Forall (echoes con) (omap id ys) ->
  foldM handle_line stream_text lines =
    Some (stream_text ++ concat (omap id ys)).
Proof.
  intros stream_text H. revert stream_text.
  induction H as [|line y lines ys Hy _ IH]; intros stream_text He; simpl.
  - by rewrite app_nil_r.
  - destruct Hy as [line s Hc | line Hm]; simpl in He.
    + apply Forall_cons in He as [He Hes].
      rewrite (handle_line_content _ _ _ Hc He). simpl.
      rewrite (IH _ Hes). by rewrite app_assoc.
    + rewrite (handle_line_malformed _ _ Hm). simpl. by apply IH.
Qed.

Lemma foldM_empty_lines extra stream_text :
  Forall (fun l => l = []) extra ->
  foldM handle_line stream_text extra = Some stream_text.
Proof. induction 1 as [|l extra -> _ IH]; simpl; done. Qed.

(** The lines of a stream come back from [split], followed by empty
    fragments only. *)
Lemma split_stream_of lines last_terminated :
  Forall (fun l => NL ∉ l) lines ->
  exists extra, split NL (stream_of lines last_terminated) = lines ++ extra
                /\ Forall (fun l => l = []) extra.
Proof.
  unfold stream_of. induction 1 as [|l lines Hl Hls IH].
  - destruct last_terminated; simpl.
    + exists [[]; []]. split; [done | by repeat constructor].
    + exists [[]]. split; [done | by repeat constructor].
  - destruct lines as [|l' lines].
    + simpl. destruct last_terminated.
      * rewrite (split_line _ _ _ Hl). simpl.
        exists [[]]. split; [done | by repeat constructor].
      * rewrite app_nil_r, (split_no_sep _ _ Hl).
        exists []. split; [done | constructor].
    + destruct IH as (extra & IH & Hextra).
      exists extra. split; [| done].
      change (join [NL] (l :: l' :: lines))
        with (l ++ NL :: join [NL] (l' :: lines)).
      rewrite <- app_assoc, <- app_comm_cons.
      rewrite (split_line _ _ _ Hl). by rewrite IH.
Qed.

(** A stream of lines that each carry a content or are rejected by the
    parser, received in chunks cut anywhere between characters:
    the accumulated text is the contents in order. *)
Lemma accumulate_stream lines ys last_terminated chunks :
  Forall2 (yields json_loads) lines ys ->
  Forall (echoes con) (omap id ys) ->
  utf8_decode (concat chunks) = Some (stream_of lines last_terminated) ->
  Forall (fun c => is_Some (utf8_decode c)) chunks ->
  accumulate json_loads con (Response chunks false) [] =
    Some (concat (omap id ys)).
Proof.
  intros Hy Hecho Hbytes Hchunks.
  destruct (utf8_decode_chunks _ Hchunks) as (texts & Hts & Hall).
  rewrite Hall in Hbytes. injection Hbytes as Htext.
  rewrite (accumulate_lines chunks texts [] Hts), Htext.
  destruct (split_stream_of lines last_terminated) as (extra & -> & Hex).
  { eapply Forall2_Forall_l; [apply Hy |].
    apply Forall_forall. intros y _ line. apply yields_no_break. }
  rewrite foldM_app, (foldM_yields _ _ _ Hy Hecho). simpl.
  by apply foldM_empty_lines.
Qed.

(** The last step: the closing line break of the echo, then the strip. *)
Lemma stream_response_accumulated resp stream_text acc :
  accumulate json_loads con resp stream_text = Some acc ->
  end_echo con = Some () ->
  stream_response json_loads con resp stream_text = Some (strip_quotes acc).
Proof.
  intros Ha He. unfold stream_response. rewrite Ha. simpl. by rewrite He.
Qed.

Lemma stream_response_raised resp stream_text :
  accumulate json_loads con resp stream_text = None ->
  stream_response json_loads con resp stream_text = None.
Proof. intros Ha. unfold stream_response. by rewrite Ha. Qed.

Lemma stream_response_Some resp stream_text out :
  stream_response json_loads con resp stream_text = Some out ->
  exists acc,
    accumulate json_loads con resp stream_text = Some acc /\
    end_echo con = Some () /\ out = strip_quotes acc.
Proof.
  unfold stream_response.
  destruct (accumulate json_loads con resp stream_text) as [acc|]; [| done].
  simpl. destruct (end_echo con) as [[]|]; [| done].
  simpl. intros [= <-]. by exists acc.
Qed.
End Facts.

(** *** Concrete lines *)

Import Sample.

Lemma sample_content_line escaped s :
  bool_decide (NL ∉ content_payload escaped) = true ->
  loads (content_payload escaped) = Some (JObject [(CONTENT, JString s)]) ->
  content_line loads (data_line (content_payload escaped)) s.
Proof.
  intros Hnl Hj. exists (content_payload escaped), [(CONTENT, JString s)].
  split; [done |]. split; [by apply bool_decide_eq_true in Hnl |].
  split; [done | by vm_compute].
Qed.

Lemma sample_broken_line : malformed_line loads broken_line.
Proof.
  exists (lit "{oops"). split; [done |].
  split; [by apply (bool_decide_unpack _) | by vm_compute].
Qed.

Ltac sample_lines :=
  repeat first
    [ apply List.Forall2_nil
    | apply List.Forall2_cons
    | apply yields_content
    | apply yields_nothing
    | apply sample_broken_line
    | apply sample_content_line; vm_compute; reflexivity ].

Ltac sample_echoes :=
  repeat first
    [ apply List.Forall_nil
    | apply List.Forall_cons; [vm_compute; reflexivity |] ].

Ltac sample_chunks :=
  repeat first
    [ apply List.Forall_nil
    | apply List.Forall_cons; [vm_compute; eexists; reflexivity |] ].

(** *** The claims on the decoder *)

(** C2, as stated, fails.  First: a one-line stream in one chunk whose
    content is [hi] between double quotes returns [hi] without them, not
    the content.  Second: a one-line stream whose content is U+00E9, cut
    between the two bytes of that character, returns [None].  Third: with
    the echo on, a one-line stream in one chunk whose content holds a
    character the console cannot print returns [None]. *)
Lemma C2_counterexample :
  (content_line loads quoted_hi_line (quoted (lit "hi")) /\
   utf8_decode (concat [utf8_encode (stream_of [quoted_hi_line] true)])
     = Some (stream_of [quoted_hi_line] true) /\
   stream_response loads terminal
     (Response [utf8_encode (stream_of [quoted_hi_line] true)] false) []
     = Some (lit "hi") /\
   lit "hi" <> concat [quoted (lit "hi")]) /\
  (content_line loads accent_line [233] /\
   utf8_decode (concat accent_chunks) = Some (stream_of [accent_line] true) /\
   stream_response loads terminal (Response accent_chunks false) [] = None) /\
  (content_line loads surrogate_line [97; 55296; 98] /\
   utf8_decode (concat [utf8_encode (stream_of [surrogate_line] true)])
     = Some (stream_of [surrogate_line] true) /\
   stream_output terminal = true /\ prints terminal 55296 = false /\
   stream_response loads terminal
     (Response [utf8_encode (stream_of [surrogate_line] true)] false) []
     = None).
Proof.
  split; [| split].
  - split; [apply sample_content_line; vm_compute; reflexivity |].
    split; [vm_compute; reflexivity |].
    split; [vm_compute; reflexivity | vm_compute; discriminate].
  - split; [apply sample_content_line; vm_compute; reflexivity |].
    split; vm_compute; reflexivity.
  - split; [apply sample_content_line; vm_compute; reflexivity |].
    repeat split; vm_compute; reflexivity.
Qed.

(** C2, amended: for every finite stream of well-formed content lines, each
    terminated by a line break except possibly the last, and every cutting
    of its bytes into chunks that falls between characters, when the echo
    on the console raises nothing (it is off, or every character of the
    contents is printed, the delay is accepted and the closing line break
    is printed), the decoder returns the concatenation of the contents in
    arrival order with every leading and trailing double quote removed. *)
Theorem C2_stream_concatenation
    (json_loads : list N -> option json) (con : console)
    (lines contents : list (list N)) (last_terminated : bool)
    (chunks : list (list byte)) :
  Forall2 (content_line json_loads) lines contents ->
  utf8_decode (concat chunks) = Some (stream_of lines last_terminated) ->
  Forall (fun c => is_Some (utf8_decode c)) chunks ->
  Forall (echoes con) contents -> end_echo con = Some () ->
  stream_response json_loads con (Response chunks false) [] =
    Some (strip_quotes (concat contents)).
Proof.
  intros Hlines Hbytes Hchunks Hecho Hend.
  assert (Hids : omap id (Some <$> contents) = contents).
  { clear. induction contents as [|c cs IH]; [done |]. simpl. by f_equal. }
  apply stream_response_accumulated; [| done].
  rewrite (accumulate_stream json_loads con lines (Some <$> contents)
             last_terminated chunks); [| | | done | done].
  - by rewrite Hids.
  - clear -Hlines. induction Hlines; constructor; [by constructor | done].
  - by rewrite Hids.
Qed.

Lemma C2_stream_concatenation_witness :
  stream_response loads terminal (Response hello_chunks false) [] =
    Some (strip_quotes (concat [lit "Hel"; lit "lo"])).
Proof.
  apply (C2_stream_concatenation loads terminal hello_lines
           [lit "Hel"; lit "lo"] true).
  - sample_lines.
  - vm_compute. reflexivity.
  - sample_chunks.
  - sample_echoes.
  - reflexivity.
Defined.

(** C7, as stated, fails: when the accumulated text is [hi] between two
    pairs of double quotes, both quotes of each pair are removed, where the
    claim keeps the inner ones. *)
Lemma C7_counterexample :
  let resp :=
    Response [utf8_encode (stream_of [twice_quoted_hi_line] true)] false in
  accumulate loads terminal resp [] = Some (quoted (quoted (lit "hi"))) /\
  stream_response loads terminal resp [] = Some (lit "hi") /\
  strip_one_quote (quoted (quoted (lit "hi"))) = quoted (lit "hi") /\
  stream_response loads terminal resp []
    <> Some (strip_one_quote (quoted (quoted (lit "hi")))).
Proof.
  repeat split; try (vm_compute; reflexivity). vm_compute. discriminate.
Qed.

(** C7, amended: for every successfully decoded stream, the result is the
    accumulated text with every leading and every trailing double quote
    removed: the text is a run of quotes, the result, and a run of quotes,
    and the result neither starts nor ends with a quote. *)
Theorem C7_all_quotes_stripped
    (json_loads : list N -> option json) (con : console) (resp : response)
    (stream_text out : list N) :
  stream_response json_loads con resp stream_text = Some out ->
  exists acc a b,
    accumulate json_loads con resp stream_text = Some acc /\
    acc = replicate a QUOTE ++ out ++ replicate b QUOTE /\
    head out <> Some QUOTE /\ last out <> Some QUOTE.
Proof.
  intros (acc & Hsome & _ & ->)%stream_response_Some.
  destruct (strip_spec (N.eqb QUOTE) acc) as (a & b & Hacc & Ha & Hb & Hh & Hl).
  exists acc, (length a), (length b). split; [done |].
  split.
  - rewrite <- (Forall_eqb_replicate _ _ Ha), <- (Forall_eqb_replicate _ _ Hb).
    exact Hacc.
  - split; intros H.
    + apply Hh in H. by rewrite N.eqb_refl in H.
    + apply Hl in H. by rewrite N.eqb_refl in H.
Qed.

Lemma C7_all_quotes_stripped_witness :
  exists acc a b,
    accumulate loads terminal
      (Response [utf8_encode (stream_of [twice_quoted_hi_line] true)] false)
      [] = Some acc /\
    acc = replicate a QUOTE ++ lit "hi" ++ replicate b QUOTE /\
    head (lit "hi") <> Some QUOTE /\ last (lit "hi") <> Some QUOTE.
Proof.
  apply (C7_all_quotes_stripped loads terminal). vm_compute. reflexivity.
Defined.

(** C8, as stated, fails: a stream that holds a terminated line with the
    data prefix whose remainder is no JSON, and a valid content line after
    it, can return [None], so that the content of the later line is not
    decoded.  First: the later content is U+00E9 and the bytes are cut
    between the two bytes of that character.  Second: with the echo on, the
    later content holds a character the console cannot print.  Third: a
    line holding [null] stands between the rejected line and the content
    line. *)
Lemma C8_counterexample :
  malformed_line loads broken_line /\
  (content_line loads accent_line [233] /\
   utf8_decode (concat broken_accent_chunks)
     = Some (stream_of [broken_line; accent_line] true) /\
   stream_response loads terminal (Response broken_accent_chunks false) []
     = None) /\
  (content_line loads surrogate_line [97; 55296; 98] /\
   utf8_decode (concat broken_surrogate_chunks)
     = Some (stream_of [broken_line; surrogate_line] true) /\
   stream_output terminal = true /\ prints terminal 55296 = false /\
   stream_response loads terminal (Response broken_surrogate_chunks false) []
     = None) /\
  (content_line loads (data_line (content_payload (lit "lo"))) (lit "lo") /\
   loads (lit "null") = Some JNull /\
   utf8_decode (concat [utf8_encode (stream_of broken_null_lines true)])
     = Some (stream_of broken_null_lines true) /\
   stream_response loads terminal
     (Response [utf8_encode (stream_of broken_null_lines true)] false) []
     = None).
Proof.
  split; [apply sample_broken_line |]. split; [| split].
  - split; [apply sample_content_line; vm_compute; reflexivity |].
    split; vm_compute; reflexivity.
  - split; [apply sample_content_line; vm_compute; reflexivity |].
    repeat split; vm_compute; reflexivity.
  - split; [apply sample_content_line; vm_compute; reflexivity |].
    repeat split; vm_compute; reflexivity.
Qed.

(** C8, amended: for every stream of lines that holds a line starting with
    the data prefix whose remainder the parser rejects with a
    [JSONDecodeError], among lines that each carry a content or are
    rejected too, received whole in chunks cut between characters, when the
    echo on the console raises nothing, the decoder returns a result, the
    rejected line adds nothing to it, and the contents of the lines before
    and after it are all there, in order (with the final strip of double
    quotes). *)
Theorem C8_malformed_line_skipped
    (json_loads : list N -> option json) (con : console)
    (before after : list (list N)) (bad : list N)
    (ys1 ys2 : list (option (list N))) (last_terminated : bool)
    (chunks : list (list byte)) :
  Forall2 (yields json_loads) before ys1 ->
  malformed_line json_loads bad ->
  Forall2 (yields json_loads) after ys2 ->
  utf8_decode (concat chunks)
    = Some (stream_of (before ++ bad :: after) last_terminated) ->
  Forall (fun c => is_Some (utf8_decode c)) chunks ->
  Forall (echoes con) (omap id ys1) -> Forall (echoes con) (omap id ys2) ->
  end_echo con = Some () ->
  stream_response json_loads con (Response chunks false) [] =
    Some (strip_quotes (concat (omap id ys1) ++ concat (omap id ys2))).
Proof.
  intros H1 Hbad H2 Hbytes Hchunks He1 He2 Hend.
  assert (Hids : omap id (ys1 ++ None :: ys2) = omap id ys1 ++ omap id ys2)
    by (by rewrite omap_app).
  apply stream_response_accumulated; [| done].
  rewrite (accumulate_stream json_loads con (before ++ bad :: after)
             (ys1 ++ None :: ys2) last_terminated chunks); [| | | done | done].
  - by rewrite Hids, concat_app.
  - apply Forall2_app; [done |]. constructor; [by constructor | done].
  - rewrite Hids. by apply Forall_app.
Qed.

Lemma C8_malformed_line_skipped_witness :
  stream_response loads terminal (Response mixed_chunks false) [] =
    Some (strip_quotes (concat (omap id [Some (lit "Hel")])
                        ++ concat (omap id [Some (lit "lo")]))).
Proof.
  apply (C8_malformed_line_skipped loads terminal
           [data_line (content_payload (lit "Hel"))]
           [data_line (content_payload (lit "lo"))] broken_line
           [Some (lit "Hel")] [Some (lit "lo")] true).
  - sample_lines.
  - apply sample_broken_line.
  - sample_lines.
  - vm_compute. reflexivity.
  - sample_chunks.
  - sample_echoes.
  - sample_echoes.
  - reflexivity.
Defined.

End DecoderFacts.

(** ** The turn: which history it works on, and what it returns *)

Module SessionFacts.
Import Text Json Decoder Model Session Loader.

Lemma last_app_Some {A} (l1 l2 : list A) x :
  last l2 = Some x -> last (l1 ++ l2) = Some x.
Proof.
  intros H. destruct l2 as [|y l2] using rev_ind; [done |].
  rewrite last_snoc in H. injection H as ->.
  by rewrite app_assoc, last_snoc.
Qed.

Lemma last_path_join (a b : list N) c :
  last b = Some c -> last (path_join a b) = Some c.
Proof.
  intros H. unfold path_join.
  destruct (startswith [SLASH] b); [done |].
  destruct (negb (truthy a) || endswith_char SLASH a).
  - by apply last_app_Some.
  - apply last_app_Some. by apply last_app_Some.
Qed.

(** The JSON file of a conversation ends in [n], an export in [t] or [d]:
    the export never overwrites the JSON file. *)
Lemma history_path_last root task_id :
  last (history_path root task_id) = Some 110.
Proof. unfold history_path. apply last_path_join. by apply last_app_Some. Qed.

Lemma export_path_ne root task_id (base ext : list N) c :
  last ext = Some c -> c <> 110 ->
  base ++ ext <> history_path root task_id.
Proof.
  intros Hext Hc Heq. pose proof (history_path_last root task_id) as Hl.
  rewrite <- Heq, (last_app_Some _ _ _ Hext) in Hl. congruence.
Qed.

Section Facts.
Variable json_loads : list N -> option json.
Variable con : console.
Variable str_format : list N -> list N -> option (list N).
Variable self : client.
Variable w : world.

Abbreviation save_history := (save_history self w).
Abbreviation convert_chat := (convert_chat w).
Abbreviation prepare_history := (prepare_history str_format self w).
Abbreviation requested_prompt := (requested_prompt str_format self).
Abbreviation get_completions := (get_completions json_loads con str_format self w).
Abbreviation system_first := (system_first self).

(** *** [__save_history] *)

Lemma convert_chat_state history file_path format s root task_id :
  file_path = history_path root task_id ->
  let out := convert_chat history file_path format s in
  history_var out.2 = history_var s /\ heap out.2 = heap s /\
  files out.2 !! file_path = files s !! file_path /\
  (history <> [] -> writable w = true -> out.1 = Some ()).
Proof.
  intros ->. unfold Session.convert_chat, write_file, mbind, M_bind, bind, lift.
  destruct history as [|m history]; simpl; [done |].
  destruct (str_eqb format TXT_FORMAT).
  { destruct (writable w); simpl; [| done].
    split; [done |]. split; [done |]. split; [| done].
    apply lookup_insert_ne. by apply (export_path_ne _ _ _ _ 116). }
  destruct (str_eqb format MD_FORMAT); [| done].
  destruct (writable w); simpl; [| done].
  split; [done |]. split; [done |]. split; [| done].
  apply lookup_insert_ne. by apply (export_path_ne _ _ _ _ 100).
Qed.

(** Saving leaves the list objects alone. *)
Lemma save_history_heap history s :
  let out := save_history history s in
  history_var out.2 = history_var s /\ heap out.2 = heap s.
Proof.
  unfold Session.save_history.
  destruct (save_to self) as [root|]; [| done].
  unfold mbind, M_bind, bind, lift, read_files, write_file.
  destruct history as [|first rest]; simpl; [done |].
  destruct (writable w); simpl; [| done].
  destruct (save_as self) as [format|].
  - destruct (str_eqb format JSON_FORMAT); [done |].
    edestruct convert_chat_state as (H1 & H2 & _); [done |].
    rewrite H1, H2. done.
  - edestruct convert_chat_state as (H1 & H2 & _); [done |].
    rewrite H1, H2. done.
Qed.

(** With persistence on and a writable disk, saving returns normally and
    the JSON file of the conversation holds the merged history. *)
Lemma save_history_file root first rest s :
  save_to self = Some root -> writable w = true ->
  let history := first :: rest in
  let file_path := history_path root (msg_id first) in
  let out := save_history history s in
  out.1 = Some () /\
  files out.2 !! file_path =
    Some (JsonFile (merge_history (files s !! file_path) history)).
Proof.
  intros Hroot Hw. unfold Session.save_history. rewrite Hroot.
  unfold mbind, M_bind, bind, lift, read_files, write_file. simpl.
  rewrite Hw. simpl.
  set (path := history_path root (msg_id first)).
  set (merged := merge_history (files s !! path) (first :: rest)).
  assert (Hne : merged <> []).
  { unfold merged, merge_history.
    destruct (files s !! path) as [f|]; [| done].
    destruct (json_load f) as [ex|]; [| done].
    destruct (drop (length ex) (first :: rest)) eqn:Hd; [done |].
    intros [_ H]%app_eq_nil. done. }
  assert (Hconv : forall format,
    let out := convert_chat merged path format
                 (State (history_var s) (heap s)
                    (<[path := JsonFile merged]> (files s))) in
    out.1 = Some () /\ files out.2 !! path = Some (JsonFile merged)).
  { intros format.
    destruct (convert_chat_state merged path format
      (State (history_var s) (heap s) (<[path := JsonFile merged]> (files s)))
      root (msg_id first) eq_refl) as (_ & _ & Hf & Hok).
    split; [by apply Hok |]. rewrite Hf. simpl. apply lookup_insert_eq. }
  destruct (save_as self) as [format|]; [| apply Hconv].
  destruct (str_eqb format JSON_FORMAT); [| apply Hconv].
  simpl. split; [done | apply lookup_insert_eq].
Qed.

(** *** Which list the turn works on *)

Ltac run := unfold mbind, M_bind, bind, lift, ret, rebind, read_history.

Lemma prepare_history_none agent instruction s sp :
  requested_prompt agent instruction = Some sp ->
  history_var s = None ->
  prepare_history agent instruction s =
    (Some (), fresh_state s [system_first (get_task_id w) sp]).
Proof.
  unfold Session.requested_prompt, Session.prepare_history. intros Hp Hv.
  run. rewrite Hv. simpl in *. rewrite Hp. done.
Qed.

Lemma prepare_history_empty agent instruction s sp l :
  requested_prompt agent instruction = Some sp ->
  history_var s = Some l -> heap s !! l = Some [] ->
  prepare_history agent instruction s =
    (Some (), fresh_state s [system_first (get_task_id w) sp]).
Proof.
  unfold Session.requested_prompt, Session.prepare_history. intros Hp Hv Hl.
  run. rewrite Hv, Hl. simpl in *. rewrite Hp. done.
Qed.

Lemma prepare_history_changed agent instruction s sp l first rest :
  requested_prompt agent instruction = Some sp ->
  history_var s = Some l -> heap s !! l = Some (first :: rest) ->
  msg_content first <> Plain sp ->
  prepare_history agent instruction s =
    (Some (), fresh_state s (system_first (msg_id first) sp
                             :: filter carried rest)).
Proof.
  unfold Session.requested_prompt, Session.prepare_history.
  intros Hp Hv Hl Hne. run. rewrite Hv, Hl. simpl in *. rewrite Hp. simpl.
  rewrite bool_decide_eq_false_2 by done. done.
Qed.

Lemma prepare_history_same agent instruction s sp l first rest :
  requested_prompt agent instruction = Some sp ->
  history_var s = Some l -> heap s !! l = Some (first :: rest) ->
  msg_content first = Plain sp ->
  prepare_history agent instruction s = (Some (), s).
Proof.
  unfold Session.requested_prompt, Session.prepare_history.
  intros Hp Hv Hl Heq. run. rewrite Hv, Hl. simpl in *. rewrite Hp. simpl.
  rewrite bool_decide_eq_true_2 by done. done.
Qed.

(** When the preparation raises, nothing has changed. *)
Lemma prepare_history_raises agent instruction s s1 :
  prepare_history agent instruction s = (None, s1) -> s1 = s.
Proof.
  unfold Session.prepare_history. run.
  destruct (history_var s) as [l|] eqn:Hv; simpl.
  - destruct (heap s !! l) as [[|first rest]|] eqn:Hl; simpl.
    + destruct (get_agent _ _ _ _); simpl; congruence.
    + destruct (get_agent _ _ _ _); simpl; [| congruence].
      destruct (bool_decide _); simpl; congruence.
    + congruence.
  - destruct (get_agent _ _ _ _); simpl; congruence.
Qed.

(** When it returns, [history] refers to a list that starts with a
    message, and no file has changed. *)
Lemma prepare_history_returns agent instruction s s1 :
  prepare_history agent instruction s = (Some (), s1) ->
  exists l first rest,
    history_var s1 = Some l /\ heap s1 !! l = Some (first :: rest) /\
    files s1 = files s.
Proof.
  unfold Session.prepare_history. run.
  destruct (history_var s) as [l|] eqn:Hv; simpl.
  - destruct (heap s !! l) as [[|first rest]|] eqn:Hl; simpl.
    + destruct (get_agent _ _ _ _); simpl; [| congruence].
      intros [= <-]. eexists _, _, _. simpl.
      split; [done |]. split; [apply lookup_insert_eq | done].
    + destruct (get_agent _ _ _ _); simpl; [| congruence].
      destruct (bool_decide _); simpl.
      * intros [= <-]. by exists l, first, rest.
      * intros [= <-]. eexists _, _, _. simpl.
        split; [done |]. split; [apply lookup_insert_eq | done].
    + congruence.
  - destruct (get_agent _ _ _ _); simpl; [| congruence].
    intros [= <-]. eexists _, _, _. simpl.
    split; [done |]. split; [apply lookup_insert_eq | done].
Qed.

(** *** The turn, step by step *)

Abbreviation user_turn := (user_turn self).
Abbreviation assistant_turn := (assistant_turn self).
Abbreviation turn_messages := (turn_messages json_loads con self w).

(** Once the list is prepared, the call is decided by the uploads, the
    request and the save, in that order; what is returned with a failure is
    the state reached when it happened. *)
Lemma get_completions_steps prompt image_path agent instruction
    s s1 l first rest :
  prepare_history agent instruction s = (Some (), s1) ->
  history_var s1 = Some l -> heap s1 !! l = Some (first :: rest) ->
  get_completions prompt image_path agent instruction s =
    let history := first :: rest in
    let task_id := msg_id first in
    match mapM (upload_image w) (image_paths image_path) with
    | None => (None, s1)
    | Some image_urls =>
        let user := user_turn task_id prompt image_urls in
        let s2 := State (Some l) (<[l := history ++ [user]]> (heap s1))
                        (files s1) in
        match post w (Request task_id (history ++ [user]) (model self)) with
        | None => (None, s2)
        | Some response =>
            let response_text := stream_response json_loads con response [] in
            let assistant := assistant_turn task_id response_text in
            let s3 := State (Some l)
                            (<[l := history ++ [user; assistant]]> (heap s1))
                            (files s1) in
            match save_history (history ++ [user; assistant]) s3 with
            | (Some _, s4) => (response_text, s4)
            | (None, s4) => (None, s4)
            end
        end
    end.
Proof.
  intros Hprep Hv Hl.
  unfold Session.get_completions, get_completions_try.
  unfold mbind at 1. unfold M_bind, bind. rewrite Hprep.
  unfold mbind, M_bind, bind, the_history, lift, append, ret.
  rewrite Hv. simpl. rewrite Hl. simpl.
  destruct (mapM (upload_image w) (image_paths image_path)) as [urls|];
    simpl; [| done].
  rewrite lookup_insert_eq. simpl.
  destruct (post w _) as [resp|]; simpl; [| done].
  rewrite lookup_insert_eq. simpl.
  rewrite insert_insert_eq, <- app_assoc. simpl.
  destruct (save_history _ _) as [[[]|] s4]; done.
Qed.

Lemma get_completions_unprepared prompt image_path agent instruction s s1 :
  prepare_history agent instruction s = (None, s1) ->
  get_completions prompt image_path agent instruction s = (None, s).
Proof.
  intros Hprep. rewrite (prepare_history_raises _ _ _ _ Hprep) in Hprep.
  unfold Session.get_completions, get_completions_try.
  unfold mbind at 1. unfold M_bind, bind. by rewrite Hprep.
Qed.

Lemma save_history_raises root history s :
  save_to self = Some root -> writable w = false -> history <> [] ->
  save_history history s = (None, s).
Proof.
  intros Hroot Hw Hne. unfold Session.save_history. rewrite Hroot.
  unfold mbind, M_bind, bind, lift, read_files, write_file.
  destruct history as [|first rest]; [done |]. simpl. by rewrite Hw.
Qed.

Lemma save_history_returns history s :
  save_to self = None \/ writable w = true -> history <> [] ->
  (save_history history s).1 = Some ().
Proof.
  intros Hcfg Hne. destruct history as [|first rest]; [done |].
  destruct (save_to self) as [root|] eqn:Hroot.
  - destruct Hcfg as [? | Hw]; [done |].
    by destruct (save_history_file root first rest s Hroot Hw) as [H _].
  - unfold Session.save_history. by rewrite Hroot.
Qed.

(** Whatever happens after the uploads, the list returned is the prepared
    one, then the user message, then at most the assistant message. *)
Lemma returned_after_uploads prompt image_path agent instruction
    s s1 l first rest image_urls :
  prepare_history agent instruction s = (Some (), s1) ->
  history_var s1 = Some l -> heap s1 !! l = Some (first :: rest) ->
  mapM (upload_image w) (image_paths image_path) = Some image_urls ->
  exists tail,
    returned_history (get_completions prompt image_path agent instruction s)
      = Some ((first :: rest)
              ++ user_turn (msg_id first) prompt image_urls :: tail) /\
    (tail = [] \/
     exists response_text, tail = [assistant_turn (msg_id first) response_text]).
Proof.
  intros Hprep Hv Hl Hup.
  rewrite (get_completions_steps _ _ _ _ _ _ _ _ _ Hprep Hv Hl), Hup.
  cbv zeta. destruct (post w _) as [resp|].
  - eexists. split; [| right; eauto].
    pose proof (save_history_heap
      ((first :: rest)
       ++ [user_turn (msg_id first) prompt image_urls;
           assistant_turn (msg_id first) (stream_response json_loads con resp [])])
      (State (Some l)
         (<[l := (first :: rest)
                 ++ [user_turn (msg_id first) prompt image_urls;
                     assistant_turn (msg_id first)
                       (stream_response json_loads con resp [])]]> (heap s1))
         (files s1))) as [Hv' Hh'].
    destruct (Session.save_history _ _ _ _) as [[[]|] s4];
      unfold returned_history; simpl in *;
      rewrite Hv', Hh'; simpl; apply lookup_insert_eq.
  - exists []. split; [| by left].
    unfold returned_history. simpl. apply lookup_insert_eq.
Qed.

Lemma Forall_filter_carried (P : message -> Prop) (l : list message) :
  Forall P l -> Forall P (filter carried l).
Proof.
  rewrite !Forall_forall. intros H x [_ Hx]%list_elem_of_filter. auto.
Qed.

Lemma well_formed_snoc first rest m :
  well_formed (first :: rest) -> msg_id m = msg_id first ->
  well_formed ((first :: rest) ++ [m]).
Proof.
  intros [Hrole Hids] Hm. split; [done |].
  apply Forall_app. split; [done | by constructor].
Qed.

Lemma well_formed_turn first rest user tail :
  well_formed (first :: rest) -> msg_id user = msg_id first ->
  Forall (fun m => msg_id m = msg_id first) tail ->
  well_formed ((first :: rest) ++ user :: tail).
Proof.
  intros [Hrole Hids] Hu Ht. split; [done |].
  apply Forall_app. split; [done | by constructor].
Qed.

(** After the preparation, the call works on the one list [history] then
    refers to: that list is returned, holding the prepared messages
    followed by the messages of the turn; no other list changes. *)
Lemma get_completions_turn prompt image_path agent instruction
    s s1 l first rest :
  prepare_history agent instruction s = (Some (), s1) ->
  history_var s1 = Some l -> heap s1 !! l = Some (first :: rest) ->
  let out := get_completions prompt image_path agent instruction s in
  let history := first :: rest in
  history_var out.2 = Some l /\
  heap out.2
    = <[l := history ++ turn_messages history prompt image_path]> (heap s1).
Proof.
  intros Hprep Hv Hl.
  rewrite (get_completions_steps _ _ _ _ _ _ _ _ _ Hprep Hv Hl).
  cbv zeta. unfold Session.turn_messages.
  destruct (mapM (upload_image w) (image_paths image_path)) as [urls|].
  2: { split; [done |]. by rewrite app_nil_r, insert_id. }
  destruct (post w _) as [resp|]; [| done].
  pose proof (save_history_heap
    ((first :: rest)
     ++ [user_turn (msg_id first) prompt urls;
         assistant_turn (msg_id first)
           (stream_response json_loads con resp [])])
    (State (Some l)
       (<[l := (first :: rest)
               ++ [user_turn (msg_id first) prompt urls;
                   assistant_turn (msg_id first)
                     (stream_response json_loads con resp [])]]> (heap s1))
       (files s1))) as [Hv' Hh'].
  destruct (Session.save_history _ _ _ _) as [[[]|] s4]; simpl in *;
    by rewrite Hv', Hh'.
Qed.

(** *** The claims on the turn *)

(** C3: when the system prompt computed for the requested agent and
    instruction is [sp], [get_completions] works as follows.  With no
    history (or an empty one) it builds a new list whose system message
    carries the freshly generated TaskId.  With a history whose first
    content differs from [sp] it builds a new list, leaving the old one as
    it was: the system message reuses the TaskId of the old first message
    and is followed by exactly the old messages of role user or assistant
    after the first, in their order.  With a history whose first content
    equals [sp] it reuses the given list, whose messages stay as they are.
    In each case the list returned is that list, with the messages of the
    turn appended. *)
Theorem C3_history_rebuilt_or_reused prompt image_path agent instruction
    s sp :
  requested_prompt agent instruction = Some sp ->
  let out := get_completions prompt image_path agent instruction s in
  let new_list := fresh (dom (heap s)) in
  ((history_var s = None \/
    exists l, history_var s = Some l /\ heap s !! l = Some []) ->
   let new_history := [system_first (get_task_id w) sp] in
   history_var out.2 = Some new_list /\
   returned_history out
     = Some (new_history ++ turn_messages new_history prompt image_path)) /\
  (forall l first rest,
     history_var s = Some l -> heap s !! l = Some (first :: rest) ->
     (msg_content first <> Plain sp ->
      let new_history :=
        system_first (msg_id first) sp :: filter carried rest in
      history_var out.2 = Some new_list /\ new_list <> l /\
      heap out.2 !! l = Some (first :: rest) /\
      returned_history out
        = Some (new_history
                ++ turn_messages new_history prompt image_path)) /\
     (msg_content first = Plain sp ->
      history_var out.2 = Some l /\
      returned_history out
        = Some ((first :: rest)
                ++ turn_messages (first :: rest) prompt image_path))).
Proof.
  intros Hp out new_list.
  assert (Hnew : forall h0 h,
    prepare_history agent instruction s = (Some (), fresh_state s (h0 :: h)) ->
    history_var out.2 = Some new_list /\
    heap out.2
      = <[new_list := (h0 :: h) ++ turn_messages (h0 :: h) prompt image_path]>
          (heap s) /\
    returned_history out
      = Some ((h0 :: h) ++ turn_messages (h0 :: h) prompt image_path)).
  { intros h0 h Hprep.
    destruct (get_completions_turn prompt image_path agent instruction s _
                new_list h0 h Hprep eq_refl) as [Hv' Hh'];
      [simpl; apply lookup_insert_eq |].
    fold out in Hv', Hh'. unfold returned_history.
    change (snd out) with (out.2). rewrite Hv', Hh'. simpl.
    rewrite insert_insert_eq. split; [done |]. split; [done |].
    apply lookup_insert_eq. }
  split.
  - intros Hnone new_history.
    destruct (Hnew (system_first (get_task_id w) sp) []) as (Hv' & _ & Hret);
      [| done].
    destruct Hnone as [Hv | (l & Hv & Hl)].
    + by apply prepare_history_none.
    + by apply (prepare_history_empty _ _ _ _ l).
  - intros l first rest Hv Hl. split; intros Hc.
    + intros new_history.
      destruct (Hnew (system_first (msg_id first) sp) (filter carried rest))
        as (Hv' & Hh' & Hret).
      { by apply (prepare_history_changed _ _ _ _ l). }
      assert (Hfresh : new_list <> l).
      { intros Heq. apply (is_fresh (dom (heap s))). fold new_list.
        rewrite Heq. apply elem_of_dom. eauto. }
      split; [done |]. split; [done |]. split; [| done].
      rewrite Hh'. by rewrite lookup_insert_ne.
    + pose proof (prepare_history_same _ _ _ sp l first rest Hp Hv Hl Hc)
        as Hprep.
      destruct (get_completions_turn prompt image_path agent instruction s s
                  l first rest Hprep Hv Hl) as [Hv' Hh'].
      fold out in Hv', Hh'. split; [done |].
      unfold returned_history. change (snd out) with (out.2).
      rewrite Hv', Hh'. simpl. apply lookup_insert_eq.
Qed.

(** C1, amended: a call that ends in an error returns a null response with
    the History as it stands when the error occurs.  When the system prompt
    cannot be computed that is the History given, unchanged.  Otherwise it
    is the prepared History (the given one, or the one just built): as it is
    after an upload failure; with the user message of the failed turn
    appended after a failed request; with the user message and an assistant
    message of null content appended when the decoder fails on the body;
    with the user and the assistant message appended after a failure to
    save. *)
Theorem C1_error_returns_history_so_far prompt image_path agent instruction
    s r s1 :
  prepare_history agent instruction s = (r, s1) ->
  (r = None ->
   get_completions prompt image_path agent instruction s = (None, s)) /\
  (forall l first rest image_urls,
     r = Some () ->
     history_var s1 = Some l -> heap s1 !! l = Some (first :: rest) ->
     let history := first :: rest in
     let user := user_turn (msg_id first) prompt image_urls in
     let request := Request (msg_id first) (history ++ [user]) (model self) in
     (mapM (upload_image w) (image_paths image_path) = None ->
      get_completions prompt image_path agent instruction s = (None, s1)) /\
     (mapM (upload_image w) (image_paths image_path) = Some image_urls ->
      post w request = None ->
      get_completions prompt image_path agent instruction s =
        (None, State (Some l) (<[l := history ++ [user]]> (heap s1))
                     (files s1))) /\
     (forall response,
        mapM (upload_image w) (image_paths image_path) = Some image_urls ->
        post w request = Some response ->
        stream_response json_loads con response [] = None ->
        save_to self = None \/ writable w = true ->
        let out := get_completions prompt image_path agent instruction s in
        out.1 = None /\
        returned_history out
          = Some (history ++ [user; assistant_turn (msg_id first) None])) /\
     (forall response root,
        mapM (upload_image w) (image_paths image_path) = Some image_urls ->
        post w request = Some response ->
        save_to self = Some root -> writable w = false ->
        let assistant :=
          assistant_turn (msg_id first)
            (stream_response json_loads con response []) in
        get_completions prompt image_path agent instruction s =
          (None, State (Some l)
                       (<[l := history ++ [user; assistant]]> (heap s1))
                       (files s1)))).
Proof.
  intros Hprep. split.
  - intros ->. by apply (get_completions_unprepared _ _ _ _ _ s1).
  - intros l first rest image_urls -> Hv Hl history user request.
    subst history user request.
    rewrite (get_completions_steps _ _ _ _ _ _ _ _ _ Hprep Hv Hl).
    cbv zeta. split; [by intros -> |]. split; [| split].
    + intros -> Hpost. by rewrite Hpost.
    + intros response -> Hpost Hnone Hcfg. rewrite Hpost, Hnone.
      pose proof (save_history_heap
        ((first :: rest)
         ++ [user_turn (msg_id first) prompt image_urls;
             assistant_turn (msg_id first) None])
        (State (Some l)
           (<[l := (first :: rest)
                   ++ [user_turn (msg_id first) prompt image_urls;
                       assistant_turn (msg_id first) None]]> (heap s1))
           (files s1))) as [Hv' Hh'].
      destruct (Session.save_history _ _ _ _) as [[[]|] s4];
        unfold returned_history; simpl in *; rewrite Hv', Hh'; simpl;
        (split; [done | apply lookup_insert_eq]).
    + intros response root -> Hpost Hroot Hw. rewrite Hpost.
      by rewrite (save_history_raises root).
Qed.

(** C5, amended: with a non-empty text and images (one path or a list of
    paths) that all upload, the user message appended has as content an
    ordered list whose first element is the part
    [{type: text, text: prompt}], followed by one part of shape
    [{type: image_url, file_url: {url: uploaded url}}] per image, in the
    order of the paths; it is in the History returned whatever happens after
    it is appended. *)
Theorem C5_user_content_order prompt image_path agent instruction
    s s1 l first rest image_urls :
  prepare_history agent instruction s = (Some (), s1) ->
  history_var s1 = Some l -> heap s1 !! l = Some (first :: rest) ->
  truthy prompt = true ->
  Forall2 (fun path url => upload_image w path = Some url)
          (image_paths image_path) image_urls ->
  let user :=
    Message (msg_id first) USER
      (Parts (TextPart prompt :: (ImagePart <$> image_urls))) (model self) in
  (exists tail,
     returned_history
       (get_completions prompt image_path agent instruction s)
     = Some ((first :: rest) ++ user :: tail)) /\
  content_json (msg_content user)
  = JArray
      (JObject [(TYPE_KEY, JString TEXT_KEY); (TEXT_KEY, JString prompt)]
       :: ((fun url =>
              JObject [(TYPE_KEY, JString IMAGE_URL);
                       (FILE_URL_KEY, JObject [(URL_KEY, JString url)])])
           <$> image_urls)).
Proof.
  intros Hprep Hv Hl Hprompt Hup user. apply mapM_Some in Hup. split.
  - destruct (returned_after_uploads prompt image_path agent instruction
                s s1 l first rest image_urls Hprep Hv Hl Hup)
      as (tail & Hret & _).
    exists tail. rewrite Hret.
    unfold Session.user_turn, message_content. by rewrite Hprompt.
  - simpl. do 2 f_equal. by rewrite <- list_fmap_compose.
Qed.

(** C6, amended: a call with an empty text and no image to send raises
    nothing for that: it appends a user message whose content is the empty
    list, sends the request, and returns the decoded answer when the server
    answers and the history can be saved. *)
Theorem C6_empty_turn_is_sent prompt image_path agent instruction
    s s1 l first rest :
  prepare_history agent instruction s = (Some (), s1) ->
  history_var s1 = Some l -> heap s1 !! l = Some (first :: rest) ->
  truthy prompt = false -> image_paths image_path = [] ->
  let user := Message (msg_id first) USER (Parts []) (model self) in
  (exists tail,
     returned_history (get_completions prompt image_path agent instruction s)
     = Some ((first :: rest) ++ user :: tail)) /\
  (forall response,
     post w (Request (msg_id first) ((first :: rest) ++ [user]) (model self))
       = Some response ->
     save_to self = None \/ writable w = true ->
     (get_completions prompt image_path agent instruction s).1
       = stream_response json_loads con response []).
Proof.
  intros Hprep Hv Hl Hprompt Hpaths user.
  assert (Hup : mapM (upload_image w) (image_paths image_path) = Some [])
    by (by rewrite Hpaths).
  assert (Huser : user_turn (msg_id first) prompt [] = user).
  { unfold Session.user_turn, message_content. by rewrite Hprompt. }
  split.
  - destruct (returned_after_uploads prompt image_path agent instruction
                s s1 l first rest [] Hprep Hv Hl Hup) as (tail & Hret & _).
    exists tail. by rewrite Hret, Huser.
  - intros response Hpost Hcfg.
    rewrite (get_completions_steps _ _ _ _ _ _ _ _ _ Hprep Hv Hl), Hup.
    cbv zeta. rewrite Huser, Hpost.
    pose proof (save_history_returns
      ((first :: rest)
       ++ [user; assistant_turn (msg_id first)
                   (stream_response json_loads con response [])])
      (State (Some l)
         (<[l := (first :: rest)
                 ++ [user; assistant_turn (msg_id first)
                             (stream_response json_loads con response [])]]>
            (heap s1)) (files s1)) Hcfg) as Hsave.
    destruct (Session.save_history _ _ _ _) as [[[]|] s4]; simpl in *.
    + done.
    + by discriminate Hsave.
Qed.

(** C9: when the call is given no history, an empty one, or one in which
    the first message has role system and every message carries the TaskId
    of the first, then either nothing was built or extended (the system
    prompt could not be computed, and the state is as given), or the History
    returned has a first message of role system and every message in it
    carries the TaskId of the first. *)
Theorem C9_history_invariant prompt image_path agent instruction s :
  (history_var s = None \/
   exists l h, history_var s = Some l /\ heap s !! l = Some h /\
               (h = [] \/ well_formed h)) ->
  let out := get_completions prompt image_path agent instruction s in
  out.2 = s \/
  exists h, returned_history out = Some h /\ well_formed h.
Proof.
  intros Hin out.
  destruct (prepare_history agent instruction s) as [[[]|] s1] eqn:Hprep.
  2: { left. unfold out.
       by rewrite (get_completions_unprepared _ _ _ _ _ _ Hprep). }
  right.
  assert (exists l first rest,
            history_var s1 = Some l /\ heap s1 !! l = Some (first :: rest) /\
            well_formed (first :: rest)) as (l & first & rest & Hv & Hl & Hwf).
  { revert Hprep. unfold Session.prepare_history. run.
    destruct Hin as [Hv | (l & h & Hv & Hl & Hh)].
    - rewrite Hv. simpl. destruct (get_agent _ _ _ _); simpl; [| done].
      intros [= <-]. eexists _, _, _. simpl.
      split; [done |]. split; [apply lookup_insert_eq |].
      split; [done | constructor].
    - rewrite Hv, Hl. simpl. destruct h as [|first rest]; simpl.
      + destruct (get_agent _ _ _ _); simpl; [| done].
        intros [= <-]. eexists _, _, _. simpl.
        split; [done |]. split; [apply lookup_insert_eq |].
        split; [done | constructor].
      + destruct Hh as [? | [Hrole Hids]]; [done |].
        destruct (get_agent _ _ _ _); simpl; [| done].
        destruct (bool_decide _); simpl.
        * intros [= <-]. by exists l, first, rest.
        * intros [= <-]. eexists _, _, _. simpl.
          split; [done |]. split; [apply lookup_insert_eq |].
          split; [done |]. simpl. by apply Forall_filter_carried. }
  unfold out.
  destruct (mapM (upload_image w) (image_paths image_path))
    as [image_urls|] eqn:Hup.
  - destruct (returned_after_uploads prompt image_path agent instruction
                s s1 l first rest image_urls Hprep Hv Hl Hup)
      as (tail & Hret & Htail).
    eexists. split; [exact Hret |].
    apply well_formed_turn; [done | done |].
    destruct Htail as [-> | [rt ->]]; [constructor |].
    by repeat constructor.
  - rewrite (get_completions_steps _ _ _ _ _ _ _ _ _ Hprep Hv Hl), Hup.
    exists (first :: rest). split; [| done].
    unfold returned_history. simpl. by rewrite Hv.
Qed.

(** *** The claims on saving *)

(** C4: when the file of the conversation parses to a list of length N and
    the history in memory has length N+k with k > 0 and the same first N
    messages, saving returns normally and the file then holds the N
    existing messages followed by exactly the last k messages in memory:
    the history in memory itself, nothing twice. *)
Theorem C4_append_merge root history first f existing k s :
  save_to self = Some root -> writable w = true ->
  head history = Some first ->
  files s !! history_path root (msg_id first) = Some f ->
  json_load f = Some existing ->
  take (length existing) history = existing ->
  length history = (length existing + k)%nat -> (0 < k)%nat ->
  let out := save_history history s in
  let new_messages := drop (length existing) history in
  out.1 = Some () /\
  files out.2 !! history_path root (msg_id first)
    = Some (JsonFile (existing ++ new_messages)) /\
  length new_messages = k /\
  existing ++ new_messages = history.
Proof.
  intros Hroot Hw Hhead Hfile Hload Hshare Hlen Hk out new_messages.
  destruct history as [|first' rest]; [done |].
  injection Hhead as ->.
  destruct (save_history_file root first rest s Hroot Hw) as [Hok Hf].
  assert (Hnew : length new_messages = k).
  { unfold new_messages. rewrite length_drop. lia. }
  split; [done |]. split; [| split; [done |]].
  - unfold out. rewrite Hf, Hfile. unfold merge_history. rewrite Hload.
    fold new_messages. destruct new_messages; [simpl in Hnew; lia | done].
  - unfold new_messages. rewrite <- Hshare at 1. apply take_drop.
Qed.

(** C10, amended: when the file of the conversation parses to a list at
    least as long as the history in memory, saving rewrites the file with
    exactly the history in memory; the messages on disk are neither
    compared nor kept. *)
Theorem C10_shorter_history_overwrites root history first f existing s :
  save_to self = Some root -> writable w = true ->
  head history = Some first ->
  files s !! history_path root (msg_id first) = Some f ->
  json_load f = Some existing ->
  (length history <= length existing)%nat ->
  let out := save_history history s in
  out.1 = Some () /\
  files out.2 !! history_path root (msg_id first) = Some (JsonFile history).
Proof.
  intros Hroot Hw Hhead Hfile Hload Hlen out.
  destruct history as [|first' rest]; [done |].
  injection Hhead as ->.
  destruct (save_history_file root first rest s Hroot Hw) as [Hok Hf].
  split; [done |].
  unfold out. rewrite Hf, Hfile. unfold merge_history. rewrite Hload.
  by rewrite drop_ge.
Qed.

End Facts.

(** *** The claims at concrete calls *)

Import Sample TurnSamples.

Lemma C3_history_rebuilt_or_reused_witness :
  (let out := get_completions loads terminal format_append a_client world_ok
                (lit "Hello") NoImage DEFAULT None empty_state in
   history_var out.2 = Some (fresh (dom (heap empty_state))) /\
   returned_history out
     = Some [system_message TASK HELPFUL; user_message TASK (lit "Hello");
             assistant_message TASK (lit "hi")]) /\
  (let out := get_completions loads terminal format_append a_client world_ok
                (lit "Hello") NoImage DEFAULT (Some BRIEF) noted_state in
   history_var out.2 = Some (fresh (dom (heap noted_state))) /\
   fresh (dom (heap noted_state)) <> 0%nat /\
   heap out.2 !! 0%nat = Some noted_history /\
   returned_history out
     = Some [system_message TASK CUSTOM_BRIEF; user_message TASK (lit "a");
             assistant_message TASK (lit "b");
             user_message TASK (lit "Hello");
             assistant_message TASK (lit "hi")]) /\
  (let out := get_completions loads terminal format_append a_client world_ok
                (lit "Hello") NoImage DEFAULT None noted_state in
   history_var out.2 = Some 0%nat /\
   returned_history out
     = Some (noted_history ++ [user_message TASK (lit "Hello");
                               assistant_message TASK (lit "hi")])).
Proof.
  split; [| split].
  - destruct (C3_history_rebuilt_or_reused loads terminal format_append
                a_client world_ok (lit "Hello") NoImage DEFAULT None
                empty_state HELPFUL) as [H _].
    + vm_compute. reflexivity.
    + apply H. left. reflexivity.
  - destruct (C3_history_rebuilt_or_reused loads terminal format_append
                a_client world_ok (lit "Hello") NoImage DEFAULT (Some BRIEF)
                noted_state CUSTOM_BRIEF) as [_ H].
    + vm_compute. reflexivity.
    + destruct (H 0%nat (system_message TASK HELPFUL)
                  [user_message TASK (lit "a");
                   system_message TASK (lit "note");
                   assistant_message TASK (lit "b")]) as [Hchanged _].
      * reflexivity.
      * vm_compute. reflexivity.
      * apply Hchanged. vm_compute. discriminate.
  - destruct (C3_history_rebuilt_or_reused loads terminal format_append
                a_client world_ok (lit "Hello") NoImage DEFAULT None
                noted_state HELPFUL) as [_ H].
    + vm_compute. reflexivity.
    + destruct (H 0%nat (system_message TASK HELPFUL)
                  [user_message TASK (lit "a");
                   system_message TASK (lit "note");
                   assistant_message TASK (lit "b")]) as [_ Hsame].
      * reflexivity.
      * vm_compute. reflexivity.
      * apply Hsame. vm_compute. reflexivity.
Defined.

(** C1, as stated, fails.  A failed request returns the caller's list with
    the user message of the failed turn appended; a body that breaks off
    returns it with the user message and an assistant message of null
    content; an upload failure in a call without history returns a new
    list, not the absent history; a failure to save returns the list with
    both messages of the turn. *)
Lemma C1_counterexample :
  (let out := get_completions loads terminal format_append a_client world_no_post
                (lit "Hello") NoImage DEFAULT None opened_state in
   out.1 = None /\ history_var out.2 = Some 0%nat /\
   returned_history out = Some (opening ++ [user_message TASK (lit "Hello")])
   /\ returned_history out <> Some opening) /\
  (let out := get_completions loads terminal format_append a_client world_broken_body
                (lit "Hello") NoImage DEFAULT None opened_state in
   out.1 = None /\
   returned_history out
     = Some (opening ++ [user_message TASK (lit "Hello");
                         Message TASK ASSISTANT Null OMNI])) /\
  (let out := get_completions loads terminal format_append a_client world_no_upload
                (lit "Hello") (OnePath (lit "cat.png")) DEFAULT None
                empty_state in
   out.1 = None /\ history_var empty_state = None /\
   returned_history out = Some opening) /\
  (let out := get_completions loads terminal format_append a_client world_no_disk
                (lit "Hello") NoImage DEFAULT None opened_state in
   out.1 = None /\
   returned_history out
     = Some (opening ++ [user_message TASK (lit "Hello");
                         assistant_message TASK (lit "hi")])).
Proof.
  repeat split; try (vm_compute; reflexivity). vm_compute. discriminate.
Qed.

Lemma C1_error_returns_history_so_far_witness :
  get_completions loads terminal format_append a_client world_no_post
    (lit "Hello") NoImage DEFAULT None opened_state
  = (None, State (Some 0%nat)
             (<[0%nat := opening
                         ++ [user_turn a_client TASK (lit "Hello") []]]>
                (heap opened_state))
             (files opened_state)).
Proof.
  destruct (C1_error_returns_history_so_far loads terminal format_append a_client
              world_no_post (lit "Hello") NoImage DEFAULT None
              opened_state (Some ()) opened_state) as [_ H].
  - vm_compute. reflexivity.
  - destruct (H 0%nat (system_message TASK HELPFUL) [] [])
      as (_ & Hpost & _).
    + reflexivity.
    + reflexivity.
    + vm_compute. reflexivity.
    + apply Hpost; vm_compute; reflexivity.
Defined.

(** C5, as stated, fails: after a call with a text and one image that
    uploads, the image part of the user message has no key [url] beside
    its type; the url is the value of [url] inside the value of
    [file_url]. *)
Lemma C5_counterexample :
  let out := get_completions loads terminal format_append a_client world_ok
               (lit "what is this?") (OnePath (lit "cat.png")) DEFAULT None
               opened_state in
  let url := lit "https://img/cat.png" in
  let user :=
    Message TASK USER (Parts [TextPart (lit "what is this?"); ImagePart url])
            OMNI in
  upload_image world_ok (lit "cat.png") = Some url /\
  returned_history out
    = Some (opening ++ [user; assistant_message TASK (lit "hi")]) /\
  content_json (msg_content user)
    = JArray [JObject [(TYPE_KEY, JString TEXT_KEY);
                       (TEXT_KEY, JString (lit "what is this?"))];
              JObject [(TYPE_KEY, JString IMAGE_URL);
                       (FILE_URL_KEY, JObject [(URL_KEY, JString url)])]] /\
  part_json (ImagePart url) <> claimed_image_part url /\
  py_getitem URL_KEY (part_json (ImagePart url)) = None /\
  py_getitem URL_KEY (claimed_image_part url) = Some (JString url).
Proof.
  repeat split; try (vm_compute; reflexivity). vm_compute. discriminate.
Qed.

Lemma C5_user_content_order_witness :
  let user :=
    Message TASK USER
      (Parts (TextPart (lit "what is this?")
              :: (ImagePart <$> [lit "https://img/cat.png";
                                 lit "https://img/dog.png"]))) OMNI in
  (exists tail,
     returned_history
       (get_completions loads terminal format_append a_client world_ok
          (lit "what is this?") (PathList [lit "cat.png"; lit "dog.png"])
          DEFAULT None opened_state)
     = Some (opening ++ user :: tail)) /\
  content_json (msg_content user)
  = JArray
      (JObject [(TYPE_KEY, JString TEXT_KEY);
                (TEXT_KEY, JString (lit "what is this?"))]
       :: ((fun url =>
              JObject [(TYPE_KEY, JString IMAGE_URL);
                       (FILE_URL_KEY, JObject [(URL_KEY, JString url)])])
           <$> [lit "https://img/cat.png"; lit "https://img/dog.png"])).
Proof.
  apply (C5_user_content_order loads terminal format_append a_client world_ok
           (lit "what is this?") (PathList [lit "cat.png"; lit "dog.png"])
           DEFAULT None opened_state opened_state 0%nat
           (system_message TASK HELPFUL) []).
  - vm_compute. reflexivity.
  - reflexivity.
  - vm_compute. reflexivity.
  - reflexivity.
  - repeat apply List.Forall2_cons; try apply List.Forall2_nil;
      vm_compute; reflexivity.
Defined.

(** C6, as stated, fails: a call with an empty text and an empty list of
    images raises nothing; it returns the answer, and the list returned
    holds a user message whose content is the empty list. *)
Lemma C6_counterexample :
  let out := get_completions loads terminal format_append a_client world_ok
               [] (PathList []) DEFAULT None opened_state in
  out.1 = Some (lit "hi") /\
  returned_history out
    = Some (opening ++ [Message TASK USER (Parts []) OMNI;
                        assistant_message TASK (lit "hi")]).
Proof. split; vm_compute; reflexivity. Qed.

Lemma C6_empty_turn_is_sent_witness :
  let user := Message TASK USER (Parts []) OMNI in
  (exists tail,
     returned_history
       (get_completions loads terminal format_append a_client world_ok
          [] (PathList []) DEFAULT None opened_state)
     = Some (opening ++ user :: tail)) /\
  (forall response,
     post world_ok (Request TASK (opening ++ [user]) OMNI) = Some response ->
     save_to a_client = None \/ writable world_ok = true ->
     (get_completions loads terminal format_append a_client world_ok
        [] (PathList []) DEFAULT None opened_state).1
       = stream_response loads terminal response []).
Proof.
  apply (C6_empty_turn_is_sent loads terminal format_append a_client world_ok
           [] (PathList []) DEFAULT None opened_state opened_state 0%nat
           (system_message TASK HELPFUL) []); vm_compute; reflexivity.
Defined.

Lemma C9_history_invariant_witness :
  let out := get_completions loads terminal format_append a_client world_ok
               (lit "Hello") NoImage DEFAULT None opened_state in
  out.2 = opened_state \/
  exists h, returned_history out = Some h /\ well_formed h.
Proof.
  apply (C9_history_invariant loads terminal format_append a_client world_ok).
  right. exists 0%nat, opening.
  split; [reflexivity |]. split; [vm_compute; reflexivity |].
  right. split; [reflexivity | constructor].
Defined.

Lemma C4_append_merge_witness :
  let out := save_history a_client world_ok longer_history saved_state in
  let new_messages := drop (length saved_history) longer_history in
  out.1 = Some () /\
  files out.2 !! history_path (lit "out/mindful") TASK
    = Some (JsonFile (saved_history ++ new_messages)) /\
  length new_messages = 2%nat /\
  saved_history ++ new_messages = longer_history.
Proof.
  apply (C4_append_merge a_client world_ok (lit "out/mindful")
           longer_history (system_message TASK HELPFUL)
           (JsonFile saved_history) saved_history 2 saved_state);
    try (vm_compute; reflexivity).
  lia.
Defined.

(** C10, as stated, fails: the file holds three messages, the history in
    memory holds two and differs from them; after saving, the file holds
    the two messages in memory, not the three it held. *)
Lemma C10_counterexample :
  let out := save_history a_client world_ok other_history saved_state in
  files saved_state !! saved_path = Some (JsonFile saved_history) /\
  (length other_history <= length saved_history)%nat /\
  files out.2 !! saved_path = Some (JsonFile other_history) /\
  files out.2 !! saved_path <> Some (JsonFile saved_history).
Proof.
  repeat split; try (vm_compute; reflexivity).
  - simpl. lia.
  - vm_compute. discriminate.
Qed.

Lemma C10_shorter_history_overwrites_witness :
  let out := save_history a_client world_ok other_history saved_state in
  out.1 = Some () /\
  files out.2 !! history_path (lit "out/mindful") TASK
    = Some (JsonFile other_history).
Proof.
  apply (C10_shorter_history_overwrites a_client world_ok (lit "out/mindful")
           other_history (system_message TASK HELPFUL)
           (JsonFile saved_history) saved_history saved_state);
    try (vm_compute; reflexivity).
  simpl. lia.
Defined.

End SessionFacts.

(** * Further properties *)

(** ** The decoder on arbitrary streams *)

Module DecoderExtras.
Import Text Json Decoder Lines TextFacts DecoderFacts.

Lemma foldM_raises {A B} (f : A -> B -> option A) (a : A) l1 x l2 :
  (forall a', f a' x = None) -> foldM f a (l1 ++ x :: l2) = None.
Proof.
  intros Hx. rewrite foldM_app.
  destruct (foldM f a l1) as [a'|]; simpl; [| done]. by rewrite Hx.
Qed.

Section Extras.
Variable json_loads : list N -> option json.
Variable con : console.

Lemma feed_undecodable st c :
  utf8_decode c = None -> feed json_loads con st c = None.
Proof.
  intros Hc. destruct st as [buffer stream_text]. unfold feed.
  destruct c as [|b c]; [done |]. by rewrite Hc.
Qed.


Lemma handle_line_ill_typed payload data stream_text :
  json_loads payload = Some data -> ill_typed data ->
  handle_line json_loads con stream_text (DATA_PREFIX ++ payload) = None.
Proof.
  intros Hj Hbad. rewrite handle_line_prefix, Hj.
  destruct Hbad as [-> | [-> Hget]]; simpl; [done |].
  destruct (py_getitem CONTENT data) as [[]|]; simpl; try done.
  by destruct (Hget s).
Qed.

Lemma adds_no_break line y : adds json_loads line y -> NL ∉ line.
Proof.
  intros [l s Hc | l Hm | l Hnl _]; [| | done].
  - by apply (yields_no_break json_loads l (Some s)), yields_content.
  - by apply (yields_no_break json_loads l None), yields_nothing.
Qed.


(** The text a list of chunks carries, when each chunk decodes. *)
Lemma chunks_text chunks text :
  utf8_decode (concat chunks) = Some text ->
  Forall (fun c => is_Some (utf8_decode c)) chunks ->
  exists texts, decodes_to chunks texts /\ concat texts = text.
Proof.
  intros Hbytes Hchunks.
  destruct (utf8_decode_chunks _ Hchunks) as (texts & Hts & Hall).
  exists texts. split; [done |]. rewrite Hall in Hbytes. by injection Hbytes.
Qed.

(** X1: the result depends on the bytes received, not on where they were
    cut into chunks, as long as every chunk ends between characters. *)
Theorem stream_chunking_irrelevant
    (chunks chunks' : list (list byte)) (stream_text : list N) :
  concat chunks = concat chunks' ->
  Forall (fun c => is_Some (utf8_decode c)) chunks ->
  Forall (fun c => is_Some (utf8_decode c)) chunks' ->
  stream_response json_loads con (Response chunks false) stream_text =
  stream_response json_loads con (Response chunks' false) stream_text.
Proof.
  intros Hsame H1 H2.
  destruct (utf8_decode_chunks _ H1) as (ts & Hts & Hall).
  destruct (utf8_decode_chunks _ H2) as (ts' & Hts' & Hall').
  rewrite Hsame, Hall' in Hall. injection Hall as Heq.
  unfold stream_response.
  rewrite (accumulate_lines json_loads con chunks ts stream_text Hts).
  rewrite (accumulate_lines json_loads con chunks' ts' stream_text Hts').
  by rewrite Heq.
Qed.


(** X3: one data line whose JSON parses but is of the wrong type (a number,
    [null], an object whose [content] is not a string, ...) makes the
    decoder return [None]: the contents decoded before it are lost, and
    nothing after it is looked at. *)
Theorem ill_typed_line_loses_everything
    (before after : list (list N)) (payload : list N) (data : json)
    (ys : list (option (list N))) (last_terminated : bool)
    (chunks : list (list byte)) :
  Forall2 (adds json_loads) before ys ->
  NL ∉ payload -> json_loads payload = Some data -> ill_typed data ->
  Forall (fun l => NL ∉ l) after ->
  utf8_decode (concat chunks)
    = Some (stream_of (before ++ (DATA_PREFIX ++ payload) :: after)
                      last_terminated) ->
  Forall (fun c => is_Some (utf8_decode c)) chunks ->
  stream_response json_loads con (Response chunks false) [] = None.
Proof.
  intros Hy Hnl Hj Hbad Hafter Hbytes Hchunks.
  destruct (chunks_text _ _ Hbytes Hchunks) as (texts & Hts & Htext).
  apply stream_response_raised.
  rewrite (accumulate_lines json_loads con chunks texts [] Hts), Htext.
  destruct (split_stream_of (before ++ (DATA_PREFIX ++ payload) :: after)
              last_terminated) as (extra & -> & _).
  { apply Forall_app. split.
    - eapply Forall2_Forall_l; [apply Hy |].
      apply Forall_forall. intros y _ line. apply adds_no_break.
    - constructor; [by apply prefix_no_break | done]. }
  rewrite <- app_assoc, <- app_comm_cons, foldM_raises; [done |].
  intros t. by apply (handle_line_ill_typed payload data).
Qed.

(** X4: a chunk that does not decode on its own (it ends inside a
    multi-byte character, or holds bytes that are no UTF-8) makes the
    decoder return [None], whatever the other chunks hold. *)
Theorem undecodable_chunk_loses_everything
    (resp : response) (c : list byte) (stream_text : list N) :
  c ∈ chunks resp -> utf8_decode c = None ->
  stream_response json_loads con resp stream_text = None.
Proof.
  intros Hin Hc. apply list_elem_of_split in Hin as (l1 & l2 & Hl).
  apply stream_response_raised.
  unfold accumulate. rewrite Hl, foldM_raises; [done |].
  intros st. by apply feed_undecodable.
Qed.

End Extras.

Import Sample StreamSamples.

Lemma stream_chunking_irrelevant_witness :
  stream_response loads terminal (Response hello_chunks false) [] =
  stream_response loads terminal (Response [concat hello_chunks] false) [].
Proof.
  apply (stream_chunking_irrelevant loads terminal hello_chunks [concat hello_chunks]).
  - vm_compute. reflexivity.
  - sample_chunks.
  - sample_chunks.
Defined.



Lemma ill_typed_line_loses_everything_witness :
  stream_response loads terminal (Response null_chunks false) [] = None.
Proof.
  apply (ill_typed_line_loses_everything loads terminal
           [data_line (content_payload (lit "Hel"))]
           [data_line (content_payload (lit "lo"))]
           (lit "null") JNull [Some (lit "Hel")] true).
  - apply List.Forall2_cons; [| apply List.Forall2_nil].
    apply adds_content, sample_content_line; vm_compute; reflexivity.
  - by apply (bool_decide_unpack _).
  - vm_compute. reflexivity.
  - by left.
  - repeat apply List.Forall_cons; try apply List.Forall_nil;
      by apply (bool_decide_unpack _).
  - vm_compute. reflexivity.
  - sample_chunks.
Defined.

Lemma undecodable_chunk_loses_everything_witness :
  stream_response loads terminal (Response accent_chunks false) [] = None.
Proof.
  apply (undecodable_chunk_loses_everything loads terminal
           (Response accent_chunks false)
           (take 20 (utf8_encode (stream_of [accent_line] true)))).
  - apply list_elem_of_here.
  - vm_compute. reflexivity.
Defined.

End DecoderExtras.

(** ** Saving: what reaches the disk *)

Module SaveExtras.
Import Text Json Decoder Model Session TextFacts SessionFacts.

Section Extras.
Variable self : client.
Variable w : world.

Abbreviation save_history := (save_history self w).

Lemma merge_history_length existing history :
  length (merge_history existing history) = length history.
Proof.
  unfold merge_history. destruct existing as [f|]; [| done].
  destruct (json_load f) as [ex|]; [| done].
  destruct (drop (length ex) history) as [|m new] eqn:Hd; [done |].
  rewrite <- Hd, length_app, length_drop.
  assert (length ex < length history)%nat; [| lia].
  destruct (decide (length ex < length history)%nat) as [|Hge]; [done |].
  rewrite drop_ge in Hd by lia. done.
Qed.

Lemma convert_chat_frame history file_path format s p :
  p <> splitext_root file_path ++ lit ".txt" ->
  p <> splitext_root file_path ++ lit ".md" ->
  files (convert_chat w history file_path format s).2 !! p = files s !! p.
Proof.
  intros Htxt Hmd.
  unfold convert_chat, write_file, mbind, M_bind, bind, lift.
  destruct history as [|m history]; simpl; [done |].
  destruct (str_eqb format TXT_FORMAT).
  { destruct (writable w); simpl; [| done]. by apply lookup_insert_ne. }
  destruct (str_eqb format MD_FORMAT); [| done].
  destruct (writable w); simpl; [| done]. by apply lookup_insert_ne.
Qed.

(** X5: when the file of the conversation does not exist, or exists and
    [json.load] raises [JSONDecodeError] on it, and the files the save
    opens can be written, the save returns normally and the file then holds
    exactly the history in memory. *)
Theorem save_writes_memory_over_missing_or_corrupt root first rest s :
  save_to self = Some root -> writable w = true ->
  let history := first :: rest in
  let file_path := history_path root (msg_id first) in
  files s !! file_path = None \/
  (exists f, files s !! file_path = Some f /\ json_load f = None) ->
  (save_history history s).1 = Some () /\
  files (save_history history s).2 !! file_path = Some (JsonFile history).
Proof.
  intros Hroot Hw history file_path Hfile.
  destruct (save_history_file self w root first rest s Hroot Hw) as [Hok Hf].
  split; [done |]. fold file_path history in Hf. rewrite Hf.
  unfold merge_history.
  destruct Hfile as [-> | (f & -> & ->)]; done.
Qed.


(** X7: a save changes no list object, and no file other than the JSON file
    of the conversation and the two export files beside it. *)
Theorem save_touches_only_its_files root first rest s p :
  save_to self = Some root ->
  let file_path := history_path root (msg_id first) in
  p <> file_path ->
  p <> splitext_root file_path ++ lit ".txt" ->
  p <> splitext_root file_path ++ lit ".md" ->
  let out := save_history (first :: rest) s in
  files out.2 !! p = files s !! p /\ heap out.2 = heap s.
Proof.
  intros Hroot file_path Hp Htxt Hmd out.
  split; [| by destruct (save_history_heap self w (first :: rest) s)].
  unfold out, Session.save_history. rewrite Hroot.
  unfold mbind, M_bind, bind, lift, read_files, write_file. simpl.
  destruct (writable w); simpl; [| done]. fold file_path.
  destruct (save_as self) as [format|].
  - destruct (str_eqb format JSON_FORMAT); simpl.
    + by apply lookup_insert_ne.
    + rewrite convert_chat_frame by done. simpl. by apply lookup_insert_ne.
  - rewrite convert_chat_frame by done. simpl. by apply lookup_insert_ne.
Qed.

End Extras.

Import Sample.

Lemma save_writes_memory_over_missing_or_corrupt_witness :
  (save_history a_client world_ok other_history empty_state).1 = Some () /\
  files (save_history a_client world_ok other_history empty_state).2
    !! history_path (lit "out/mindful") TASK
  = Some (JsonFile other_history).
Proof.
  apply (save_writes_memory_over_missing_or_corrupt a_client world_ok
           (lit "out/mindful") (system_message TASK HELPFUL)
           [user_message TASK (lit "other")] empty_state).
  - reflexivity.
  - reflexivity.
  - left. vm_compute. reflexivity.
Defined.


Lemma save_touches_only_its_files_witness :
  let out := save_history a_client world_ok other_history saved_state in
  files out.2 !! lit "out/mindful/notes.json"
    = files saved_state !! lit "out/mindful/notes.json" /\
  heap out.2 = heap saved_state.
Proof.
  apply (save_touches_only_its_files a_client world_ok (lit "out/mindful")
           (system_message TASK HELPFUL) [user_message TASK (lit "other")]
           saved_state (lit "out/mindful/notes.json"));
    [reflexivity | vm_compute; discriminate ..].
Defined.

End SaveExtras.

(** ** Where the files go *)

Module PathExtras.
Import Text Json Decoder Model Session Setup TextFacts SessionFacts.

Local Open Scope Z_scope.

Lemma rfind_from_app c (a b : list N) i f :
  rfind_from c (a ++ b) i f =
    rfind_from c b (i + Z.of_nat (length a)) (rfind_from c a i f).
Proof.
  revert i f. induction a as [|d a IH]; intros i f; simpl.
  - by rewrite Z.add_0_r.
  - rewrite IH. f_equal. lia.
Qed.

Lemma rfind_from_notin c (b : list N) i f : c ∉ b -> rfind_from c b i f = f.
Proof.
  revert i f. induction b as [|d b IH]; intros i f; simpl; [done |].
  rewrite not_elem_of_cons. intros [Hne Hb]. rewrite IH by done.
  destruct (N.eqb_spec d c); [congruence | done].
Qed.

Lemma rfind_from_range c (s : list N) i f :
  rfind_from c s i f = f \/
  i <= rfind_from c s i f < i + Z.of_nat (length s).
Proof.
  revert i f. induction s as [|d s IH]; intros i f; [by left |].
  cbn [rfind_from length].
  destruct (IH (i + 1) (if (d =? c)%N then i else f)) as [-> | H].
  - destruct (d =? c)%N; [right; lia | by left].
  - right. lia.
Qed.

Lemma rfind_app_notin c (a b : list N) : c ∉ b -> rfind c (a ++ b) = rfind c a.
Proof. intros H. unfold rfind. by rewrite rfind_from_app, rfind_from_notin. Qed.

Lemma rfind_last_occurrence c (a b : list N) :
  c ∉ b -> rfind c (a ++ c :: b) = Z.of_nat (length a).
Proof.
  intros H. unfold rfind. rewrite rfind_from_app. simpl.
  rewrite N.eqb_refl. by rewrite rfind_from_notin.
Qed.

Lemma rfind_range c (s : list N) : -1 <= rfind c s < Z.of_nat (length s).
Proof.
  unfold rfind. destruct (rfind_from_range c s 0 (-1)) as [-> | H]; lia.
Qed.

Lemma rfind_slash_dir_prefix (x : list N) :
  dir_prefix x -> rfind SLASH x + 1 = Z.of_nat (length x).
Proof.
  intros [-> | Hl]; [done |].
  destruct x as [|c x _] using rev_ind; [done |].
  rewrite last_snoc in Hl. injection Hl as ->.
  rewrite rfind_last_occurrence by apply not_elem_of_nil.
  rewrite length_app. simpl. lia.
Qed.

(** [splitext] takes the extension off a name without dot or slash. *)
Lemma splitext_root_json (x name : list N) :
  dir_prefix x -> name <> [] -> SLASH ∉ name -> DOT ∉ name ->
  splitext_root (x ++ name ++ lit ".json") = x ++ name.
Proof.
  intros Hx Hne Hslash Hdot. unfold splitext_root.
  assert (Hsep : rfind SLASH (x ++ name ++ lit ".json") = rfind SLASH x).
  { apply rfind_app_notin. rewrite not_elem_of_app. split; [done |].
    by apply (bool_decide_unpack _). }
  assert (Hd : rfind DOT (x ++ name ++ lit ".json")
               = Z.of_nat (length (x ++ name))).
  { rewrite app_assoc. change (lit ".json") with (DOT :: lit "json").
    apply rfind_last_occurrence. by apply (bool_decide_unpack _). }
  rewrite Hsep, Hd. pose proof (rfind_slash_dir_prefix x Hx) as Hstart.
  rewrite length_app in *.
  assert ((rfind SLASH x <? Z.of_nat (length x + length name)) = true) as ->.
  { apply Z.ltb_lt. lia. }
  replace (Z.to_nat (rfind SLASH x + 1)) with (length x) by lia.
  rewrite Nat2Z.id.
  replace (length x + length name - length x)%nat with (length name) by lia.
  rewrite drop_app_length, take_app_length.
  assert (forallb (N.eqb DOT) name = false) as ->.
  { destruct name as [|c name]; [done |]. cbn [forallb].
    apply not_elem_of_cons in Hdot as [Hc _].
    destruct (N.eqb_spec DOT c); [congruence | done]. }
  rewrite app_assoc. apply take_app_length'. by rewrite length_app.
Qed.

Lemma path_join_shape (a b : list N) :
  startswith [SLASH] b = false ->
  exists x, path_join a b = x ++ b /\ dir_prefix x.
Proof.
  intros Hb. unfold path_join. rewrite Hb.
  destruct a as [|c a]; simpl.
  - exists []. split; [done | by left].
  - destruct (endswith_char SLASH (c :: a)) eqn:He.
    + exists (c :: a). split; [done |]. right.
      unfold endswith_char in He.
      destruct (last (c :: a)) as [d|]; [| done].
      by apply N.eqb_eq in He as ->.
    + exists ((c :: a) ++ [SLASH]). split; [by rewrite <- app_assoc |].
      right. apply last_snoc.
Qed.

Section Extras.
Variable self : client.
Variable w : world.

(** X8: the JSON file of a conversation is [name.json] where the
    extension-less path serves for the exports: with a TaskId that is not
    empty and holds neither slash nor dot, and an export format [txt], a
    successful save writes the JSON file, and beside it the same path with
    [.txt] in place of [.json], holding the rendering of exactly the list
    written to the JSON file. *)
Theorem save_writes_export_beside_json root first rest s :
  save_to self = Some root -> writable w = true ->
  save_as self = Some TXT_FORMAT ->
  msg_id first <> [] -> SLASH ∉ msg_id first -> DOT ∉ msg_id first ->
  let history := first :: rest in
  let file_path := history_path root (msg_id first) in
  let written := merge_history (files s !! file_path) history in
  let out := save_history self w history s in
  exists base,
    file_path = base ++ lit ".json" /\
    files out.2 !! (base ++ lit ".json") = Some (JsonFile written) /\
    files out.2 !! (base ++ lit ".txt") = Some (ExportFile TXT_FORMAT written).
Proof.
  intros Hroot Hw Has Hne Hslash Hdot. cbv zeta.
  destruct (path_join_shape
              (path_join root
                 (take 4 (List.hd [] (split 95 (msg_id first))) ++ lit "-"
                  ++ take 2 (drop 4 (List.hd [] (split 95 (msg_id first))))
                  ++ lit "-"
                  ++ take 2 (drop 6 (List.hd [] (split 95 (msg_id first))))))
              (msg_id first ++ lit ".json")) as (x & Hpath & Hx).
  { destruct (msg_id first) as [|c t]; [done |].
    apply not_elem_of_cons in Hslash as [Hc _].
    change (startswith [SLASH] ((c :: t) ++ lit ".json"))
      with ((SLASH =? c)%N && true).
    destruct (N.eqb_spec SLASH c); [congruence | done]. }
  fold (history_path root (msg_id first)) in Hpath.
  exists (x ++ msg_id first). rewrite <- app_assoc, <- Hpath.
  split; [done |].
  destruct (save_history_file self w root first rest s Hroot Hw) as [_ Hf].
  split; [exact Hf |].
  unfold save_history. rewrite Hroot, Has.
  unfold mbind, M_bind, bind, lift, read_files, write_file. simpl.
  rewrite Hw. simpl. unfold convert_chat.
  unfold mbind, M_bind, bind, lift, write_file.
  set (written := merge_history _ _).
  assert (Hwritten : written <> []).
  { intros H. apply (f_equal length) in H. unfold written in H.
    rewrite SaveExtras.merge_history_length in H. done. }
  destruct written as [|m written']; [done |]. simpl. rewrite Hw. simpl.
  rewrite Hpath at 1. rewrite (splitext_root_json x) by done.
  apply lookup_insert_eq.
Qed.

End Extras.

Local Open Scope N_scope.

Lemma digit_range c : is_digit c = true -> 48 <= c <= 57.
Proof.
  unfold is_digit. intros [H1 H2]%andb_true_iff.
  apply N.leb_le in H1. apply N.leb_le in H2. lia.
Qed.

Lemma path_join_plain (a b : list N) :
  a <> [] -> last a <> Some SLASH -> startswith [SLASH] b = false ->
  path_join a b = a ++ [SLASH] ++ b.
Proof.
  intros Ha Hl Hb. unfold path_join. rewrite Hb.
  destruct a as [|c a]; [done |]. cbn [truthy negb orb].
  unfold endswith_char. destruct (last (c :: a)) as [d|]; [| done].
  destruct (N.eqb_spec d SLASH); [congruence | done].
Qed.

Lemma startswith_slash_cons c (s : list N) :
  c <> SLASH -> startswith [SLASH] (c :: s) = false.
Proof.
  intros Hc. cbn [startswith].
  destruct (N.eqb_spec SLASH c); [congruence | done].
Qed.

(** X9: for an identifier as [__get_task_id] builds it from a timestamp
    that starts with eight digits and an underscore, and a save directory
    that is not empty and does not end in a slash, the JSON file of the
    conversation is [<save directory>/YYYY-MM-DD/<TaskId>.json], the date
    being the eight digits with two dashes put in. *)
Theorem generated_id_path (root date time uuid : list N) :
  length date = 8%nat -> Forall (fun c => is_digit c = true) date ->
  root <> [] -> last root <> Some SLASH ->
  let task_id := generate_task_id (date ++ lit "_" ++ time) uuid in
  history_path root task_id =
    root ++ lit "/"
    ++ (take 4 date ++ lit "-" ++ take 2 (drop 4 date) ++ lit "-"
        ++ drop 6 date)
    ++ lit "/" ++ task_id ++ lit ".json".
Proof.
  intros Hlen Hdigits Hroot Hlast task_id.
  destruct date as [|y1 [|y2 [|y3 [|y4 [|m1 [|m2 [|d1 [|d2 [|]]]]]]]]];
    try discriminate Hlen.
  assert (H95 : 95 ∉ [y1; y2; y3; y4; m1; m2; d1; d2]).
  { intros Hin. rewrite Forall_forall in Hdigits.
    apply Hdigits, digit_range in Hin. lia. }
  assert (Hy1 : y1 <> SLASH).
  { inversion Hdigits as [|? ? H _]; subst. apply digit_range in H.
    unfold SLASH. lia. }
  assert (Hd2 : d2 <> SLASH).
  { rewrite Forall_forall in Hdigits.
    assert (d2 ∈ [y1; y2; y3; y4; m1; m2; d1; d2]) as Hin
      by (apply list_elem_of_In; simpl; tauto).
    apply Hdigits, digit_range in Hin. unfold SLASH. lia. }
  assert (Hid : task_id = [y1; y2; y3; y4; m1; m2; d1; d2]
                          ++ 95 :: (time ++ lit "_" ++ take 8 uuid)).
  { unfold task_id, generate_task_id. by rewrite <- !app_assoc. }
  unfold history_path. rewrite Hid at 1 2 3.
  rewrite (split_line _ _ _ H95). cbn [List.hd take drop].
  rewrite (path_join_plain root); [| done | done |].
  2: { change (startswith [SLASH] (y1 :: [y2; y3; y4] ++ lit "-" ++ [m1; m2]
                                   ++ lit "-" ++ [d1; d2]) = false).
       by apply startswith_slash_cons. }
  rewrite path_join_plain.
  - rewrite <- !app_assoc. reflexivity.
  - by destruct root.
  - rewrite (last_app_Some _ _ d2); [congruence |].
    rewrite (last_app_Some _ _ d2); [done |]. reflexivity.
  - unfold task_id, generate_task_id. by apply startswith_slash_cons.
Qed.

Lemma generated_id_path_witness :
  history_path (lit "out/mindful")
    (generate_task_id (lit "20250101" ++ lit "_" ++ lit "120000")
                      (lit "ab12cd34-e5f6-4a7b-8c9d-0123456789ab")) =
    lit "out/mindful" ++ lit "/"
    ++ (take 4 (lit "20250101") ++ lit "-"
        ++ take 2 (drop 4 (lit "20250101")) ++ lit "-"
        ++ drop 6 (lit "20250101"))
    ++ lit "/"
    ++ generate_task_id (lit "20250101" ++ lit "_" ++ lit "120000")
         (lit "ab12cd34-e5f6-4a7b-8c9d-0123456789ab")
    ++ lit ".json".
Proof.
  apply (generated_id_path (lit "out/mindful") (lit "20250101")
           (lit "120000") (lit "ab12cd34-e5f6-4a7b-8c9d-0123456789ab")).
  - reflexivity.
  - repeat apply List.Forall_cons; try apply List.Forall_nil; reflexivity.
  - discriminate.
  - vm_compute. discriminate.
Defined.

Lemma save_writes_export_beside_json_witness :
  exists base,
    history_path (lit "out/mindful") Sample.TASK = base ++ lit ".json" /\
    files (save_history (Client ∅ Sample.OMNI (Some (lit "out/mindful"))
                                (Some TXT_FORMAT))
             Sample.world_ok Sample.other_history Sample.saved_state).2
      !! (base ++ lit ".json")
    = Some (JsonFile
              (merge_history
                 (files Sample.saved_state
                    !! history_path (lit "out/mindful") Sample.TASK)
                 Sample.other_history)) /\
    files (save_history (Client ∅ Sample.OMNI (Some (lit "out/mindful"))
                                (Some TXT_FORMAT))
             Sample.world_ok Sample.other_history Sample.saved_state).2
      !! (base ++ lit ".txt")
    = Some (ExportFile TXT_FORMAT
              (merge_history
                 (files Sample.saved_state
                    !! history_path (lit "out/mindful") Sample.TASK)
                 Sample.other_history)).
Proof.
  apply (save_writes_export_beside_json
           (Client ∅ Sample.OMNI (Some (lit "out/mindful")) (Some TXT_FORMAT))
           Sample.world_ok (lit "out/mindful")
           (Sample.system_message Sample.TASK Sample.HELPFUL)
           [Sample.user_message Sample.TASK (lit "other")]
           Sample.saved_state).
  - reflexivity.
  - reflexivity.
  - reflexivity.
  - discriminate.
  - by apply (bool_decide_unpack _).
  - by apply (bool_decide_unpack _).
Defined.

End PathExtras.

(** ** Whole turns *)

Module TurnExtras.
Import Text Json Decoder Model Session Setup TextFacts SessionFacts SaveExtras.

Section Extras.
Variable json_loads : list N -> option json.
Variable con : console.
Variable str_format : list N -> list N -> option (list N).
Variable self : client.

Abbreviation get_completions := (get_completions json_loads con str_format self).
Abbreviation prepare_history := (prepare_history str_format self).
Abbreviation requested_prompt := (requested_prompt str_format self).
Abbreviation system_first := (system_first self).
Abbreviation user_turn := (user_turn self).
Abbreviation assistant_turn := (assistant_turn self).

(** After the list is prepared, the call changes one list object only: the
    one [history] then refers to, which is the one returned. *)
Lemma get_completions_heap w prompt image_path agent instruction
    s s1 l first rest :
  prepare_history w agent instruction s = (Some (), s1) ->
  history_var s1 = Some l -> heap s1 !! l = Some (first :: rest) ->
  let out := get_completions w prompt image_path agent instruction s in
  history_var out.2 = Some l /\
  exists v, heap out.2 = <[l := v]> (heap s1).
Proof.
  intros Hprep Hv Hl.
  rewrite (get_completions_steps _ _ _ _ _ _ _ _ _ _ _ _ _ _ Hprep Hv Hl).
  cbv zeta.
  destruct (mapM (upload_image w) (image_paths image_path)) as [urls|].
  2: { split; [done |]. exists (first :: rest). by rewrite insert_id. }
  destruct (post w _) as [resp|]; [| simpl; eauto].
  pose proof (save_history_heap self w
    ((first :: rest)
     ++ [user_turn (msg_id first) prompt urls;
         assistant_turn (msg_id first) (stream_response json_loads con resp [])])
    (State (Some l)
       (<[l := (first :: rest)
               ++ [user_turn (msg_id first) prompt urls;
                   assistant_turn (msg_id first)
                     (stream_response json_loads con resp [])]]> (heap s1))
       (files s1))) as [Hv' Hh'].
  destruct (Session.save_history _ _ _ _) as [[[]|] s4]; simpl in *;
    rewrite Hv', Hh'; eauto.
Qed.

(** X10: the first turn of a conversation, when all goes well and no file
    of that TaskId exists: the call returns the decoded text, the History
    returned is the system message, the user message and the assistant
    message, and the file of the conversation holds exactly these three. *)
Theorem first_turn_end_to_end w prompt image_path agent instruction s
    sp image_urls response text root :
  history_var s = None ->
  requested_prompt agent instruction = Some sp ->
  mapM (upload_image w) (image_paths image_path) = Some image_urls ->
  let task_id := get_task_id w in
  let system := system_first task_id sp in
  let user := user_turn task_id prompt image_urls in
  let assistant := assistant_turn task_id (Some text) in
  post w (Request task_id [system; user] (model self)) = Some response ->
  stream_response json_loads con response [] = Some text ->
  save_to self = Some root -> writable w = true ->
  files s !! history_path root task_id = None ->
  let out := get_completions w prompt image_path agent instruction s in
  out.1 = Some text /\
  returned_history out = Some [system; user; assistant] /\
  files out.2 !! history_path root task_id
    = Some (JsonFile [system; user; assistant]).
Proof.
  intros Hv Hp Hup task_id system user assistant Hpost Htext Hroot Hw Hfile.
  pose proof (prepare_history_none str_format self w agent instruction s sp
                Hp Hv) as Hprep.
  cbv zeta.
  rewrite (get_completions_steps json_loads con str_format self w prompt
             image_path agent instruction s _ (fresh (dom (heap s)))
             system [] Hprep eq_refl).
  2: { simpl. apply lookup_insert_eq. }
  cbv zeta. rewrite Hup. fold task_id user. simpl app.
  change (msg_id system) with task_id. fold user. rewrite Hpost, Htext.
  fold assistant.
  pose proof (save_history_heap self w [system; user; assistant]
    (State (Some (fresh (dom (heap s))))
       (<[fresh (dom (heap s)) := [system; user; assistant]]>
          (heap (fresh_state s [system]))) (files (fresh_state s [system]))))
    as [Hv' Hh'].
  destruct (save_history_file self w root system [user; assistant]
    (State (Some (fresh (dom (heap s))))
       (<[fresh (dom (heap s)) := [system; user; assistant]]>
          (heap (fresh_state s [system]))) (files (fresh_state s [system])))
    Hroot Hw) as [Hok Hf].
  simpl files in Hf. change (msg_id system) with task_id in Hf.
  rewrite Hfile in Hf. unfold merge_history in Hf.
  destruct (Session.save_history _ _ _ _) as [[[]|] s4]; simpl in *;
    [| done].
  split; [done |]. split; [| done].
  unfold returned_history. simpl. rewrite Hv', Hh'. simpl.
  apply lookup_insert_eq.
Qed.

(** X11: which list object a call works on.  When the system prompt
    differs from the one in the History given, the caller's list is never
    changed, whatever happens later in the call, and another list is
    returned; when it is the same, the list returned is the caller's own,
    which the call has changed in place once the uploads have succeeded. *)
Theorem callers_list_kept_or_changed_in_place w prompt image_path agent
    instruction s sp l first rest :
  history_var s = Some l -> heap s !! l = Some (first :: rest) ->
  requested_prompt agent instruction = Some sp ->
  let out := get_completions w prompt image_path agent instruction s in
  (msg_content first <> Plain sp ->
   heap out.2 !! l = Some (first :: rest) /\ history_var out.2 <> Some l) /\
  (msg_content first = Plain sp ->
   history_var out.2 = Some l /\
   forall image_urls,
     mapM (upload_image w) (image_paths image_path) = Some image_urls ->
     exists tail,
       heap out.2 !! l
       = Some ((first :: rest)
               ++ user_turn (msg_id first) prompt image_urls :: tail)).
Proof.
  intros Hv Hl Hp out. split; intros Hc.
  - pose proof (prepare_history_changed str_format self w agent instruction
                  s sp l first rest Hp Hv Hl Hc) as Hprep.
    assert (Hfresh : fresh (dom (heap s)) <> l).
    { intros Heq. apply (is_fresh (dom (heap s))). rewrite Heq.
      apply elem_of_dom. eauto. }
    destruct (get_completions_heap w prompt image_path agent instruction s _
                (fresh (dom (heap s))) (system_first (msg_id first) sp)
                (filter carried rest) Hprep eq_refl)
      as [Hv' [v Hh']]; [simpl; apply lookup_insert_eq |].
    fold out in Hv', Hh'. rewrite Hv', Hh'. split; [| congruence].
    rewrite lookup_insert_ne by done. simpl.
    by rewrite lookup_insert_ne.
  - pose proof (prepare_history_same str_format self w agent instruction
                  s sp l first rest Hp Hv Hl Hc) as Hprep.
    destruct (get_completions_heap w prompt image_path agent instruction s s
                l first rest Hprep Hv Hl) as [Hv' _].
    split; [done |]. intros image_urls Hup.
    destruct (returned_after_uploads json_loads con str_format self w prompt
                image_path agent instruction s s l first rest image_urls
                Hprep Hv Hl Hup) as (tail & Hret & _).
    exists tail. unfold returned_history in Hret. simpl in Hret, Hv'.
    rewrite Hv' in Hret. exact Hret.
Qed.

(** Once the server has answered, the list returned holds both messages of
    the turn; when the history can be saved the decoder's result is
    returned and the file holds the merge of what it held with that list. *)
Lemma turn_after_answer w prompt image_path agent instruction
    s s1 l first rest image_urls response :
  prepare_history w agent instruction s = (Some (), s1) ->
  history_var s1 = Some l -> heap s1 !! l = Some (first :: rest) ->
  mapM (upload_image w) (image_paths image_path) = Some image_urls ->
  let user := user_turn (msg_id first) prompt image_urls in
  let assistant :=
    assistant_turn (msg_id first) (stream_response json_loads con response []) in
  post w (Request (msg_id first) ((first :: rest) ++ [user]) (model self))
    = Some response ->
  let out := get_completions w prompt image_path agent instruction s in
  returned_history out = Some ((first :: rest) ++ [user; assistant]) /\
  (forall root,
     save_to self = Some root -> writable w = true ->
     out.1 = stream_response json_loads con response [] /\
     files out.2 !! history_path root (msg_id first)
     = Some (JsonFile
               (merge_history (files s1 !! history_path root (msg_id first))
                  ((first :: rest) ++ [user; assistant])))).
Proof.
  intros Hprep Hv Hl Hup user assistant Hpost. cbv zeta.
  rewrite (get_completions_steps _ _ _ _ _ _ _ _ _ _ _ _ _ _ Hprep Hv Hl), Hup.
  cbv zeta. fold user. rewrite Hpost. fold assistant.
  set (s3 := State (Some l)
               (<[l := (first :: rest) ++ [user; assistant]]> (heap s1))
               (files s1)).
  pose proof (save_history_heap self w
                ((first :: rest) ++ [user; assistant]) s3) as [Hv' Hh'].
  split.
  - destruct (Session.save_history _ _ _ _) as [[[]|] s4];
      unfold returned_history; simpl in *; rewrite Hv', Hh'; simpl;
      apply lookup_insert_eq.
  - intros root Hroot Hw.
    destruct (save_history_file self w root first
                (rest ++ [user; assistant]) s3 Hroot Hw) as [Hok Hf].
    change (first :: rest ++ [user; assistant])
      with ((first :: rest) ++ [user; assistant]) in Hok, Hf.
    destruct (Session.save_history _ _ _ _) as [[[]|] s4]; simpl in *;
      [done | done].
Qed.

(** X12: a turn whose request fails leaves its user message in the list;
    the next turn on that list sends both user messages in a row, and the
    History then holds the two user messages followed by the one assistant
    message. *)
Theorem failed_request_then_retry w1 w2 prompt1 prompt2 image_path1
    image_path2 agent instruction s sp l first rest urls1 urls2 response :
  history_var s = Some l -> heap s !! l = Some (first :: rest) ->
  requested_prompt agent instruction = Some sp ->
  msg_content first = Plain sp ->
  mapM (upload_image w1) (image_paths image_path1) = Some urls1 ->
  mapM (upload_image w2) (image_paths image_path2) = Some urls2 ->
  let history := first :: rest in
  let user1 := user_turn (msg_id first) prompt1 urls1 in
  let user2 := user_turn (msg_id first) prompt2 urls2 in
  post w1 (Request (msg_id first) (history ++ [user1]) (model self)) = None ->
  post w2 (Request (msg_id first) (history ++ [user1; user2]) (model self))
    = Some response ->
  let out1 := get_completions w1 prompt1 image_path1 agent instruction s in
  let out2 :=
    get_completions w2 prompt2 image_path2 agent instruction out1.2 in
  out1.1 = None /\
  returned_history out2
  = Some (history
          ++ [user1; user2;
              assistant_turn (msg_id first)
                (stream_response json_loads con response [])]).
Proof.
  intros Hv Hl Hp Hc Hup1 Hup2 history user1 user2 Hpost1 Hpost2. cbv zeta.
  pose proof (prepare_history_same str_format self w1 agent instruction
                s sp l first rest Hp Hv Hl Hc) as Hprep1.
  rewrite (get_completions_steps _ _ _ _ _ _ _ _ _ _ _ _ _ _ Hprep1 Hv Hl), Hup1.
  cbv zeta. fold history user1. rewrite Hpost1. split; [done |].
  set (s2 := State (Some l) (<[l := history ++ [user1]]> (heap s)) (files s)).
  assert (Hl2 : heap s2 !! l = Some (first :: (rest ++ [user1])))
    by apply lookup_insert_eq.
  pose proof (prepare_history_same str_format self w2 agent instruction
                s2 sp l first (rest ++ [user1]) Hp eq_refl Hl2 Hc) as Hprep2.
  destruct (turn_after_answer w2 prompt2 image_path2 agent instruction
              s2 s2 l first (rest ++ [user1]) urls2 response
              Hprep2 eq_refl Hl2 Hup2) as [Hret _].
  { fold user2. unfold history in Hpost2. simpl in *.
    by rewrite <- app_assoc. }
  simpl fst. simpl snd.
  rewrite Hret. fold user2. unfold history. simpl. by rewrite <- app_assoc.
Qed.

(** X13: a successful turn with an unchanged agent, when the file of the
    conversation is absent or holds the History as it was at entry: the
    file then holds exactly the History returned. *)
Theorem turn_keeps_file_in_step w prompt image_path agent instruction
    s sp l first rest image_urls response root :
  history_var s = Some l -> heap s !! l = Some (first :: rest) ->
  requested_prompt agent instruction = Some sp ->
  msg_content first = Plain sp ->
  mapM (upload_image w) (image_paths image_path) = Some image_urls ->
  let user := user_turn (msg_id first) prompt image_urls in
  post w (Request (msg_id first) ((first :: rest) ++ [user]) (model self))
    = Some response ->
  save_to self = Some root -> writable w = true ->
  files s !! history_path root (msg_id first) = None \/
  files s !! history_path root (msg_id first)
    = Some (JsonFile (first :: rest)) ->
  let out := get_completions w prompt image_path agent instruction s in
  exists h,
    returned_history out = Some h /\
    files out.2 !! history_path root (msg_id first) = Some (JsonFile h).
Proof.
  intros Hv Hl Hp Hc Hup user Hpost Hroot Hw Hfile. cbv zeta.
  pose proof (prepare_history_same str_format self w agent instruction
                s sp l first rest Hp Hv Hl Hc) as Hprep.
  destruct (turn_after_answer w prompt image_path agent instruction
              s s l first rest image_urls response Hprep Hv Hl Hup Hpost)
    as [Hret Hsave].
  destruct (Hsave root Hroot Hw) as [_ Hf].
  eexists. split; [exact Hret |]. rewrite Hf. do 2 f_equal.
  unfold merge_history. destruct Hfile as [-> | ->]; [done |].
  simpl json_load. cbv iota beta.
  rewrite drop_app_length. done.
Qed.



End Extras.

Import Sample TurnSamples.


Lemma first_turn_end_to_end_witness :
  let out := get_completions loads terminal format_append a_client world_ok
               (lit "Hello") NoImage DEFAULT None empty_state in
  out.1 = Some (lit "hi") /\
  returned_history out
    = Some [system_first a_client TASK HELPFUL;
            user_turn a_client TASK (lit "Hello") [];
            assistant_turn a_client TASK (Some (lit "hi"))] /\
  files out.2 !! history_path (lit "out/mindful") TASK
    = Some (JsonFile [system_first a_client TASK HELPFUL;
                      user_turn a_client TASK (lit "Hello") [];
                      assistant_turn a_client TASK (Some (lit "hi"))]).
Proof.
  apply (first_turn_end_to_end loads terminal format_append a_client world_ok
           (lit "Hello") NoImage DEFAULT None empty_state HELPFUL []
           hi_response (lit "hi") (lit "out/mindful"));
    vm_compute; reflexivity.
Defined.

Lemma callers_list_kept_or_changed_in_place_witness :
  let out := get_completions loads terminal format_append a_client world_ok
               (lit "Hello") NoImage DEFAULT None opened_state in
  (msg_content (system_message TASK HELPFUL) <> Plain HELPFUL ->
   heap out.2 !! 0%nat = Some (system_message TASK HELPFUL :: []) /\
   history_var out.2 <> Some 0%nat) /\
  (msg_content (system_message TASK HELPFUL) = Plain HELPFUL ->
   history_var out.2 = Some 0%nat /\
   forall image_urls,
     mapM (upload_image world_ok) (image_paths NoImage) = Some image_urls ->
     exists tail,
       heap out.2 !! 0%nat
       = Some ((system_message TASK HELPFUL :: [])
               ++ user_turn a_client
                    (msg_id (system_message TASK HELPFUL)) (lit "Hello")
                    image_urls :: tail)).
Proof.
  apply (callers_list_kept_or_changed_in_place loads terminal format_append a_client
           world_ok (lit "Hello") NoImage DEFAULT None opened_state HELPFUL
           0%nat (system_message TASK HELPFUL) []); vm_compute; reflexivity.
Defined.

Lemma failed_request_then_retry_witness :
  let out1 := get_completions loads terminal format_append a_client world_no_post
                (lit "Hello") NoImage DEFAULT None opened_state in
  let out2 := get_completions loads terminal format_append a_client world_ok
                (lit "Again") NoImage DEFAULT None out1.2 in
  out1.1 = None /\
  returned_history out2
  = Some ((system_message TASK HELPFUL :: [])
          ++ [user_turn a_client (msg_id (system_message TASK HELPFUL))
                (lit "Hello") [];
              user_turn a_client (msg_id (system_message TASK HELPFUL))
                (lit "Again") [];
              assistant_turn a_client (msg_id (system_message TASK HELPFUL))
                (stream_response loads terminal hi_response [])]).
Proof.
  apply (failed_request_then_retry loads terminal format_append a_client
           world_no_post world_ok (lit "Hello") (lit "Again") NoImage NoImage
           DEFAULT None opened_state HELPFUL 0%nat
           (system_message TASK HELPFUL) [] [] [] hi_response);
    vm_compute; reflexivity.
Defined.

Lemma turn_keeps_file_in_step_witness :
  let out := get_completions loads terminal format_append a_client world_ok
               (lit "Hello") NoImage DEFAULT None opened_state in
  exists h,
    returned_history out = Some h /\
    files out.2
      !! history_path (lit "out/mindful")
           (msg_id (system_message TASK HELPFUL))
    = Some (JsonFile h).
Proof.
  apply (turn_keeps_file_in_step loads terminal format_append a_client world_ok
           (lit "Hello") NoImage DEFAULT None opened_state HELPFUL 0%nat
           (system_message TASK HELPFUL) [] [] hi_response
           (lit "out/mindful")); try (vm_compute; reflexivity).
  left. vm_compute. reflexivity.
Defined.


End TurnExtras.

(** ** The parser reads back what the encoder writes *)

Module DumpFacts.
Import Text Json Decoder Model Loader Dump.

(** [lia] with quotients and remainders taken as unknowns. *)
Ltac opaque_lia :=
  repeat match goal with
         | |- context [?a / ?b] => generalize dependent (a / b); intros
         | |- context [?a mod ?b] => generalize dependent (a mod b); intros
         | H : context [?a / ?b] |- _ => generalize dependent (a / b); intros
         | H : context [?a mod ?b] |- _ =>
             generalize dependent (a mod b); intros
         end; lia.

Lemma hex_val_digit d : d < 16 -> hex_val (hex_digit d) = Some d.
Proof.
  intros Hd. unfold hex_val, hex_digit, is_digit.
  destruct (N.ltb_spec d 10).
  - replace ((48 <=? 48 + d) && (48 + d <=? 57)) with true.
    + f_equal. lia.
    + symmetry. apply andb_true_iff. split; apply N.leb_le; lia.
  - replace ((48 <=? 87 + d) && (87 + d <=? 57)) with false.
    + replace ((97 <=? 87 + d) && (87 + d <=? 102)) with true.
      * f_equal. lia.
      * symmetry. apply andb_true_iff. split; apply N.leb_le; lia.
    + symmetry. apply andb_false_iff. right. apply N.leb_gt. lia.
Qed.

Lemma hex_split c :
  c / 4096 * 4096 + (c / 256) mod 16 * 256 + (c / 16) mod 16 * 16 + c mod 16
  = c.
Proof.
  pose proof (N.div_mod c 16 ltac:(lia)) as H1.
  pose proof (N.div_mod (c / 16) 16 ltac:(lia)) as H2.
  pose proof (N.div_mod (c / 16 / 16) 16 ltac:(lia)) as H3.
  rewrite !N.Div0.div_div in H2, H3.
  change (16 * 16) with 256 in *.
  rewrite N.Div0.div_div in H3. change (256 * 16) with 4096 in H3. lia.
Qed.

Lemma hex4_u_escape c r :
  c < 65536 -> hex4 (drop 2 (u_escape c) ++ r) = Some (c, r).
Proof.
  intros Hc. unfold u_escape. cbn [drop app hex4].
  assert (c / 4096 < 16) by (apply N.Div0.div_lt_upper_bound; lia).
  assert ((c / 256) mod 16 < 16) by (apply N.mod_lt; lia).
  assert ((c / 16) mod 16 < 16) by (apply N.mod_lt; lia).
  assert (c mod 16 < 16) by (apply N.mod_lt; lia).
  rewrite !hex_val_digit by done. simpl. do 2 f_equal. apply hex_split.
Qed.

Lemma unicode_escape_bmp c r :
  c < 65536 -> is_surrogate c = false ->
  unicode_escape (drop 2 (u_escape c) ++ r) = Some (c, r).
Proof.
  intros Hc Hs. unfold unicode_escape. rewrite hex4_u_escape by done.
  simpl.
  assert ((55296 <=? c) && (c <=? 56319) = false) as ->; [| done].
  apply andb_false_iff. unfold is_surrogate in Hs.
  apply andb_false_iff in Hs as [Hs | Hs]; [by left | right].
  apply N.leb_gt. apply N.ltb_ge in Hs. lia.
Qed.

Lemma unicode_escape_astral c r :
  65536 <= c -> c <= 1114111 ->
  unicode_escape (drop 2 (u_escape (55296 + (c - 65536) / 1024))
                  ++ u_escape (56320 + (c - 65536) mod 1024) ++ r)
  = Some (c, r).
Proof.
  intros Hlo Hhi. unfold unicode_escape.
  assert ((c - 65536) / 1024 < 1024)
    by (apply N.Div0.div_lt_upper_bound; lia).
  assert ((c - 65536) mod 1024 < 1024) by (apply N.mod_lt; lia).
  rewrite hex4_u_escape by opaque_lia. cbn [mbind option_bind].
  assert ((55296 <=? 55296 + (c - 65536) / 1024)
          && (55296 + (c - 65536) / 1024 <=? 56319) = true) as ->.
  { apply andb_true_iff. split; apply N.leb_le; opaque_lia. }
  change (startswith (lit "\u")
            (u_escape (56320 + (c - 65536) mod 1024) ++ r)) with true.
  change (drop 2 (u_escape (56320 + (c - 65536) mod 1024) ++ r))
    with (drop 2 (u_escape (56320 + (c - 65536) mod 1024)) ++ r).
  rewrite hex4_u_escape by opaque_lia. cbn [andb mbind option_bind].
  assert ((56320 <=? 56320 + (c - 65536) mod 1024)
          && (56320 + (c - 65536) mod 1024 <=? 57343) = true) as ->.
  { apply andb_true_iff. split; apply N.leb_le; opaque_lia. }
  do 2 f_equal.
  pose proof (N.div_mod (c - 65536) 1024 ltac:(lia)).
  replace (55296 + (c - 65536) / 1024 - 55296) with ((c - 65536) / 1024)
    by opaque_lia.
  replace (56320 + (c - 65536) mod 1024 - 56320) with ((c - 65536) mod 1024)
    by opaque_lia.
  lia.
Qed.

Lemma scalar_spec c :
  scalar c = true -> c <= 1114111 /\ is_surrogate c = false.
Proof.
  unfold scalar. intros [H1 H2]%andb_true_iff. split.
  - by apply N.leb_le.
  - by apply negb_true_iff.
Qed.

Lemma scan_string_u_escape c fuel t acc :
  c < 65536 -> is_surrogate c = false ->
  scan_string (S fuel) (u_escape c ++ t) acc = scan_string fuel t (c :: acc).
Proof.
  intros Hc Hs.
  change (u_escape c ++ t) with (92 :: 117 :: drop 2 (u_escape c) ++ t).
  cbn [scan_string]. change (92 =? 34) with false. change (92 =? 92) with true.
  change (117 =? 117) with true. cbn iota.
  by rewrite unicode_escape_bmp.
Qed.

Lemma scan_string_char c fuel t acc :
  scalar c = true ->
  scan_string (S fuel) (escape_char c ++ t) acc = scan_string fuel t (c :: acc).
Proof.
  intros [Hmax Hsur]%scalar_spec. unfold escape_char.
  destruct (N.eqb_spec c 34) as [-> | H34]; [done |].
  destruct (N.eqb_spec c 92) as [-> | H92]; [done |].
  destruct (N.eqb_spec c 10) as [-> | H10]; [done |].
  destruct (N.eqb_spec c 13) as [-> | H13]; [done |].
  destruct (N.eqb_spec c 9) as [-> | H9]; [done |].
  destruct (N.eqb_spec c 12) as [-> | H12]; [done |].
  destruct (N.eqb_spec c 8) as [-> | H8]; [done |].
  destruct ((32 <=? c) && (c <=? 126)) eqn:Hplain.
  - apply andb_true_iff in Hplain as [Hlo Hhi]. apply N.leb_le in Hlo.
    cbn [app scan_string].
    rewrite (proj2 (N.eqb_neq c 34)), (proj2 (N.eqb_neq c 92)) by done.
    by rewrite (proj2 (N.ltb_ge c 32)).
  - destruct (N.ltb_spec c 65536) as [Hbmp | Hastral].
    + by apply scan_string_u_escape.
    + rewrite <- app_assoc.
      change (u_escape (55296 + (c - 65536) / 1024)
              ++ u_escape (56320 + (c - 65536) mod 1024) ++ t)
        with (92 :: 117 :: drop 2 (u_escape (55296 + (c - 65536) / 1024))
              ++ u_escape (56320 + (c - 65536) mod 1024) ++ t).
      cbn [scan_string]. change (92 =? 34) with false.
      change (92 =? 92) with true. change (117 =? 117) with true. cbn iota.
      by rewrite unicode_escape_astral.
Qed.

Lemma escape_char_length c : (1 <= length (escape_char c))%nat.
Proof.
  unfold escape_char, u_escape.
  repeat match goal with |- context [if ?b then _ else _] => destruct b end;
    simpl; lia.
Qed.

Lemma escaped_length s : (length s <= length (s ≫= escape_char))%nat.
Proof.
  induction s as [|c s IH]; [done |]. cbn [mbind list_bind].
  change (c :: s) with ([c] ++ s).
  rewrite length_app. simpl. pose proof (escape_char_length c).
  rewrite length_app. lia.
Qed.

Lemma scan_string_escaped s : forall fuel rest acc,
  forallb scalar s = true -> (length s < fuel)%nat ->
  scan_string fuel ((s ≫= escape_char) ++ QUOTE :: rest) acc
  = Some (reverse acc ++ s, rest).
Proof.
  induction s as [|c s IH]; intros fuel rest acc Hs Hfuel.
  - destruct fuel as [|fuel]; [simpl in Hfuel; lia |].
    simpl. by rewrite app_nil_r.
  - destruct fuel as [|fuel]; [simpl in Hfuel; lia |].
    simpl in Hs. apply andb_true_iff in Hs as [Hc Hs].
    cbn [mbind list_bind]. rewrite <- app_assoc.
    rewrite scan_string_char by done.
    rewrite IH; [| done | simpl in Hfuel; lia].
    by rewrite reverse_cons, <- app_assoc.
Qed.

Lemma scan_dump_string s rest :
  forallb scalar s = true ->
  scan_string (length ((s ≫= escape_char) ++ QUOTE :: rest))
              ((s ≫= escape_char) ++ QUOTE :: rest) []
  = Some (s, rest).
Proof.
  intros Hs. rewrite scan_string_escaped; [done | done |].
  rewrite length_app. simpl. pose proof (escaped_length s). lia.
Qed.

Lemma skip_ws_indent level t : skip_ws (newline_indent level ++ t) = skip_ws t.
Proof.
  unfold newline_indent, skip_ws. cbn [app lstrip].
  change (is_ws NL) with true. cbn iota.
  induction (2 * level)%nat as [|n IH]; [done |]. exact IH.
Qed.


Lemma skip_ws_starts t rest : starts t -> skip_ws (t ++ rest) = t ++ rest.
Proof. intros (c & t' & -> & Hc & _). unfold skip_ws. simpl. by rewrite Hc. Qed.

Lemma starts_app t rest : starts t -> starts (t ++ rest).
Proof. intros (c & t' & -> & Hc). by exists c, (t' ++ rest). Qed.

Lemma dump_string_starts s : starts (dump_string s).
Proof. eexists _, _. split; [done |]. split; [done | discriminate]. Qed.

Lemma dumps_starts level j : plain j = true -> starts (dumps level j).
Proof.
  destruct j as [|[]| |s|[|x items]|[|kv members]]; intros Hp;
    try discriminate Hp;
    try (eexists _, _; split; [reflexivity |]; split; [done | discriminate]).
Qed.


Lemma join_cons2 sep (p q : str) ps :
  join sep (p :: q :: ps) = p ++ sep ++ join sep (q :: ps).
Proof. done. Qed.

Lemma join_length_part sep (parts : list str) p :
  p ∈ parts -> (length p <= length (join sep parts))%nat.
Proof.
  induction parts as [|q [|q' parts] IH]; intros Hin.
  - by apply elem_of_nil in Hin.
  - apply list_elem_of_singleton in Hin as ->. done.
  - rewrite join_cons2, !length_app.
    apply elem_of_cons in Hin as [-> | Hin]; [lia |].
    specialize (IH Hin). lia.
Qed.

Lemma join_length_parts sep (parts : list str) :
  Forall (fun p => p <> []) parts ->
  (length parts <= length (join sep parts))%nat.
Proof.
  induction parts as [|q [|q' parts] IH]; intros Hne; [simpl; lia | |].
  - apply Forall_cons in Hne as [Hq _]. destruct q; [done | simpl; lia].
  - apply Forall_cons in Hne as [Hq Hne]. specialize (IH Hne).
    rewrite join_cons2, !length_app. cbn [length] in *.
    destruct q; [done |]. cbn [length]. lia.
Qed.

Lemma starts_nonempty t : starts t -> t <> [].
Proof. by intros (c & t' & -> & _). Qed.

Section Items.
Variable level : nat.
Variable fuelv : nat.
Variable rest : str.

Lemma scan_items_joined items : forall fueli acc,
  Forall (fun j => plain j = true /\ reads_back j) items ->
  Forall (fun j => (length (dumps (S level) j) <= fuelv)%nat) items ->
  items <> [] -> (length items <= fueli)%nat ->
  scan_items (scan_value fuelv) fueli
    (join (lit "," ++ newline_indent (S level)) (dumps (S level) <$> items)
     ++ newline_indent level ++ 93 :: rest) acc
  = Some (reverse acc ++ items, rest).
Proof.
  induction items as [|x [|y items] IH]; intros fueli acc Hall Hlen Hne Hfuel;
    [done | |].
  - destruct fueli as [|fueli]; [simpl in Hfuel; lia |].
    apply Forall_cons in Hall as [[_ Hx] _].
    apply Forall_cons in Hlen as [Hlx _].
    cbn [fmap list_fmap join scan_items].
    rewrite (Hx (S level) fuelv _ Hlx). cbn [mbind option_bind].
    rewrite skip_ws_indent. unfold skip_ws. cbn [lstrip].
    change (is_ws 93) with false. cbn iota.
    change (93 =? 44) with false. change (93 =? 93) with true. cbn iota.
    by rewrite reverse_cons.
  - destruct fueli as [|fueli]; [simpl in Hfuel; lia |].
    apply Forall_cons in Hall as [[_ Hx] Hall].
    apply Forall_cons in Hlen as [Hlx Hlen].
    change (dumps (S level) <$> x :: y :: items)
      with (dumps (S level) x :: (dumps (S level) <$> y :: items)).
    change (dumps (S level) <$> y :: items)
      with (dumps (S level) y :: (dumps (S level) <$> items)) at 1.
    rewrite join_cons2.
    change (dumps (S level) y :: (dumps (S level) <$> items))
      with (dumps (S level) <$> y :: items).
    rewrite <- !app_assoc. cbn [scan_items].
    rewrite (Hx (S level) fuelv _ Hlx). cbn [mbind option_bind].
    change (lit "," ++ newline_indent (S level) ++ ?t)
      with (44 :: newline_indent (S level) ++ t).
    cbn [app]. unfold skip_ws at 1. cbn [lstrip].
    change (is_ws 44) with false. cbn iota.
    change (44 =? 44) with true. cbn iota.
    rewrite skip_ws_indent.
    assert (Hy : starts (dumps (S level) y)).
    { apply Forall_cons in Hall as [[Hy _] _]. by apply dumps_starts. }
    rewrite skip_ws_starts.
    2: { change (dumps (S level) <$> y :: items)
           with (dumps (S level) y :: (dumps (S level) <$> items)).
         destruct (dumps (S level) <$> items); [done |].
         rewrite join_cons2. by apply starts_app. }
    rewrite IH; [| done | done | done | simpl in *; lia].
    by rewrite reverse_cons, <- app_assoc.
Qed.
End Items.


Section Members.
Variable level : nat.
Variable fuelv : nat.
Variable rest : str.

Lemma scan_member k v t fuelm acc :
  forallb scalar k = true -> plain v = true -> reads_back v ->
  (length (dumps (S level) v) <= fuelv)%nat ->
  scan_members (scan_value fuelv) (S fuelm) (member_text level (k, v) ++ t) acc
  = match skip_ws t with
    | d :: r4 =>
        if d =? 44
        then scan_members (scan_value fuelv) fuelm (skip_ws r4) ((k, v) :: acc)
        else if d =? 125 then Some (reverse ((k, v) :: acc), r4)
        else None
    | [] => None
    end.
Proof.
  intros Hk Hv Hread Hlen. unfold member_text, dump_string.
  rewrite <- !app_assoc. cbn [app scan_members].
  change (QUOTE =? 34) with true. cbn iota. rewrite <- !app_assoc.
  change ([QUOTE] ++ lit ": " ++ dumps (S level) v ++ t)
    with (QUOTE :: 58 :: 32 :: dumps (S level) v ++ t).
  rewrite scan_dump_string by done. cbn [mbind option_bind].
  change (skip_ws (58 :: 32 :: dumps (S level) v ++ t))
    with (58 :: 32 :: dumps (S level) v ++ t). cbn iota.
  change (58 =? 58) with true. cbn iota.
  change (skip_ws (32 :: dumps (S level) v ++ t))
    with (skip_ws (dumps (S level) v ++ t)).
  rewrite skip_ws_starts by (by apply dumps_starts).
  by rewrite (Hread (S level) fuelv t Hlen).
Qed.

Lemma scan_members_joined members : forall fuelm acc,
  Forall (fun kv => forallb scalar kv.1 = true /\ plain kv.2 = true
                    /\ reads_back kv.2) members ->
  Forall (fun kv => (length (dumps (S level) kv.2) <= fuelv)%nat) members ->
  members <> [] -> (length members <= fuelm)%nat ->
  scan_members (scan_value fuelv) fuelm
    (join (lit "," ++ newline_indent (S level))
       (member_text level <$> members)
     ++ newline_indent level ++ 125 :: rest) acc
  = Some (reverse acc ++ members, rest).
Proof.
  induction members as [|[k v] [|kv members] IH];
    intros fuelm acc Hall Hlen Hne Hfuel; [done | |].
  - destruct fuelm as [|fuelm]; [simpl in Hfuel; lia |].
    apply Forall_cons in Hall as [(Hk & Hv & Hread) _].
    apply Forall_cons in Hlen as [Hlv _].
    cbn [fmap list_fmap join].
    rewrite scan_member by done.
    rewrite skip_ws_indent. unfold skip_ws. cbn [lstrip].
    change (is_ws 125) with false. cbn iota.
    change (125 =? 44) with false. change (125 =? 125) with true. cbn iota.
    by rewrite reverse_cons.
  - destruct fuelm as [|fuelm]; [simpl in Hfuel; lia |].
    apply Forall_cons in Hall as [(Hk & Hv & Hread) Hall].
    apply Forall_cons in Hlen as [Hlv Hlen].
    change (member_text level <$> (k, v) :: kv :: members)
      with (member_text level (k, v)
            :: member_text level kv :: (member_text level <$> members)).
    rewrite join_cons2.
    change (member_text level kv :: (member_text level <$> members))
      with (member_text level <$> kv :: members).
    rewrite <- !app_assoc.
    rewrite scan_member by done.
    change (lit "," ++ newline_indent (S level) ++ ?t)
      with (44 :: newline_indent (S level) ++ t).
    unfold skip_ws at 1. cbn [lstrip].
    change (is_ws 44) with false. cbn iota.
    change (44 =? 44) with true. cbn iota.
    rewrite skip_ws_indent.
    rewrite skip_ws_starts.
    2: { change (member_text level <$> kv :: members)
           with (member_text level kv :: (member_text level <$> members)).
         assert (starts (member_text level kv)).
         { destruct kv as [k' v']. unfold member_text.
           apply starts_app, dump_string_starts. }
         destruct (member_text level <$> members); [done |].
         rewrite join_cons2. by apply starts_app. }
    rewrite IH; [| done | done | done | simpl in *; lia].
    by rewrite reverse_cons, <- app_assoc.
Qed.
End Members.

Lemma dumps_array level x items :
  dumps level (JArray (x :: items))
  = 91 :: newline_indent (S level)
    ++ join (lit "," ++ newline_indent (S level))
         (dumps (S level) <$> x :: items)
    ++ newline_indent level ++ [93].
Proof. done. Qed.

Lemma dumps_object level kv members :
  dumps level (JObject (kv :: members))
  = 123 :: newline_indent (S level)
    ++ join (lit "," ++ newline_indent (S level))
         (member_text level <$> kv :: members)
    ++ newline_indent level ++ [125].
Proof. done. Qed.

Lemma dumps_reads_back j : plain j = true -> reads_back j.
Proof.
  induction j as [|b|lexeme|s|items IH|members IH] using json_nested_ind;
    intros Hp level fuel rest Hfuel.
  - destruct fuel as [|fuel]; [simpl in Hfuel; lia | done].
  - destruct fuel as [|fuel]; [destruct b; simpl in Hfuel; lia |].
    by destruct b.
  - done.
  - destruct fuel as [|fuel]; [simpl in Hfuel; lia |].
    unfold dumps, dump_string. cbn [app scan_value].
    change (QUOTE =? 34) with true. cbn iota.
    rewrite <- app_assoc. change ([QUOTE] ++ rest) with (QUOTE :: rest).
    by rewrite scan_dump_string.
  - destruct items as [|x items].
    { destruct fuel as [|fuel]; [simpl in Hfuel; lia | done]. }
    destruct fuel as [|fuel]; [simpl in Hfuel; lia |].
    simpl in Hp.
    assert (Hall : Forall (fun j => plain j = true /\ reads_back j)
                     (x :: items)).
    { apply Forall_forall. intros j Hj.
      assert (plain j = true).
      { change (forallb plain (x :: items) = true) in Hp.
        rewrite forallb_forall in Hp. apply Hp.
        by apply list_elem_of_In. }
      split; [done |]. rewrite Forall_forall in IH. by apply IH. }
    rewrite dumps_array in Hfuel |- *.
    rewrite !length_cons, !length_app in Hfuel.
    assert (Hx : starts (dumps (S level) x)).
    { apply dumps_starts. by apply Forall_cons in Hall as [[? _] _]. }
    cbn [app scan_value].
    change (91 =? 34) with false. change (91 =? 123) with false.
    change (91 =? 91) with true. cbn iota.
    rewrite <- !app_assoc, skip_ws_indent.
    assert (Hj : starts (join (lit "," ++ newline_indent (S level))
                           (dumps (S level) <$> x :: items))).
    { change (dumps (S level) <$> x :: items)
        with (dumps (S level) x :: (dumps (S level) <$> items)).
      destruct (dumps (S level) <$> items); [done |].
      rewrite join_cons2. by apply starts_app. }
    rewrite skip_ws_starts by done.
    destruct Hj as (c & t' & Hjoin & _ & Hc).
    rewrite Hjoin at 1. cbn [app].
    rewrite (proj2 (N.eqb_neq c 93)) by done.
    change ([93] ++ rest) with (93 :: rest).
    rewrite scan_items_joined; [done | done | | done |].
    + apply Forall_forall. intros j Hj.
      pose proof (join_length_part (lit "," ++ newline_indent (S level))
                    (dumps (S level) <$> x :: items) (dumps (S level) j)) as Hle.
      assert (dumps (S level) j ∈ dumps (S level) <$> x :: items)
        by (by apply list_elem_of_fmap_2).
      specialize (Hle ltac:(done)). lia.
    + pose proof (join_length_parts (lit "," ++ newline_indent (S level))
                    (dumps (S level) <$> x :: items)) as Hle.
      rewrite length_fmap in Hle.
      assert (Forall (fun p : list N => p <> [])
                (dumps (S level) <$> x :: items)).
      { apply Forall_fmap. eapply Forall_impl; [exact Hall |].
        intros j [Hj _]. apply starts_nonempty. by apply dumps_starts. }
      specialize (Hle ltac:(done)). lia.
  - destruct members as [|kv members].
    { destruct fuel as [|fuel]; [simpl in Hfuel; lia | done]. }
    destruct fuel as [|fuel]; [simpl in Hfuel; lia |].
    simpl in Hp.
    assert (Hall : Forall (fun kv => forallb scalar kv.1 = true
                                     /\ plain kv.2 = true /\ reads_back kv.2)
                     (kv :: members)).
    { apply Forall_forall. intros [k v] Hkv.
      assert (forallb scalar k && plain v = true) as [Hk Hv]%andb_true_iff.
      { change (forallb (fun '(k, v) => forallb scalar k && plain v)
                  (kv :: members) = true) in Hp.
        rewrite forallb_forall in Hp.
        apply (Hp (k, v)). by apply list_elem_of_In. }
      split; [done |]. split; [done |]. rewrite Forall_forall in IH.
      by apply (IH (k, v)). }
    rewrite dumps_object in Hfuel |- *.
    rewrite !length_cons, !length_app in Hfuel.
    cbn [app scan_value].
    change (123 =? 34) with false. change (123 =? 123) with true. cbn iota.
    rewrite <- !app_assoc, skip_ws_indent.
    assert (Hj : starts (join (lit "," ++ newline_indent (S level))
                           (member_text level <$> kv :: members))).
    { change (member_text level <$> kv :: members)
        with (member_text level kv :: (member_text level <$> members)).
      assert (starts (member_text level kv)).
      { destruct kv as [k' v']. unfold member_text.
        apply starts_app, dump_string_starts. }
      destruct (member_text level <$> members); [done |].
      rewrite join_cons2. by apply starts_app. }
    assert (Hhead : exists t', join (lit "," ++ newline_indent (S level))
                                 (member_text level <$> kv :: members)
                               = 34 :: t').
    { change (member_text level <$> kv :: members)
        with (member_text level kv :: (member_text level <$> members)).
      destruct kv as [k' v'].
      destruct (member_text level <$> members); [by eexists |].
      rewrite join_cons2. by eexists. }
    rewrite skip_ws_starts by done.
    destruct Hhead as (t' & Hjoin).
    rewrite Hjoin at 1. cbn [app].
    change (34 =? 125) with false. cbn iota.
    change ([125] ++ rest) with (125 :: rest).
    rewrite scan_members_joined; [done | done | | done |].
    + apply Forall_forall. intros [k v] Hkv.
      pose proof (join_length_part (lit "," ++ newline_indent (S level))
                    (member_text level <$> kv :: members)
                    (member_text level (k, v))) as Hle.
      assert (member_text level (k, v)
              ∈ member_text level <$> kv :: members)
        by (by apply list_elem_of_fmap_2).
      specialize (Hle ltac:(done)).
      unfold member_text in Hle at 1. rewrite !length_app in Hle.
      cbn [snd]. lia.
    + pose proof (join_length_parts (lit "," ++ newline_indent (S level))
                    (member_text level <$> kv :: members)) as Hle.
      rewrite length_fmap in Hle.
      assert (Forall (fun p : list N => p <> [])
                (member_text level <$> kv :: members)).
      { apply Forall_fmap. apply Forall_forall. intros [k v] _. done. }
      specialize (Hle ltac:(done)). lia.
Qed.

Theorem loads_dumps j : plain j = true -> loads (dumps 0 j) = Some j.
Proof.
  intros Hp. unfold loads.
  pose proof (skip_ws_starts (dumps 0 j) [] (dumps_starts 0%nat j Hp)) as Hs.
  rewrite app_nil_r in Hs. rewrite Hs.
  pose proof (dumps_reads_back j Hp 0%nat (S (length (dumps 0 j))) []
                ltac:(lia)) as Hr.
  rewrite app_nil_r in Hr. by rewrite Hr.
Qed.

(** The JSON of a plain message is a plain value. *)
Lemma plain_part_json p : plain_part p = true -> plain (part_json p) = true.
Proof. destruct p; simpl; intros ->; done. Qed.

Lemma plain_parts_json parts :
  forallb plain_part parts = true ->
  forallb plain (part_json <$> parts) = true.
Proof.
  induction parts as [|p parts IH]; [done |].
  rewrite fmap_cons. cbn [forallb]. intros [Hp Hps]%andb_true_iff.
  by rewrite plain_part_json, IH.
Qed.

Lemma plain_content_json c :
  plain_content c = true -> plain (content_json c) = true.
Proof. destruct c; [done | apply plain_parts_json | done]. Qed.

Lemma plain_message_json m :
  plain_message m = true -> plain (message_json m) = true.
Proof.
  unfold plain_message.
  intros [[[Hid Hrole]%andb_true_iff Hc]%andb_true_iff Hmodel]%andb_true_iff.
  simpl. rewrite Hid, Hrole, Hmodel, (plain_content_json _ Hc). done.
Qed.

(** The text of a history of plain messages parses to the JSON of that
    history. *)
Lemma loads_history_text (history : list message) :
  forallb plain_message history = true ->
  loads (history_text history) = Some (JArray (message_json <$> history)).
Proof.
  intros Hp. apply loads_dumps. simpl.
  induction history as [|m history IH]; [done |].
  simpl in Hp. apply andb_true_iff in Hp as [Hm Hp].
  rewrite fmap_cons. cbn [forallb]. by rewrite plain_message_json, IH.
Qed.

End DumpFacts.

(** ** Loading a history *)

Module LoaderExtras.
Import Text Json Decoder Model Session Loader Dump SessionFacts DumpFacts.

Lemma all_in_object fields members :
  all_in fields (JObject members) =
    Some (bool_decide (Forall (fun k => is_Some (dict_get k members)) fields)).
Proof.
  induction fields as [|k fields IH]; simpl.
  - done.
  - destruct (decide (is_Some (dict_get k members))) as [Hk | Hk].
    + rewrite (bool_decide_eq_true_2 _ Hk), IH. f_equal.
      apply bool_decide_ext. rewrite Forall_cons. tauto.
    + rewrite (bool_decide_eq_false_2 _ Hk). f_equal. symmetry.
      apply bool_decide_eq_false_2. rewrite Forall_cons. tauto.
Qed.

#[local] Arguments all_in : simpl never.

(** X15: [load_history] returns a list exactly when the file parses to a
    non-empty list whose first element is an object with the keys [id],
    [role], [content] and [model], and it returns that list as parsed.
    Nothing else is looked at: neither the values behind the four keys nor
    the other elements of the list. *)
Theorem load_history_accepts_exactly (loaded : option json)
    (history : list json) :
  load_history loaded = Some history <->
  exists members rest,
    loaded = Some (JArray (JObject members :: rest)) /\
    history = JObject members :: rest /\
    Forall (fun k => is_Some (dict_get k members)) REQUIRED_FIELDS.
Proof.
  split.
  - unfold load_history. destruct loaded as [[| | | |[|first rest]|]|];
      simpl; try done.
    destruct first as [| | | s | items | members].
    1-3: done.
    + destruct (all_in REQUIRED_FIELDS (JString s)) as [[]|]; done.
    + destruct (all_in REQUIRED_FIELDS (JArray items)) as [[]|]; done.
    + rewrite all_in_object. simpl. case_bool_decide as Hall; [| done].
      destruct (dict_get ID_KEY members); simpl; [| done].
      intros [= <-]. by exists members, rest.
  - intros (members & rest & -> & -> & Hall).
    unfold load_history. simpl. rewrite all_in_object. simpl.
    rewrite bool_decide_eq_true_2 by done.
    inversion Hall as [|? ? [v Hid] _]; subst. by rewrite Hid.
Qed.

Lemma part_json_inj p q : part_json p = part_json q -> p = q.
Proof. destruct p, q; simpl; intros H; by simplify_eq. Qed.

Lemma parts_json_inj (ps qs : list part) :
  part_json <$> ps = part_json <$> qs -> ps = qs.
Proof.
  revert qs. induction ps as [|p ps IH]; intros [|q qs] H;
    [done | discriminate | discriminate |].
  rewrite !fmap_cons in H.
  assert (Hp : part_json p = part_json q) by congruence.
  assert (Hps : part_json <$> ps = part_json <$> qs) by congruence.
  f_equal; [by apply part_json_inj | by apply IH].
Qed.

Lemma message_json_inj m m' : message_json m = message_json m' -> m = m'.
Proof.
  destruct m as [i r c mo], m' as [i' r' c' mo']. unfold message_json. simpl.
  intros H. simplify_eq. f_equal.
  destruct c, c'; simplify_eq/=; [done | | done].
  f_equal. by apply parts_json_inj.
Qed.

Lemma history_json_inj (h h' : list message) :
  message_json <$> h = message_json <$> h' -> h = h'.
Proof.
  revert h'. induction h as [|m h IH]; intros [|m' h'] H;
    [done | discriminate | discriminate |].
  rewrite !fmap_cons in H.
  assert (Hm : message_json m = message_json m') by congruence.
  assert (Hh : message_json <$> h = message_json <$> h') by congruence.
  f_equal; [by apply message_json_inj | by apply IH].
Qed.

Lemma load_history_messages m (h : list message) :
  load_history (Some (JArray (message_json <$> (m :: h))))
    = Some (message_json <$> (m :: h)).
Proof. reflexivity. Qed.

Section Extras.
Variable self : client.
Variable w : world.

(** X16: what a successful save wrote, [load_history] takes back.  When
    the strings of the messages written hold no surrogate, parsing the text
    that [json.dump] wrote into the file of the conversation and checking
    it as [load_history] does returns the JSON of the list written, message
    for message; and two histories with the same JSON are the same
    history. *)
Theorem save_then_load root first rest s :
  save_to self = Some root -> writable w = true ->
  let history := first :: rest in
  let file_path := history_path root (msg_id first) in
  let written : list message :=
    merge_history (files s !! file_path) history in
  forallb plain_message written = true ->
  let out := save_history self w history s in
  load_history ((files out.2 !! file_path ≫= file_text) ≫= loads)
    = Some (message_json <$> written) /\
  forall h : list message,
    message_json <$> h = message_json <$> written -> h = written.
Proof.
  intros Hroot Hw. cbv zeta. intros Hplain.
  destruct (save_history_file self w root first rest s Hroot Hw) as [_ Hf].
  split; [| intros h; apply history_json_inj]. rewrite Hf.
  cbn [mbind option_bind file_text].
  rewrite (loads_history_text _ Hplain).
  set (written := merge_history _ _) in *.
  assert (Hne : length written = length (first :: rest))
    by apply SaveExtras.merge_history_length.
  destruct written as [|m written']; [done |].
  apply load_history_messages.
Qed.

End Extras.

Import Sample.

Lemma save_then_load_witness :
  load_history
    ((files (save_history a_client world_ok other_history saved_state).2
        !! history_path (lit "out/mindful") TASK ≫= file_text) ≫= loads)
  = Some (message_json
            <$> merge_history
                  (files saved_state !! history_path (lit "out/mindful") TASK)
                  other_history) /\
  forall h : list message,
    message_json <$> h
    = message_json
        <$> merge_history
              (files saved_state !! history_path (lit "out/mindful") TASK)
              other_history ->
    h = merge_history
          (files saved_state !! history_path (lit "out/mindful") TASK)
          other_history.
Proof.
  apply (save_then_load a_client world_ok (lit "out/mindful")
           (system_message TASK HELPFUL) [user_message TASK (lit "other")]
           saved_state); reflexivity.
Defined.

End LoaderExtras.

(** ** Reading the commands of the interactive loop *)

Module CommandExtras.
Import Text Json Decoder Model Commands TextFacts PathExtras.

Lemma cut_at_quote_Some (s a b : list N) :
  cut_at_quote s = Some (a, b) -> s = a ++ QUOTE :: b /\ QUOTE ∉ a.
Proof.
  revert a. induction s as [|c s IH]; intros a; simpl; [done |].
  destruct (N.eqb_spec c QUOTE) as [-> | Hne].
  - intros [= <- <-]. split; [done | apply not_elem_of_nil].
  - destruct (cut_at_quote s) as [[a' b']|]; simpl; [| done].
    intros [= <- <-]. destruct (IH a' eq_refl) as [-> Ha'].
    split; [done |]. rewrite not_elem_of_cons. split; [congruence | done].
Qed.

Lemma cut_at_quote_app (a b : list N) :
  QUOTE ∉ a -> cut_at_quote (a ++ QUOTE :: b) = Some (a, b).
Proof.
  induction a as [|c a IH]; simpl.
  - done.
  - rewrite not_elem_of_cons. intros [Hc Ha]. rewrite (IH Ha). simpl.
    destruct (N.eqb_spec c QUOTE); [congruence | done].
Qed.

(** X17: [parse_quoted_content] returns the text between the first double
    quote and the next one, and only that: it returns [body] exactly when
    the text is some text without quote, a quote, [body] without quote, a
    quote, and anything after. *)
Theorem parse_quoted_content_first_pair (text body : list N) :
  parse_quoted_content text = Some body <->
  exists pre post,
    text = pre ++ QUOTE :: body ++ QUOTE :: post /\
    (QUOTE ∉ pre) /\ (QUOTE ∉ body).
Proof.
  unfold parse_quoted_content. split.
  - destruct (cut_at_quote text) as [[pre after]|] eqn:H1; simpl; [| done].
    destruct (cut_at_quote after) as [[body' post]|] eqn:H2; simpl; [| done].
    intros [= <-]. apply cut_at_quote_Some in H1 as [-> Hpre].
    apply cut_at_quote_Some in H2 as [-> Hbody]. by exists pre, post.
  - intros (pre & post & -> & Hpre & Hbody).
    rewrite (cut_at_quote_app pre (body ++ QUOTE :: post)) by done.
    simpl. by rewrite (cut_at_quote_app body post).
Qed.

(** *** [strip] on text with known ends *)

Lemma lstrip_run f (a s : list N) :
  Forall (fun c => f c = true) a -> lstrip f (a ++ s) = lstrip f s.
Proof. induction 1 as [|c a Hc _ IH]; simpl; [done |]. by rewrite Hc. Qed.

Lemma lstrip_stop f (s : list N) :
  (forall c, head s = Some c -> f c = false) -> lstrip f s = s.
Proof. destruct s as [|c s]; simpl; [done |]. intros H. by rewrite H. Qed.

Lemma rstrip_run f (s b : list N) :
  Forall (fun c => f c = true) b -> rstrip f (s ++ b) = rstrip f s.
Proof.
  intros Hb. unfold rstrip. rewrite reverse_app, lstrip_run; [done |].
  by apply Forall_reverse.
Qed.

Lemma rstrip_stop f (s : list N) :
  (forall c, last s = Some c -> f c = false) -> rstrip f s = s.
Proof.
  intros H. unfold rstrip. rewrite lstrip_stop.
  - apply reverse_involutive.
  - intros c Hc. apply H. by rewrite <- head_reverse.
Qed.

Lemma strip_fixed f (s : list N) :
  (forall c, head s = Some c -> f c = false) ->
  (forall c, last s = Some c -> f c = false) -> strip f s = s.
Proof. intros Hh Hl. unfold strip. by rewrite lstrip_stop, rstrip_stop. Qed.

(** A text between two double quotes. *)
Lemma strip_ws_quoted (p : list N) :
  strip_ws (QUOTE :: p ++ [QUOTE]) = QUOTE :: p ++ [QUOTE].
Proof.
  apply strip_fixed.
  - by intros c [= <-].
  - intros c. rewrite app_comm_cons, last_snoc. by intros [= <-].
Qed.

Lemma strip_quotes_quoted (p : list N) :
  QUOTE ∉ p -> strip_quotes (QUOTE :: p ++ [QUOTE]) = p.
Proof.
  intros Hp. unfold strip_quotes, strip.
  assert (Hnone : forall c, c ∈ p -> (QUOTE =? c) = false).
  { intros c Hc. destruct (N.eqb_spec QUOTE c); [congruence | done]. }
  change (QUOTE :: p ++ [QUOTE]) with ([QUOTE] ++ p ++ [QUOTE]).
  rewrite lstrip_run by (by repeat constructor).
  destruct p as [|c p].
  - done.
  - rewrite lstrip_stop.
    2: { intros d [= <-]. apply Hnone, list_elem_of_here. }
    rewrite rstrip_run by (by repeat constructor).
    apply rstrip_stop. intros d Hd. apply Hnone.
    by apply last_Some_elem_of.
Qed.

Section Extras.
Variable literal_eval : list N -> option (list (list N)).
Variable path_exists : list N -> bool.

Abbreviation parse_image_command :=
  (parse_image_command literal_eval path_exists).

Local Open Scope Z_scope.

(** X18: a path between double quotes with no question after it is never
    accepted, whether the file exists or not: the quoted text is taken for
    the question and the path is left empty. *)
Theorem quoted_path_alone_is_rejected (p : list N) :
  QUOTE ∉ p -> parse_image_command (QUOTE :: p ++ [QUOTE]) = None.
Proof.
  intros Hp. unfold Commands.parse_image_command.
  rewrite strip_ws_quoted. unfold split_question.
  assert (contains [QUOTE] (QUOTE :: p ++ [QUOTE]) = true) as ->.
  { cbn [contains startswith]. by rewrite N.eqb_refl. }
  rewrite app_comm_cons.
  rewrite (rfind_last_occurrence QUOTE (QUOTE :: p) [])
    by apply not_elem_of_nil.
  rewrite Nat2Z.id, take_app_length.
  assert (rfind QUOTE (QUOTE :: p) = 0) as ->
    by (by apply (rfind_last_occurrence QUOTE [] p)).
  done.
Qed.

(** X19: the documented form, a path between double quotes, a space and a
    question between double quotes (neither holding a quote): the path,
    without the spaces around it, is returned when it is not empty and the
    file exists, with the question, or the default question when the
    question is blank; otherwise the command is rejected. *)
Theorem quoted_path_and_question (p q : list N) :
  QUOTE ∉ p -> QUOTE ∉ q ->
  parse_image_command
    ((QUOTE :: p ++ [QUOTE]) ++ [32%N] ++ (QUOTE :: q ++ [QUOTE])) =
  if truthy (strip_ws p) && path_exists (strip_ws p)
  then Some (OnePath (strip_ws p),
             if truthy (strip_ws q) then strip_ws q else DEFAULT_QUESTION)
  else None.
Proof.
  intros Hp Hq. unfold Commands.parse_image_command.
  set (path_text := QUOTE :: p ++ [QUOTE]).
  assert (Hcontent : path_text ++ [32%N] ++ QUOTE :: q ++ [QUOTE]
                     = (path_text ++ [32%N] ++ QUOTE :: q) ++ [QUOTE]).
  { by rewrite <- !app_assoc. }
  assert (strip_ws (path_text ++ [32%N] ++ QUOTE :: q ++ [QUOTE])
          = (path_text ++ [32%N] ++ QUOTE :: q) ++ [QUOTE]) as ->.
  { rewrite Hcontent. apply strip_fixed.
    - by intros c [= <-].
    - intros c. rewrite last_snoc. by intros [= <-]. }
  unfold split_question.
  assert (contains [QUOTE] ((path_text ++ [32%N] ++ QUOTE :: q) ++ [QUOTE])
          = true) as ->.
  { unfold path_text. cbn [contains startswith app]. by rewrite N.eqb_refl. }
  rewrite (rfind_last_occurrence QUOTE _ []) by apply not_elem_of_nil.
  rewrite Nat2Z.id, take_app_length.
  assert (Hsecond : rfind QUOTE (path_text ++ [32%N] ++ QUOTE :: q)
                    = Z.of_nat (length (path_text ++ [32%N]))).
  { rewrite app_assoc. by apply rfind_last_occurrence. }
  rewrite Hsecond.
  assert ((Z.of_nat (length (path_text ++ [32%N])) =? -1) = false) as ->.
  { apply Z.eqb_neq. lia. }
  assert (Hquestion :
            slice (Z.of_nat (length (path_text ++ [32%N])) + 1)
                  (Z.of_nat (length (path_text ++ [32%N] ++ QUOTE :: q)))
                  ((path_text ++ [32%N] ++ QUOTE :: q) ++ [QUOTE]) = q).
  { unfold slice.
    replace (Z.to_nat (Z.of_nat (length (path_text ++ [32%N])) + 1))
      with (length ((path_text ++ [32%N]) ++ [QUOTE]))
      by (rewrite !length_app; simpl; lia).
    replace (Z.to_nat (Z.of_nat (length (path_text ++ [32%N] ++ QUOTE :: q)))
             - length ((path_text ++ [32%N]) ++ [QUOTE]))%nat
      with (length q) by (rewrite !length_app; simpl; lia).
    replace ((path_text ++ [32%N] ++ QUOTE :: q) ++ [QUOTE])
      with (((path_text ++ [32%N]) ++ [QUOTE]) ++ q ++ [QUOTE])
      by (by rewrite <- !app_assoc).
    by rewrite drop_app_length, take_app_length. }
  rewrite Hquestion.
  assert (Hpath : take (Z.to_nat (Z.of_nat (length (path_text ++ [32%N]))))
                    ((path_text ++ [32%N] ++ QUOTE :: q) ++ [QUOTE])
                  = path_text ++ [32%N]).
  { rewrite Nat2Z.id.
    replace ((path_text ++ [32%N] ++ QUOTE :: q) ++ [QUOTE])
      with ((path_text ++ [32%N]) ++ (QUOTE :: q) ++ [QUOTE])
      by (by rewrite <- !app_assoc).
    apply take_app_length. }
  rewrite Hpath.
  assert (strip_ws (path_text ++ [32%N]) = path_text) as ->.
  { unfold strip_ws, strip. rewrite lstrip_stop by (by intros c [= <-]).
    rewrite rstrip_run by (by repeat constructor).
    apply rstrip_stop. intros c. unfold path_text.
    rewrite app_comm_cons, last_snoc. by intros [= <-]. }
  assert (startswith (lit "[") path_text = false) as -> by done.
  unfold path_text. rewrite strip_quotes_quoted by done.
  unfold question_or_default. done.
Qed.

End Extras.

Lemma quoted_path_alone_is_rejected_witness :
  parse_image_command (fun _ => None) (fun _ => true)
    (QUOTE :: lit "cat.png" ++ [QUOTE]) = None.
Proof.
  apply (quoted_path_alone_is_rejected (fun _ => None) (fun _ => true)
           (lit "cat.png")).
  by apply (bool_decide_unpack _).
Defined.

Lemma quoted_path_and_question_witness :
  parse_image_command (fun _ => None) (fun _ => true)
    ((QUOTE :: lit "cat.png" ++ [QUOTE]) ++ [32%N]
     ++ (QUOTE :: lit "what is this?" ++ [QUOTE])) =
  if truthy (strip_ws (lit "cat.png")) && true
  then Some (OnePath (strip_ws (lit "cat.png")),
             if truthy (strip_ws (lit "what is this?"))
             then strip_ws (lit "what is this?") else DEFAULT_QUESTION)
  else None.
Proof.
  apply (quoted_path_and_question (fun _ => None) (fun _ => true)
           (lit "cat.png") (lit "what is this?"));
    by apply (bool_decide_unpack _).
Defined.

End CommandExtras.

(** ** Agents and settings *)

Module SetupExtras.
Import Text Json Decoder Model Session Setup Init TextFacts SessionFacts.

Section Extras.
Variable str_format : list N -> list N -> option (list N).
Variable self : client.

(** X20: a non-empty instruction decides the system prompt alone: the
    agent asked for is ignored and the template of the custom agent is
    filled with the instruction.  Without instruction the prompt is the
    template of the agent as it stands (for the custom agent, with its
    placeholder unfilled).  [__switch_agent] computes the same prompt. *)
Theorem system_prompt_by_instruction (agent : list N)
    (instruction : option (list N)) :
  requested_prompt str_format self agent instruction =
    (if truthy_opt instruction
     then agents self !! CUSTOM ≫= fun template =>
          str_format template (default [] instruction)
     else agents self !! agent) /\
  switch_agent str_format self agent instruction =
    requested_prompt str_format self agent instruction.
Proof.
  unfold requested_prompt, switch_agent, get_agent.
  destruct (truthy_opt instruction) eqn:Hi.
  - assert (str_eqb CUSTOM CUSTOM = true) as -> by done. simpl.
    rewrite Hi. done.
  - destruct (str_eqb agent CUSTOM); simpl; rewrite ?Hi, ?andb_false_r.
    + split; by destruct (agents self !! agent).
    + split; by destruct (agents self !! agent).
Qed.

End Extras.

Section Settings.
Variable str_lower : list N -> list N.
Variable tempdir : list N.
Variable models : gmap (list N) (list N).

(** X21: the settings [__init_checks] returns.  The model identifier is not
    empty; persistence is off exactly when no save directory was given, and
    then there is no format; otherwise the save directory is not empty,
    ends in [mindful], and the format is one of [json], [txt], [md]. *)
Theorem init_checks_settings (save_to : option (list N))
    (save_as model_name : list N) (timeout : Z) (cfg : settings) :
  init_checks str_lower tempdir models save_to save_as model_name timeout
    = Some cfg ->
  set_model cfg <> [] /\
  (save_to = None -> set_save_to cfg = None /\ set_save_as cfg = None) /\
  (save_to <> None ->
   exists root format,
     set_save_to cfg = Some root /\ set_save_as cfg = Some format /\
     root <> [] /\ (exists parent, root = parent ++ MINDFUL) /\
     format ∈ FORMATS).
Proof.
  unfold init_checks.
  destruct (models !! model_name) as [model_id|]; simpl.
  2: { by destruct save_to. }
  destruct save_to as [d|]; simpl.
  - destruct (truthy model_id) eqn:Hm; [| done]. intros [= <-]. simpl.
    split; [by destruct model_id |]. split; [done |]. intros _.
    eexists _, _. split; [done |]. split; [done |].
    split; [| split].
    + unfold path_join. simpl.
      destruct (negb _ || _); [| by destruct (if truthy d then d else tempdir)].
      by destruct (if truthy d then d else tempdir).
    + unfold path_join. simpl. destruct (negb _ || _).
      * by eexists.
      * exists ((if truthy d then d else tempdir) ++ [SLASH]).
        by rewrite <- app_assoc.
    + case_bool_decide; [done |]. apply list_elem_of_here.
  - destruct (truthy model_id) eqn:Hm; [| done]. intros [= <-]. simpl.
    split; [by destruct model_id |]. split; [done |]. done.
Qed.

End Settings.

Lemma init_checks_settings_witness :
  set_model (Settings (Some (lit "out/mindful")) (Some TXT_FORMAT)
               (lit "omni-1") 60) <> [] /\
  (Some (lit "out") = None ->
   set_save_to (Settings (Some (lit "out/mindful")) (Some TXT_FORMAT)
                  (lit "omni-1") 60) = None /\
   set_save_as (Settings (Some (lit "out/mindful")) (Some TXT_FORMAT)
                  (lit "omni-1") 60) = None) /\
  (Some (lit "out") <> None ->
   exists root format,
     set_save_to (Settings (Some (lit "out/mindful")) (Some TXT_FORMAT)
                    (lit "omni-1") 60) = Some root /\
     set_save_as (Settings (Some (lit "out/mindful")) (Some TXT_FORMAT)
                    (lit "omni-1") 60) = Some format /\
     root <> [] /\ (exists parent, root = parent ++ MINDFUL) /\
     format ∈ FORMATS).
Proof.
  apply (init_checks_settings (fun s => s) (lit "/tmp")
           {[lit "omniverse" := lit "omni-1"]} (Some (lit "out"))
           (lit "txt") (lit "omniverse") 60).
  vm_compute. reflexivity.
Defined.

End SetupExtras.
